(** * nkbip_converter: section organiser, tag builder and tag validator

    A shallow embedding of the core of the AsciiDoc-to-NKBIP-01 converter:
    - [clean_tag] (modules/tag_utils.py and modules/nkbip01_tags.py);
    - [parse_adoc_file] (modules/adoc_parser.py);
    - [organize_sections], [_group_l2_sections], the guard of [main]
      behind them and the tag assembly of [create_content_event]
      (nkbip_converter.py);
    - the [NKBIP01Tags] builders and validators, [upgrade_legacy_tags]
      (modules/nkbip01_tags.py) and [add_reference_to_index]
      (modules/tag_utils.py);
    - the legacy builders (modules/tag_utils.py), the tag assembly of
      [create_index_event] and the topic-tag loop of [extract_metadata]
      (nkbip_converter.py), and [extract_section_refs] (fetch_utils.py).

    Python strings are Rocq strings, read as sequences of code points below
    256; a tag is the Python list of strings [[name, value, ...]]; Python
    lists that are updated in place live in a store of list objects. *)

From Stdlib Require Import ZArith NArith Ascii String List Bool Lia.
From stdpp Require Import base option list strings pretty gmap fin_maps.

Local Open Scope string_scope.
Local Open Scope list_scope.

(** ** Python string operations *)

Module PyStr.

(** Code point of a character. *)
Definition code (c : ascii) : N := N_of_ascii c.

Definition in_range (lo hi : N) (c : ascii) : bool :=
  ((lo <=? code c) && (code c <=? hi))%N.

Definition is_code (n : N) (c : ascii) : bool := (code c =? n)%N.

(** White space: the class [\s] of [re] and the set of [str.isspace],
    below 256. *)
Definition is_space (c : ascii) : bool :=
  in_range 9 13 c || in_range 28 32 c || is_code 133 c || is_code 160 c.

(** The newline character and the string ["\n"]. *)
Definition nl_char : ascii := ascii_of_N 10.
Definition nl : string := String nl_char "".

(** [s.lstrip(chars)], the stripped characters given as a predicate. *)
Fixpoint lstrip_by (p : ascii -> bool) (s : list ascii) : list ascii :=
  match s with
  | [] => []
  | c :: rest => if p c then lstrip_by p rest else s
  end.

(** [s.strip(chars)] *)
Definition strip_by (p : ascii -> bool) (s : list ascii) : list ascii :=
  rev (lstrip_by p (rev (lstrip_by p s))).

(** [s.strip()]: white space removed at both ends. *)
Definition strip (s : string) : string :=
  string_of_list_ascii (strip_by is_space (list_ascii_of_string s)).

(** [s.startswith(p)] *)
Definition startswith (p s : string) : bool := String.prefix p s.

(** [s * n] *)
Fixpoint repeat_str (s : string) (n : nat) : string :=
  match n with
  | O => ""
  | S n' => s +:+ repeat_str s n'
  end.

(** [sep.join(parts)] *)
Fixpoint join (sep : string) (parts : list string) : string :=
  match parts with
  | [] => ""
  | [p] => p
  | p :: rest => p +:+ sep +:+ join sep rest
  end.

Definition is_blank (c : ascii) : bool := Ascii.eqb c " "%char.

(** [" " in s] *)
Fixpoint has_blank (s : string) : bool :=
  match s with
  | EmptyString => false
  | String c rest => is_blank c || has_blank rest
  end.

(** [s.split(" ")[0]]: the characters before the first blank. *)
Fixpoint before_blank (s : string) : string :=
  match s with
  | EmptyString => ""
  | String c rest => if is_blank c then "" else String c (before_blank rest)
  end.

(** [s.split(" ", 1)[1]] when [s] has a blank: what follows the first
    blank. *)
Fixpoint after_blank (s : string) : string :=
  match s with
  | EmptyString => ""
  | String c rest => if is_blank c then rest else after_blank rest
  end.

(** [s[n:]] *)
Fixpoint drop_chars (n : nat) (s : string) : string :=
  match n, s with
  | O, _ => s
  | S n', String _ rest => drop_chars n' rest
  | S _, EmptyString => ""
  end.

(** [needle in s] *)
Definition contains (needle s : string) : bool :=
  match String.index 0 needle s with
  | Some _ => true
  | None => false
  end.

End PyStr.

(** ** Characters and slugs *)

Module Slug.
Import PyStr.

(** [str.lower] on one code point below 256: A-Z and the Latin-1 capitals
    (all of 192..222 but the multiplication sign 215) move up by 32. *)
Definition lower_char (c : ascii) : ascii :=
  if in_range 65 90 c || (in_range 192 222 c && negb (is_code 215 c))
  then ascii_of_N (code c + 32)
  else c.

(** The class [\w] of [re] on [str] patterns, below 256. *)
Definition is_word (c : ascii) : bool :=
  in_range 48 57 c || in_range 65 90 c || is_code 95 c || in_range 97 122 c
  || is_code 170 c || in_range 178 179 c || is_code 181 c
  || in_range 185 186 c || in_range 188 190 c
  || in_range 192 214 c || in_range 216 246 c || in_range 248 255 c.

Definition is_hyphen (c : ascii) : bool := is_code 45 c.

(** [text.lower()] on code points below 256, where it maps character by
    character.  Beyond them Python's [lower] also looks at the context (a
    capital sigma at the end of a word), which this map does not cover. *)
Definition lower (s : list ascii) : list ascii := map lower_char s.

(** Characters outside the class [[^\w\s-]], the ones the first
    substitution keeps. *)
Definition kept (c : ascii) : bool := is_word c || is_space c || is_hyphen c.

(** [re.sub(r"[^\w\s-]", "", s)] *)
Definition strip_special (s : list ascii) : list ascii := List.filter kept s.

(** The class [[-\s]]. *)
Definition is_sep (c : ascii) : bool := is_hyphen c || is_space c.

(** [re.sub(r"[-\s]+", "-", s)]: every maximal run of separators becomes
    one hyphen.  [in_run] tells whether the previous character belonged
    to a run, whose hyphen is then already written. *)
Fixpoint collapse_from (in_run : bool) (s : list ascii) : list ascii :=
  match s with
  | [] => []
  | c :: rest =>
      if is_sep c
      then (if in_run then collapse_from true rest
            else "-"%char :: collapse_from true rest)
      else c :: collapse_from false rest
  end.

Definition collapse (s : list ascii) : list ascii := collapse_from false s.

(** [s.strip("-")] *)
Definition strip_hyphen (s : list ascii) : list ascii :=
  PyStr.strip_by is_hyphen s.

Definition clean_chars (s : list ascii) : list ascii :=
  strip_hyphen (collapse (strip_special (lower s))).

(** [clean_tag(text)] *)
Definition clean_tag (text : string) : string :=
  string_of_list_ascii (clean_chars (list_ascii_of_string text)).






(** The first character of [l], if any, is not one [lstrip_by p] strips. *)
Definition head_kept (p : ascii -> bool) (l : list ascii) : Prop :=
  match l with
  | [] => True
  | c :: _ => p c = false
  end.

(** A list in normal form: no white space and no two hyphens in a row;
    [after_hyphen] says the list follows a hyphen. *)
Fixpoint normal_from (after_hyphen : bool) (l : list ascii) : bool :=
  match l with
  | [] => true
  | c :: rest =>
      if is_hyphen c then negb after_hyphen && normal_from true rest
      else negb (is_space c) && normal_from false rest
  end.

(** Characters that both [lower] and the first substitution leave alone. *)
Definition settled (c : ascii) : Prop := lower_char c = c /\ kept c = true.

(** Case analysis on the 256 code points. *)
Ltac each_char c :=
  destruct c as [[] [] [] [] [] [] [] []]; vm_compute; try reflexivity;
  try discriminate; auto.

End Slug.

(** ** Heading parser (modules/adoc_parser.py) *)

Module Parser.
Import PyStr.

(** A parsed section: the dict [{"title", "level", "content"}]. *)
Record HeadingNode := mkHeading {
  h_title : string;
  h_level : Z;
  h_content : string
}.

(** The result of [parse_adoc_file]: [{"title", "sections"}]. *)
Record Document := mkDocument {
  doc_title : string;
  doc_sections : list HeadingNode
}.

(** The inner [while] loop of [parse_adoc_section]: collect lines until
    the next line that starts with ["="] or the end.  [rest] is
    [lines[current_line:]]. *)
Fixpoint collect_content (rest : list string) (current_line : nat)
    (content : list string) : list string * nat :=
  match rest with
  | [] => (content, current_line)
  | line :: rest' =>
      if startswith "=" line then (content, current_line)
      else collect_content rest' (S current_line) (content ++ [line])
  end.

(** [parse_adoc_section(lines, start)], for [start < len(lines)]. *)
Definition parse_adoc_section (lines : list string) (start : nat)
    : HeadingNode * nat :=
  let line0 := default "" (lines !! start) in
  let '(section_level, title, current_line) :=
    if startswith "=" line0 then
      let heading := strip line0 in
      (Z.of_nat (String.length (before_blank heading)),
       (if has_blank heading then strip (after_blank heading) else ""),
       S start)
    else (0%Z, "", start) in
  let '(content, current_line) :=
    collect_content (drop current_line lines) current_line [] in
  (mkHeading title section_level (strip (join nl content)), current_line).

(** The first [while] loop of [parse_adoc_file]: skip the leading lines
    that start with [":"]. *)
Fixpoint skip_metadata (lines : list string) (start_line : nat) : nat :=
  match lines with
  | [] => start_line
  | line :: rest =>
      if startswith ":" line then skip_metadata rest (S start_line)
      else start_line
  end.

(** The [for] loop that looks for the document title. *)
Fixpoint find_title (lines : list string) : string :=
  match lines with
  | [] => ""
  | line :: rest =>
      if startswith "= " line then strip (drop_chars 2 line)
      else find_title rest
  end.

(** The level the main loop reads off a heading line:
    [len(line.split(" ")[0])]. *)
Definition line_level (line : string) : nat :=
  String.length (before_blank line).

(** The main [while current_line < len(lines)] loop; every round moves
    [current_line] forward, [fuel] bounds the number of rounds. *)
Fixpoint parse_loop (fuel : nat) (lines : list string) (current_line : nat)
    (sections : list HeadingNode) : option (list HeadingNode) :=
  match fuel with
  | O => None
  | S fuel' =>
      match lines !! current_line with
      | None => Some sections
      | Some line =>
          if startswith "=" line then
            if (2 <=? line_level line)%nat then
              let '(section, next_line) :=
                parse_adoc_section lines current_line in
              parse_loop fuel' lines next_line (sections ++ [section])
            else parse_loop fuel' lines (S current_line) sections
          else parse_loop fuel' lines (S current_line) sections
      end
  end.

(** [parse_adoc_file], on the lines [f.readlines()] returned. *)
Definition parse_adoc_file (lines : list string) : option Document :=
  let start_line := skip_metadata lines 0 in
  let title := find_title lines in
  sections ← parse_loop (S (length lines)) lines start_line [];
  Some (mkDocument title sections).

(** A line the main loop turns into a section: it starts with ["="] and
    its level is at least 2. *)
Definition is_section_heading (line : string) : bool :=
  startswith "=" line && (2 <=? line_level line)%nat.

End Parser.

(** ** Section organiser (nkbip_converter.py) *)

Module Organizer.
Import PyStr Parser.

(** A child of a group: the dict [{"title", "content"}]. *)
Record ContentSection := mkContent {
  s_title : string;
  s_content : string
}.

(** A top-level group: [{"title", "content", "is_root", "l2_sections"}]. *)
Record SectionGroup := mkGroup {
  g_title : string;
  g_content : string;
  g_is_root : bool;
  g_l2_sections : list ContentSection
}.

(** Folding a deeper heading into the current level-2 section:
    [heading = "=" * level + " " + title] and
    [content += f"\n\n{heading}\n{section['content']}"]. *)
Definition fold_heading (cur : ContentSection) (section : HeadingNode)
    : ContentSection :=
  let heading :=
    repeat_str "=" (Z.to_nat (h_level section)) +:+ " " +:+ h_title section in
  mkContent (s_title cur)
    (s_content cur +:+ nl +:+ nl +:+ heading +:+ nl +:+ h_content section).

(** [l.append(x)] guarded by [if x:] for an optional dict. *)
Definition append_if {A} (l : list A) (x : option A) : list A :=
  match x with
  | Some a => l ++ [a]
  | None => l
  end.

(** The loop of [_group_l2_sections]. *)
Fixpoint group_l2_loop (sections : list HeadingNode)
    (l2_sections : list ContentSection)
    (current_section : option ContentSection)
    : list ContentSection * option ContentSection :=
  match sections with
  | [] => (l2_sections, current_section)
  | section :: rest =>
      if (h_level section =? 2)%Z then
        group_l2_loop rest (append_if l2_sections current_section)
          (Some (mkContent (h_title section) (h_content section)))
      else
        match current_section with
        | Some cur =>
            if (h_level section >? 2)%Z
            then group_l2_loop rest l2_sections
                   (Some (fold_heading cur section))
            else group_l2_loop rest l2_sections current_section
        | None => group_l2_loop rest l2_sections current_section
        end
  end.

Definition _group_l2_sections (sections : list HeadingNode)
    : list ContentSection :=
  let '(l2_sections, current_section) := group_l2_loop sections [] None in
  append_if l2_sections current_section.

(** The local variables of the main loop of [organize_sections]. *)
Record OrgState := mkOrg {
  organized : list SectionGroup;
  current_l1 : option SectionGroup;
  current_l2 : option ContentSection;
  first_l1 : bool
}.

(** [current_l1["l2_sections"].append(current_l2)] under [if current_l2:]. *)
Definition close_l2 (g : SectionGroup) (cur : option ContentSection)
    : SectionGroup :=
  mkGroup (g_title g) (g_content g) (g_is_root g)
    (append_if (g_l2_sections g) cur).

(** One round of the [for section in sections] loop. *)
Definition organize_step (st : OrgState) (section : HeadingNode)
    : OrgState :=
  if (h_level section =? 1)%Z then
    let organized' :=
      match current_l1 st with
      | Some g => organized st ++ [close_l2 g (current_l2 st)]
      | None => organized st
      end in
    mkOrg organized'
      (Some (mkGroup (h_title section) (h_content section) (first_l1 st) []))
      None false
  else
    match current_l1 st with
    | Some g =>
        if (h_level section =? 2)%Z then
          mkOrg (organized st) (Some (close_l2 g (current_l2 st)))
            (Some (mkContent (h_title section) (h_content section)))
            (first_l1 st)
        else
          match current_l2 st with
          | Some cur =>
              if (h_level section >? 2)%Z
              then mkOrg (organized st) (current_l1 st)
                     (Some (fold_heading cur section)) (first_l1 st)
              else st
          | None => st
          end
    | None =>
        match current_l2 st with
        | Some cur =>
            if (h_level section >? 2)%Z
            then mkOrg (organized st) (current_l1 st)
                   (Some (fold_heading cur section)) (first_l1 st)
            else st
        | None => st
        end
    end.

Definition organize_loop (sections : list HeadingNode) (st : OrgState)
    : OrgState :=
  fold_left organize_step sections st.

(** [any(s["level"] == 1 for s in sections)] *)
Definition has_l1_sections (sections : list HeadingNode) : bool :=
  existsb (fun s => (h_level s =? 1)%Z) sections.

Definition organize_sections (doc_title : string)
    (sections : list HeadingNode) : list SectionGroup :=
  if negb (has_l1_sections sections) then
    [mkGroup doc_title "" true (_group_l2_sections sections)]
  else
    let st := organize_loop sections (mkOrg [] None None true) in
    match current_l1 st with
    | Some g => organized st ++ [close_l2 g (current_l2 st)]
    | None => organized st
    end.

End Organizer.

(** ** Python values: exceptions, fallible results, the store of lists *)

(** A tag is the Python list [[name, value, ...]]. *)
Abbreviation tag := (list string).

Module Py.

Inductive exn :=
| IndexError
| KeyError
| StopIteration
| StaleReference.

(** The outcome of an expression that may raise. *)
Inductive result (A : Type) : Type :=
| Ok (a : A)
| Raise (e : exn).
Arguments Ok {A} a.
Arguments Raise {A} e.

#[global] Instance result_ret : MRet result := fun A a => Ok a.
#[global] Instance result_bind : MBind result := fun A B f m =>
  match m with
  | Ok a => f a
  | Raise e => Raise e
  end.

Definition returns {A} (m : result A) : Prop := exists a, m = Ok a.

(** [l[0]] and [l[1]] *)
Definition item0 {A} (l : list A) : result A :=
  match l with
  | x :: _ => Ok x
  | [] => Raise IndexError
  end.

Definition item1 {A} (l : list A) : result A :=
  match l with
  | _ :: x :: _ => Ok x
  | _ => Raise IndexError
  end.

(** [for x in xs: ...] where the body may raise. *)
Fixpoint for_each {A B} (f : A -> result B) (xs : list A)
    : result (list B) :=
  match xs with
  | [] => Ok []
  | x :: rest =>
      y ← f x;
      ys ← for_each f rest;
      Ok (y :: ys)
  end.

(** [key in d] for a key whose entry is [o]. *)
Definition present {A} (o : option A) : bool :=
  match o with
  | Some _ => true
  | None => false
  end.

(** Truth value of an optional string: [None] and [""] are false. *)
Definition truthy (o : option string) : bool :=
  match o with
  | Some s => negb (String.eqb s "")
  | None => false
  end.

(** The store: the list-of-tags objects, by reference. *)
Abbreviation loc := positive.
Abbreviation store := (gmap positive (list tag)).

(** A computation that reads and updates the store and may raise; what
    was written before an exception stays written. *)
Definition St (A : Type) : Type := store -> result A * store.

#[global] Instance St_ret : MRet St := fun A a h => (Ok a, h).
#[global] Instance St_bind : MBind St := fun A B f m h =>
  match m h with
  | (Ok a, h') => f a h'
  | (Raise e, h') => (Raise e, h')
  end.

Definition lift {A} (m : result A) : St A := fun h => (m, h).

(** The current contents of the list object [r]. *)
Definition load (r : loc) : St (list tag) := fun h =>
  match h !! r with
  | Some l => (Ok l, h)
  | None => (Raise StaleReference, h)
  end.

(** [r.append(t)] *)
Definition append (r : loc) (t : tag) : St unit := fun h =>
  match h !! r with
  | Some l => (Ok tt, <[r := l ++ [t]]> h)
  | None => (Raise StaleReference, h)
  end.

(** [r.insert(i, t)] for [i >= 0]: before position [i], at the end when
    [i] is past it. *)
Definition insert_at (r : loc) (i : nat) (t : tag) : St unit := fun h =>
  match h !! r with
  | Some l => (Ok tt, <[r := take i l ++ t :: drop i l]> h)
  | None => (Raise StaleReference, h)
  end.

(** [r[i] = t] *)
Definition setitem (r : loc) (i : nat) (t : tag) : St unit := fun h =>
  match h !! r with
  | Some l =>
      if (i <? length l)%nat then (Ok tt, <[r := <[i := t]> l]> h)
      else (Raise IndexError, h)
  | None => (Raise StaleReference, h)
  end.

End Py.

(** ** Tag builder and validator (modules/nkbip01_tags.py, tag_utils.py) *)

Module Tags.
Import Py.

(** [MIME_TYPES] and [NOSTR_CATEGORIES] *)
Definition MIME_TYPES : gmap string string :=
  <["index" := "application/json"]>
  (<["asciidoc" := "text/asciidoc"]>
  (<["markdown" := "text/markdown"]>
  (<["plain" := "text/plain"]>
  (<["html" := "text/html"]> ∅)))).

Definition NOSTR_CATEGORIES : gmap string string :=
  <["index" := "meta-data/index/replaceable"]>
  (<["content" := "article/publication-content/replaceable"]>
  (<["external" := "external-content/index/replaceable"]> ∅)).

(** The metadata dict as [create_index_tags] reads it: each key it looks up
    is present or not; the string-valued keys hold a string, ["tags"] and
    ["additional_authors"] a list of strings.  [md_other_keys] are the keys
    the builder never reads; they only count for the truth value of the
    dict. *)
Record Metadata := mkMetadata {
  md_summary : option string;
  md_image : option string;
  md_published_on : option string;
  md_published_by : option string;
  md_source : option string;
  md_doi : option string;
  md_isbn : option string;
  md_tags : option (list string);
  md_additional_authors : option (list string);
  md_other_keys : list string
}.

(** [if metadata:] a dict is true when it has a key. *)
Definition dict_nonempty (m : Metadata) : bool :=
  present (md_summary m) || present (md_image m)
  || present (md_published_on m) || present (md_published_by m)
  || present (md_source m) || present (md_doi m) || present (md_isbn m)
  || present (md_tags m) || present (md_additional_authors m)
  || negb (bool_decide (md_other_keys m = [])).

(** [if key in metadata: tags.append([name, metadata[key]])] *)
Definition opt_tag (name : string) (v : option string) : list tag :=
  match v with
  | Some s => [[name; s]]
  | None => []
  end.

(** [if key in metadata: for x in metadata[key]: tags.append([name, x])] *)
Definition opt_tags (name : string) (v : option (list string)) : list tag :=
  match v with
  | Some l => map (fun x => [name; x]) l
  | None => []
  end.

(** The identifier tags: doi with its kind marker, isbn with a kind marker
    only when there is no doi. *)
Definition identifier_tags (m : Metadata) : list tag :=
  match md_doi m with
  | Some d => [["i"; "doi:" +:+ d]; ["k"; "doi"]]
  | None => []
  end ++
  match md_isbn m with
  | Some i =>
      ["i"; "isbn:" +:+ i]
        :: (if present (md_doi m) then [] else [["k"; "isbn"]])
  | None => []
  end.

Definition metadata_tags (m : Metadata) : list tag :=
  opt_tag "summary" (md_summary m) ++ opt_tag "image" (md_image m)
  ++ opt_tag "published_on" (md_published_on m)
  ++ opt_tag "published_by" (md_published_by m)
  ++ opt_tag "source" (md_source m)
  ++ identifier_tags m
  ++ opt_tags "t" (md_tags m)
  ++ opt_tags "author" (md_additional_authors m).

(** The nine tags every index starts with. *)
Definition index_head (title d_tag publication_type auto_update language
    version : string) (external : bool) : list tag :=
  [ ["d"; d_tag];
    ["title"; title];
    ["auto-update"; auto_update];
    ["type"; publication_type];
    ["m"; MIME_TYPES !!! "index"];
    ["M"; NOSTR_CATEGORIES !!! (if external then "external" else "index")];
    ["l"; language +:+ ", ISO-639-1"];
    ["reading-direction"; "left-to-right, top-to-bottom"];
    ["version"; version] ].

(** What [create_index_tags] appends after them. *)
Definition index_optional (author : option string) (external : bool)
    (metadata : option Metadata) : list tag :=
  (if truthy author then [["author"; default "" author]] else [])
  ++ (if external then [["external"; "true"]] else [])
  ++ match metadata with
     | Some m => if dict_nonempty m then metadata_tags m else []
     | None => []
     end.

(** [NKBIP01Tags.create_index_tags] *)
Definition create_index_tags (title d_tag : string) (author : option string)
    (publication_type auto_update language version : string)
    (external : bool) (metadata : option Metadata) : list tag :=
  index_head title d_tag publication_type auto_update language version
    external
  ++ index_optional author external metadata.

(** A wikilink is a dict from strings to strings. *)
Definition wikilink_tag (link : gmap string string) : result tag :=
  match link !! "term" with
  | Some term =>
      Ok ["wikilink"; term; default "" (link !! "pubkey");
          default "" (link !! "relay"); default "" (link !! "event_id")]
  | None => Raise KeyError
  end.

(** [NKBIP01Tags.create_content_tags] *)
Definition create_content_tags (title d_tag content_type language : string)
    (wikilinks : option (list (gmap string string))) : result (list tag) :=
  let tags :=
    [ ["d"; d_tag];
      ["title"; title];
      ["m"; default (MIME_TYPES !!! "plain") (MIME_TYPES !! content_type)];
      ["M"; NOSTR_CATEGORIES !!! "content"];
      ["l"; language +:+ ", ISO-639-1"] ] in
  match wikilinks with
  | Some (link :: links) =>
      wl ← for_each wikilink_tag (link :: links);
      Ok (tags ++ wl)
  | _ => Ok tags
  end.

(** [tag[0] == name] *)
Definition named (name : string) (t : tag) : result bool :=
  n ← item0 t; Ok (String.eqb n name).

(** The scan of [add_derivative_work_tags] for the auto-update tag: the
    position right after the first one. *)
Fixpoint find_insert_index (tags : list tag) (i : nat)
    : result (option nat) :=
  match tags with
  | [] => Ok None
  | t :: rest =>
      b ← named "auto-update" t;
      if b : bool then Ok (Some (S i)) else find_insert_index rest (S i)
  end.

(** [NKBIP01Tags.add_derivative_work_tags]: [tags] is the list object the
    caller passes; the same object is returned. *)
Definition add_derivative_work_tags (tags : loc)
    (original_author_pubkey original_event_id : string)
    (relay_url : option string) : St loc :=
  l ← load tags;
  found ← lift (find_insert_index l 0);
  let insert_index := default (length l) found in
  let p_tag := ["p"; original_author_pubkey] in
  let e_tag :=
    ["E"; original_event_id]
    ++ (if truthy relay_url
        then [default "" relay_url; original_author_pubkey] else []) in
  _ ← insert_at tags insert_index p_tag;
  _ ← insert_at tags (insert_index + 1) e_tag;
  mret tags.

(** [{tag[0]: tag[1:] for tag in tags}]: a later tag replaces an earlier one
    of the same name. *)
Fixpoint tag_dict_from (tags : list tag) (d : gmap string (list string))
    : result (gmap string (list string)) :=
  match tags with
  | [] => Ok d
  | t :: rest =>
      match t with
      | [] => Raise IndexError
      | name :: values => tag_dict_from rest (<[name := values]> d)
      end
  end.

Definition tag_dict (tags : list tag) : result (gmap string (list string)) :=
  tag_dict_from tags ∅.

(** [for req in required: if req not in tag_dict: errors.append(...)] *)
Fixpoint check_required (required : list string)
    (d : gmap string (list string)) (errors : list string) : list string :=
  match required with
  | [] => errors
  | req :: rest =>
      check_required rest d
        (if present (d !! req) then errors
         else errors ++ ["Missing required tag: " +:+ req])
  end.

(** [if key in tag_dict: if not ok(tag_dict[key][0]): errors.append(msg)] *)
Definition check_value (d : gmap string (list string)) (key : string)
    (ok : string -> bool) (msg : string) (errors : list string)
    : result (list string) :=
  match d !! key with
  | Some values =>
      v ← item0 values;
      Ok (if ok v then errors else errors ++ [msg])
  | None => Ok errors
  end.

(** [any(tag[0] == name for tag in tags)] *)
Fixpoint any_named (name : string) (tags : list tag) : result bool :=
  match tags with
  | [] => Ok false
  | t :: rest =>
      b ← named name t;
      if b : bool then Ok true else any_named name rest
  end.

(** The p/E loop of [validate_index_tags]. *)
Fixpoint check_p_e (tags : list tag) (i : nat) (p_index : option nat)
    (errors : list string) : result (list string) :=
  match tags with
  | [] => Ok errors
  | t :: rest =>
      n ← item0 t;
      if String.eqb n "p" then check_p_e rest (S i) (Some i) errors
      else
        match p_index with
        | Some p =>
            if String.eqb n "E" && negb (i =? p + 1)%nat
            then check_p_e rest (S i) p_index
                   (errors ++ ["E tag must immediately follow p tag"])
            else check_p_e rest (S i) p_index errors
        | None => check_p_e rest (S i) p_index errors
        end
  end.

Definition is_auto_update (v : string) : bool :=
  existsb (String.eqb v) ["yes"; "ask"; "no"].

(** [NKBIP01Tags.validate_index_tags] *)
Definition validate_index_tags (tags : list tag)
    : result (bool * list string) :=
  d ← tag_dict tags;
  let errors :=
    check_required ["d"; "title"; "auto-update"; "m"; "M"] d [] in
  errors ← check_value d "auto-update" is_auto_update
             "auto-update must be 'yes', 'ask', or 'no'" errors;
  errors ← check_value d "m" (String.eqb "application/json")
             "Index events must have MIME type 'application/json'" errors;
  has_references ← any_named "a" tags;
  let errors :=
    if has_references : bool then errors
    else errors ++ ["Index must include at least one 'a' tag reference"] in
  errors ← check_p_e tags 0 None errors;
  Ok ((length errors =? 0)%nat, errors).

(** [NKBIP01Tags.validate_content_tags] *)
Definition validate_content_tags (tags : list tag)
    : result (bool * list string) :=
  d ← tag_dict tags;
  let errors := check_required ["d"; "title"] d [] in
  Ok ((length errors =? 0)%nat, errors).

(** [tags.append(t)] under [if key not in tag_dict:] *)
Definition append_missing (tags : loc) (d : gmap string (list string))
    (key : string) (t : tag) : St unit :=
  if present (d !! key) then mret tt else append tags t.

(** The scan for the first tag named ["l"]. *)
Fixpoint find_named (name : string) (tags : list tag) (i : nat)
    : result (option nat) :=
  match tags with
  | [] => Ok None
  | t :: rest =>
      b ← named name t;
      if b : bool then Ok (Some i) else find_named name rest (S i)
  end.

(** ["external" in tag_dict and tag_dict["external"][0] == "true"] *)
Definition is_external (d : gmap string (list string)) : result bool :=
  match d !! "external" with
  | Some values => v ← item0 values; Ok (String.eqb v "true")
  | None => Ok false
  end.

(** The language step of [upgrade_legacy_tags]. *)
Definition fix_language (tags : loc) (d : gmap string (list string))
    : St unit :=
  match d !! "l" with
  | Some values =>
      lang_value ← lift (item0 values);
      if PyStr.contains "ISO-639-1" lang_value then mret tt
      else
        l ← load tags;
        found ← lift (find_named "l" l 0);
        match found with
        | Some i => setitem tags i ["l"; lang_value +:+ ", ISO-639-1"]
        | None => mret tt
        end
  | None => append tags ["l"; "en, ISO-639-1"]
  end.

(** [upgrade_legacy_tags]: [tags] is the list object the caller passes; the
    same object is returned. *)
Definition upgrade_legacy_tags (tags : loc) (event_kind : Z) : St loc :=
  l ← load tags;
  d ← lift (tag_dict l);
  _ ← append_missing tags d "m"
        ["m"; if (event_kind =? 30040)%Z then MIME_TYPES !!! "index"
              else MIME_TYPES !!! "asciidoc"];
  _ ← (if present (d !! "M") then mret tt
       else if (event_kind =? 30040)%Z then
         ext ← lift (is_external d);
         append tags
           ["M"; NOSTR_CATEGORIES !!! (if ext : bool then "external"
                                       else "index")]
       else append tags ["M"; NOSTR_CATEGORIES !!! "content"]);
  _ ← fix_language tags d;
  _ ← (if (event_kind =? 30040)%Z
       then append_missing tags d "reading-direction"
              ["reading-direction"; "left-to-right, top-to-bottom"]
       else mret tt);
  _ ← append_missing tags d "version" ["version"; "1"];
  mret tags.

(** The signed record the signing collaborator returns, as far as the
    reference builder reads it. *)
Record Event := mkEvent {
  ev_kind : Z;
  ev_pubkey : string;
  ev_id : string
}.

(** [create_reference_tag] *)
Definition create_reference_tag (kind : Z) (pubkey d_tag event_id
    relay_hint : string) : tag :=
  let ref := pretty kind +:+ ":" +:+ pubkey +:+ ":" +:+ d_tag in
  ["a"; ref; relay_hint; event_id].

(** [add_reference_to_index]: [index_tags] is the list object the caller
    passes; the same object is returned. *)
Definition add_reference_to_index (index_tags : loc) (section_event : Event)
    (d_tag relay : string) : St loc :=
  let ref_tag :=
    create_reference_tag (ev_kind section_event) (ev_pubkey section_event)
      d_tag (ev_id section_event) relay in
  _ ← append index_tags ref_tag;
  mret index_tags.

(** [create_section_tags] *)
Definition create_section_tags (doc_title section_title : string)
    (doc_author : option string) (namespace : bool) : result (list tag) :=
  let d_tag :=
    if namespace
    then Slug.clean_tag doc_title +:+ "-" +:+ Slug.clean_tag section_title
    else Slug.clean_tag section_title in
  create_content_tags section_title d_tag "asciidoc" "en" None.

(** [next(tag[1] for tag in tags if tag[0] == "d")] *)
Fixpoint first_d_tag (tags : list tag) : result string :=
  match tags with
  | [] => Raise StopIteration
  | t :: rest =>
      b ← named "d" t;
      if b : bool then item1 t else first_d_tag rest
  end.

Section ContentEvent.

(** The two scanners of section bodies [create_content_event] calls; the
    identifier of the unit does not depend on what they find. *)
Variable extract_images : string -> list string.
Variable extract_wiki_links : string -> list string.

(** The tags [create_content_event] hands to the signing collaborator. *)
Definition content_event_tags (content title parent_title : string)
    (author : option string) : result (list tag) :=
  tags ← create_section_tags parent_title title None true;
  let tags := tags ++ map (fun image => ["image"; image])
                        (extract_images content) in
  let tags := tags ++ map (fun wiki_term => ["w"; wiki_term])
                        (extract_wiki_links content) in
  let tags := tags ++ [["m"; "text/asciidoc"]] in
  Ok (if truthy author then tags ++ [["author"; default "" author]]
      else tags).

(** The identifier of the content unit [main] creates for the child
    [l2_section] of the group [l1_section]: the first d tag of the event. *)
Definition content_unit_identifier (l1_section : Organizer.SectionGroup)
    (l2_section : Organizer.ContentSection) (author : option string)
    : result string :=
  tags ← content_event_tags (Organizer.s_content l2_section)
            (Organizer.s_title l2_section) (Organizer.g_title l1_section)
            author;
  first_d_tag tags.

End ContentEvent.

End Tags.

(** ** Notions the statements below use *)

Module Spec.
Import Parser Organizer.

Definition is_l1 (s : HeadingNode) : bool := (h_level s =? 1)%Z.
Definition is_l2 (s : HeadingNode) : bool := (h_level s =? 2)%Z.

(** The level-1 and the level-2 headings of a flat heading sequence, in
    document order. *)
Definition l1_headings (sections : list HeadingNode) : list HeadingNode :=
  List.filter is_l1 sections.
Definition l2_headings (sections : list HeadingNode) : list HeadingNode :=
  List.filter is_l2 sections.

(** What [organize_sections] returns from a loop state: the groups closed
    so far, then the open one. *)
Definition flush (st : OrgState) : list SectionGroup :=
  match current_l1 st with
  | Some g => organized st ++ [close_l2 g (current_l2 st)]
  | None => organized st
  end.

(** The root flags of the groups still to come: the first takes the flag
    [first], the others are not roots. *)
Definition root_flags (first : bool) (n : nat) : list bool :=
  match n with
  | O => []
  | S k => first :: repeat false k
  end.

(** The tag has a name and it is one of [names]. *)
Definition tag_name_in (names : list string) (t : tag) : bool :=
  match t with
  | name :: _ => existsb (String.eqb name) names
  | [] => false
  end.

(** The values of the last tag named [key], [acc] when there is none: what
    the tag dict holds at [key]. *)
Fixpoint values_of (key : string) (tags : list tag)
    (acc : option (list string)) : option (list string) :=
  match tags with
  | [] => acc
  | t :: rest =>
      values_of key rest
        match t with
        | name :: values => if String.eqb name key then Some values else acc
        | [] => acc
        end
  end.

(** [m] reads and writes no list object but [r], creates none, and what it
    returns satisfies [post]: started with any contents of [r], it ends with
    the store changed at [r] at most. *)
Definition in_place {A} (r : Py.loc) (h : Py.store) (post : A -> Prop)
    (m : Py.St A) : Prop :=
  forall l, exists res l',
    m (<[r := l]> h) = (res, <[r := l']> h)
    /\ forall a, res = Py.Ok a -> post a.

(** The tag is not an auto-update tag. *)
Definition not_auto_update (t : tag) : Prop := head t <> Some "auto-update".

(** The E tag [add_derivative_work_tags] inserts. *)
Definition e_tag (pubkey event_id : string) (relay_url : option string) : tag :=
  ["E"; event_id]
  ++ (if Py.truthy relay_url then [default "" relay_url; pubkey] else []).

(** The names of the tags [create_index_tags] may append after the first
    nine. *)
Definition optional_names : list string :=
  ["author"; "external"; "summary"; "image"; "published_on"; "published_by";
   "source"; "i"; "k"; "t"].

End Spec.

(** ** Further notions: the shape of slugs, orphaned headings *)

Module Shape.
Import Parser Organizer Spec.

(** A character of a finished slug: a hyphen or a word character that
    [lower] leaves alone. *)
Definition slug_char (c : ascii) : Prop :=
  (Slug.is_word c = true \/ c = "-"%char) /\ Slug.lower_char c = c.

(** The headings from the first level-1 heading on; everything before it
    has no group to go to. *)
Fixpoint from_first_l1 (sections : list HeadingNode) : list HeadingNode :=
  match sections with
  | [] => []
  | s :: rest => if is_l1 s then sections else from_first_l1 rest
  end.

(** The level-2 headings that find a group: all of them once a group is
    [open], those after the next level-1 heading otherwise. *)
Fixpoint adopted (open : bool) (sections : list HeadingNode)
    : list HeadingNode :=
  match sections with
  | [] => []
  | s :: rest =>
      if is_l1 s then adopted true rest
      else if is_l2 s && open then s :: adopted open rest
      else adopted open rest
  end.

(** The titles of all children, group after group. *)
Definition child_titles (groups : list SectionGroup) : list string :=
  concat (map (fun g => map s_title (g_l2_sections g)) groups).

End Shape.

(** ** Further notions: what a heading line says *)

Module Headings.
Import PyStr Parser.

(** The title and the level [parse_adoc_section] reads off a heading
    line. *)
Definition heading_title (line : string) : string :=
  let heading := strip line in
  if has_blank heading then strip (after_blank heading) else "".

Definition heading_level (line : string) : Z :=
  Z.of_nat (String.length (before_blank (strip line))).

(** The lines up to the next line that starts with ["="]. *)
Fixpoint body (rest : list string) : list string :=
  match rest with
  | [] => []
  | line :: rest' => if startswith "=" line then [] else line :: body rest'
  end.

(** One section for every section heading, with the lines under it. *)
Fixpoint sections_of (lines : list string) : list HeadingNode :=
  match lines with
  | [] => []
  | line :: rest =>
      if is_section_heading line
      then mkHeading (heading_title line) (heading_level line)
             (strip (join nl (body rest))) :: sections_of rest
      else sections_of rest
  end.

End Headings.

(** ** Further notions: tags by name *)

Module TagSpec.

(** Some tag of the list is named [name]. *)
Definition has_tag (name : string) (tags : list tag) : Prop :=
  Exists (fun t => head t = Some name) tags.

(** The five tags [validate_index_tags] requires. *)
Definition index_required : list string :=
  ["d"; "title"; "auto-update"; "m"; "M"].

End TagSpec.

(** ** Further notions: the contents [upgrade_legacy_tags] leaves *)

Module Upgrade.
Import Py Tags.

(** The computation [s] on the list object [r] does to its contents what
    [f] says: it returns [a] and leaves [f l] there when [f l] is a list,
    and raises what [f l] raises, with no list but [r] touched. *)
Definition tracks {A} (r : loc) (s : St A) (a : A)
    (f : list tag -> result (list tag)) : Prop :=
  forall (h : store) l, h !! r = Some l ->
    match f l with
    | Ok l' => s h = (Ok a, <[r := l']> h)
    | Raise e => exists l', s h = (Raise e, <[r := l']> h)
    end.

(** The steps of [upgrade_legacy_tags], on the contents of the list. *)
Definition add_missing (d : gmap string (list string)) (key : string)
    (t : tag) (l : list tag) : result (list tag) :=
  Ok (if present (d !! key) then l else l ++ [t]).

Definition add_m (d : gmap string (list string)) (event_kind : Z)
    (l : list tag) : result (list tag) :=
  add_missing d "m"
    ["m"; if (event_kind =? 30040)%Z then MIME_TYPES !!! "index"
          else MIME_TYPES !!! "asciidoc"] l.

Definition add_M (d : gmap string (list string)) (event_kind : Z)
    (l : list tag) : result (list tag) :=
  if present (d !! "M") then Ok l
  else if (event_kind =? 30040)%Z then
    ext ← is_external d;
    Ok (l ++ [["M"; NOSTR_CATEGORIES !!! (if ext : bool then "external"
                                          else "index")]])
  else Ok (l ++ [["M"; NOSTR_CATEGORIES !!! "content"]]).

Definition fix_language_of (d : gmap string (list string)) (l : list tag)
    : result (list tag) :=
  match d !! "l" with
  | Some values =>
      lang_value ← item0 values;
      if PyStr.contains "ISO-639-1" lang_value then Ok l
      else
        found ← find_named "l" l 0;
        match found with
        | Some i =>
            if (i <? length l)%nat
            then Ok (<[i := ["l"; lang_value +:+ ", ISO-639-1"]]> l)
            else Raise IndexError
        | None => Ok l
        end
  | None => Ok (l ++ [["l"; "en, ISO-639-1"]])
  end.

Definition add_reading_direction (d : gmap string (list string))
    (event_kind : Z) (l : list tag) : result (list tag) :=
  if (event_kind =? 30040)%Z
  then add_missing d "reading-direction"
         ["reading-direction"; "left-to-right, top-to-bottom"] l
  else Ok l.

(** The contents of the list after [upgrade_legacy_tags] has returned. *)
Definition upgraded (tags : list tag) (event_kind : Z) : result (list tag) :=
  d ← tag_dict tags;
  l1 ← add_m d event_kind tags;
  l2 ← add_M d event_kind l1;
  l3 ← fix_language_of d l2;
  l4 ← add_reading_direction d event_kind l3;
  add_missing d "version" ["version"; "1"] l4.

(** What one step may do to the list: nothing, append a tag with one
    value, or put a new l tag in the place of an l tag. *)
Inductive step_shape (l l' : list tag) : Prop :=
| step_same : l' = l -> step_shape l l'
| step_append (key value : string) :
    l' = l ++ [[key; value]] -> step_shape l l'
| step_rewrite (pre : list tag) (t : tag) (suf : list tag) (value : string) :
    l = pre ++ t :: suf -> head t = Some "l" ->
    l' = pre ++ ["l"; value] :: suf -> step_shape l l'.

End Upgrade.

(** ** The legacy builders of modules/tag_utils.py *)

Module Legacy.
Import Py Tags.

(** [create_section_tags_legacy] *)
Definition create_section_tags_legacy (doc_title section_title : string)
    (doc_author : option string) (namespace : bool) : list tag :=
  let d_tag :=
    if namespace
    then Slug.clean_tag doc_title +:+ "-" +:+ Slug.clean_tag section_title
    else Slug.clean_tag section_title in
  [["d"; d_tag]; ["title"; section_title]].

(** [create_index_tags_legacy] *)
Definition create_index_tags_legacy (doc_title auto_update : string)
    (doc_author : option string) : list tag :=
  if truthy doc_author then
    [ ["d"; Slug.clean_tag doc_title];
      ["title"; doc_title];
      ["auto-update"; auto_update];
      ["author"; default "" doc_author];
      ["type"; "book"] ]
  else
    [ ["d"; Slug.clean_tag doc_title];
      ["title"; doc_title];
      ["auto-update"; auto_update] ].

End Legacy.

(** ** The index event of nkbip_converter.py *)

Module Converter.
Import Py Tags.

(** The metadata dict as [create_index_event] reads it: each key it looks
    up is present or not.  [dm_other_keys] are the keys it never reads (the
    title among them); they only count for the truth value of the dict. *)
Record DocMetadata := mkDocMetadata {
  dm_image : option string;
  dm_summary : option string;
  dm_published_on : option string;
  dm_published : option string;
  dm_published_by : option string;
  dm_publisher : option string;
  dm_source : option string;
  dm_doi : option string;
  dm_isbn : option string;
  dm_issn : option string;
  dm_tags : option (list string);
  dm_additional_authors : option (list string);
  dm_version : option string;
  dm_type : option string;
  dm_language : option string;
  dm_author : option string;
  dm_other_keys : list string
}.

(** [s.lower()] on a string. *)
Definition str_lower (s : string) : string :=
  string_of_list_ascii (Slug.lower (list_ascii_of_string s)).

(** [if metadata:] neither [None] nor the empty dict. *)
Definition metadata_true (metadata : option DocMetadata) : bool :=
  match metadata with
  | Some m =>
      present (dm_image m) || present (dm_summary m)
      || present (dm_published_on m) || present (dm_published m)
      || present (dm_published_by m) || present (dm_publisher m)
      || present (dm_source m) || present (dm_doi m) || present (dm_isbn m)
      || present (dm_issn m) || present (dm_tags m)
      || present (dm_additional_authors m) || present (dm_version m)
      || present (dm_type m) || present (dm_language m)
      || present (dm_author m)
      || negb (bool_decide (dm_other_keys m = []))
  | None => false
  end.

(** [if a in metadata: ... elif b in metadata: ...] *)
Definition or_else {A} (a b : option A) : option A :=
  match a with
  | Some _ => a
  | None => b
  end.

(** The dict [index_metadata] that [create_index_event] hands to the
    builder; the issn is copied but the builder never reads it. *)
Definition index_metadata (metadata : option DocMetadata) : Metadata :=
  match metadata with
  | Some m =>
      if metadata_true metadata then
        mkMetadata (dm_summary m) (dm_image m)
          (or_else (dm_published_on m) (dm_published m))
          (or_else (dm_published_by m) (dm_publisher m))
          (dm_source m) (dm_doi m) (dm_isbn m) (dm_tags m)
          (dm_additional_authors m)
          (if present (dm_issn m) then ["issn"] else [])
      else mkMetadata None None None None None None None None None []
  | None => mkMetadata None None None None None None None None None []
  end.

(** The version and the publication type of the index. *)
Definition index_version (metadata : option DocMetadata) : string :=
  match metadata with
  | Some m => if metadata_true metadata then default "1" (dm_version m)
              else "1"
  | None => "1"
  end.

Definition index_pub_type (metadata : option DocMetadata) : string :=
  match metadata with
  | Some m => if metadata_true metadata then default "book" (dm_type m)
              else "book"
  | None => "book"
  end.

(** The code points 241 and 231 of the two language names that are not
    ASCII. *)
Definition espanol : string := "espa" +:+ String (ascii_of_N 241) "ol".
Definition francais : string := "fran" +:+ String (ascii_of_N 231) "ais".

(** The language code: English unless the metadata names a language. *)
Definition index_language (metadata : option DocMetadata) : string :=
  match metadata with
  | Some m =>
      match dm_language m with
      | Some language =>
          if metadata_true metadata then
            let lang_value := str_lower language in
            if existsb (String.eqb lang_value) ["english"; "en"] then "en"
            else if existsb (String.eqb lang_value)
                      ["spanish"; "es"; espanol] then "es"
            else if existsb (String.eqb lang_value)
                      ["french"; "fr"; francais] then "fr"
            else String.substring 0 2 lang_value
          else "en"
      | None => "en"
      end
  | None => "en"
  end.

(** [author or (metadata.get("author") if metadata else None)] *)
Definition index_author (author : option string)
    (metadata : option DocMetadata) : option string :=
  if truthy author then author
  else match metadata with
       | Some m => if metadata_true metadata then dm_author m else None
       | None => None
       end.

(** An entry of [section_events]: the signed event and its d tag. *)
Record SectionRef := mkSectionRef {
  sr_event : Event;
  sr_d_tag : string
}.

(** A new list object with the contents [l]. *)
Definition alloc (l : list tag) : St loc := fun h =>
  let r := fresh (dom h) in (Ok r, <[r := l]> h).

(** [for section in section_events:
       index_tags = add_reference_to_index(index_tags, ...)] *)
Fixpoint add_references (index_tags : loc) (section_events : list SectionRef)
    (primary_relay : string) : St loc :=
  match section_events with
  | [] => mret index_tags
  | section :: rest =>
      index_tags ← add_reference_to_index index_tags (sr_event section)
                     (sr_d_tag section) primary_relay;
      add_references index_tags rest primary_relay
  end.

(** The tags [create_index_event] hands to the signing collaborator: the
    list object it builds, and what it holds in the end. *)
Definition index_event_tags (title : string)
    (section_events : list SectionRef) (primary_relay : string)
    (metadata : option DocMetadata) (author author_pubkey : option string)
    : St loc :=
  index_tags ← alloc (create_index_tags title (Slug.clean_tag title)
                        (index_author author metadata)
                        (index_pub_type metadata) "yes"
                        (index_language metadata) (index_version metadata)
                        false (Some (index_metadata metadata)));
  _ ← (if truthy author_pubkey then
         l ← load index_tags;
         found ← lift (find_insert_index l 0);
         match found with
         | Some i => insert_at index_tags i ["p"; default "" author_pubkey]
         | None => mret tt
         end
       else mret tt);
  add_references index_tags section_events primary_relay.

(** The reference tag of an entry of [section_events]. *)
Definition reference_of (relay : string) (section : SectionRef) : tag :=
  create_reference_tag (ev_kind (sr_event section))
    (ev_pubkey (sr_event section)) (sr_d_tag section)
    (ev_id (sr_event section)) relay.

(** The tag list with the p tag of the author right behind its first three
    tags, when there is an author pubkey. *)
Definition with_pubkey (author_pubkey : option string) (tags : list tag)
    : list tag :=
  if truthy author_pubkey
  then take 3 tags ++ ["p"; default "" author_pubkey] :: drop 3 tags
  else tags.

(** An event id that is there. *)
Definition has_id (event_id : string) : bool := negb (String.eqb event_id "").

(** The loop of [extract_metadata] that keeps the first of the topic tags
    that agree up to case. *)
Fixpoint unique_loop (tags : list string) (seen : gset string)
    (unique_tags : list string) : list string :=
  match tags with
  | [] => unique_tags
  | tag :: rest =>
      if bool_decide (str_lower tag ∉ seen)
      then unique_loop rest ({[ str_lower tag ]} ∪ seen)
             (unique_tags ++ [tag])
      else unique_loop rest seen unique_tags
  end.

Definition unique_tags (tags : list string) : list string :=
  unique_loop tags ∅ [].

End Converter.

(** ** Reading an index back: fetch_utils.py *)

Module Fetch.
Import Py Tags.

(** The loop of [extract_section_refs]: the fourth element of every a tag
    that has one, when it is not empty. *)
Fixpoint section_refs_loop (tags : list tag) (section_refs : list string)
    : result (list string) :=
  match tags with
  | [] => Ok section_refs
  | t :: rest =>
      n ← item0 t;
      if String.eqb n "a" && (2 <=? length t)%nat then
        if (4 <=? length t)%nat && truthy (t !! 3%nat)
        then section_refs_loop rest
               (section_refs ++ [default "" (t !! 3%nat)])
        else section_refs_loop rest section_refs
      else section_refs_loop rest section_refs
  end.

(** [extract_section_refs]: [tags] is the entry of the event at ["tags"],
    if it has one. *)
Definition extract_section_refs (tags : option (list tag))
    : result (list string) :=
  section_refs_loop (default [] tags) [].

End Fetch.

(** ** The guard of [main] behind the organiser *)

Module Main.
Import Parser Organizer.

(** How far [main] gets with a parsed document: it exits with status 1
    ("No sections found in document") when the organiser hands back no
    group, and goes on to build the units of the groups otherwise. *)
Inductive Outcome :=
| Exit (status : Z)
| Proceed (organized : list SectionGroup).

Definition organize_or_exit (doc : Document) : Outcome :=
  let organized := organize_sections (doc_title doc) (doc_sections doc) in
  match organized with
  | [] => Exit 1
  | _ :: _ => Proceed organized
  end.

End Main.

(** ** Further notions: the optional tags of an index *)

Module IndexSpec.
Import Py Tags.

(** The metadata keys whose value becomes a tag of the same name. *)
Definition plain_entries (m : Metadata) : list (string * option string) :=
  [ ("summary", md_summary m); ("image", md_image m);
    ("published_on", md_published_on m); ("published_by", md_published_by m);
    ("source", md_source m) ].

(** The optional tags the arguments of [create_index_tags] call for: the
    author, the external flag, and a tag for every key the metadata
    holds. *)
Inductive called_for (author : option string) (external : bool)
    (metadata : option Metadata) : tag -> Prop :=
| for_author :
    truthy author = true ->
    called_for author external metadata ["author"; default "" author]
| for_external :
    external = true ->
    called_for author external metadata ["external"; "true"]
| for_entry m key value :
    metadata = Some m -> In (key, Some value) (plain_entries m) ->
    called_for author external metadata [key; value]
| for_doi m doi :
    metadata = Some m -> md_doi m = Some doi ->
    called_for author external metadata ["i"; "doi:" +:+ doi]
| for_doi_kind m doi :
    metadata = Some m -> md_doi m = Some doi ->
    called_for author external metadata ["k"; "doi"]
| for_isbn m isbn :
    metadata = Some m -> md_isbn m = Some isbn ->
    called_for author external metadata ["i"; "isbn:" +:+ isbn]
| for_isbn_kind m isbn :
    metadata = Some m -> md_isbn m = Some isbn -> md_doi m = None ->
    called_for author external metadata ["k"; "isbn"]
| for_topic m topics topic :
    metadata = Some m -> md_tags m = Some topics -> In topic topics ->
    called_for author external metadata ["t"; topic]
| for_additional_author m authors name :
    metadata = Some m -> md_additional_authors m = Some authors ->
    In name authors ->
    called_for author external metadata ["author"; name].

End IndexSpec.

(** * Properties *)

(** ** Slugs *)

Module SlugFacts.
Import PyStr Slug.

Lemma lower_char_idem c : lower_char (lower_char c) = lower_char c.
Proof. each_char c. Qed.

Lemma is_hyphen_eq c : is_hyphen c = true -> c = "-"%char.
Proof. each_char c. Qed.


(** [lstrip_by] returns a suffix whose first character is not stripped. *)
Lemma lstrip_by_suffix p l : exists pre, l = pre ++ lstrip_by p l.
Proof.
  induction l as [|c l [pre IH]]; simpl.
  - exists []. reflexivity.
  - destruct (p c).
    + exists (c :: pre). simpl. congruence.
    + exists []. reflexivity.
Qed.

Lemma lstrip_by_head p l : head_kept p (lstrip_by p l).
Proof.
  induction l as [|c l IH]; simpl; [exact I|].
  destruct (p c) eqn:E; [exact IH | exact E].
Qed.


Lemma head_kept_app_l p l1 l2 : head_kept p (l1 ++ l2) -> head_kept p l1.
Proof. destruct l1; simpl; auto. Qed.

(** [strip_by] returns a segment of its argument. *)
Lemma strip_by_segment p l :
  exists pre post, l = pre ++ strip_by p l ++ post.
Proof.
  unfold strip_by.
  destruct (lstrip_by_suffix p l) as [pre Hpre].
  destruct (lstrip_by_suffix p (rev (lstrip_by p l))) as [post Hpost].
  exists pre, (rev post).
  rewrite <- rev_app_distr, <- Hpost, rev_involutive. exact Hpre.
Qed.


Lemma normal_from_weaken b l : normal_from b l = true -> normal_from false l = true.
Proof.
  destruct l as [|c l]; simpl; [reflexivity|].
  destruct (is_hyphen c); [|auto].
  destruct b; simpl; [discriminate | auto].
Qed.

Lemma normal_from_app b l1 l2 :
  normal_from b (l1 ++ l2) = true ->
  normal_from b l1 = true /\ normal_from false l2 = true.
Proof.
  revert b. induction l1 as [|c l1 IH]; intros b; simpl.
  - intros H. split; [reflexivity | exact (normal_from_weaken _ _ H)].
  - destruct (is_hyphen c).
    + intros [Hb H]%andb_prop. destruct (IH _ H) as [H1 H2].
      rewrite Hb, H1. auto.
    + intros [Hb H]%andb_prop. destruct (IH _ H) as [H1 H2].
      rewrite Hb, H1. auto.
Qed.

Lemma collapse_from_normal b s : normal_from b (collapse_from b s) = true.
Proof.
  revert b. induction s as [|c s IH]; intros b; simpl; [reflexivity|].
  unfold is_sep. destruct (is_hyphen c) eqn:Hh; simpl.
  - destruct b; simpl; [apply IH|].
    change (is_hyphen "-") with true. simpl. apply IH.
  - destruct (is_space c) eqn:Hs; simpl.
    + destruct b; simpl; [apply IH|].
      change (is_hyphen "-") with true. simpl. apply IH.
    + rewrite Hh, Hs. simpl. apply IH.
Qed.


Lemma settled_hyphen : settled "-"%char.
Proof. split; reflexivity. Qed.

Lemma strip_special_lower_settled s : Forall settled (strip_special (lower s)).
Proof.
  unfold strip_special, lower. induction s as [|c s IH]; simpl; [constructor|].
  destruct (kept (lower_char c)) eqn:K; [|exact IH].
  constructor; [|exact IH]. split; [apply lower_char_idem | exact K].
Qed.

Lemma collapse_from_settled b s :
  Forall settled s -> Forall settled (collapse_from b s).
Proof.
  intros H. revert b. induction H as [|c s Hc Hs IH]; intros b; simpl.
  - constructor.
  - destruct (is_sep c).
    + destruct b; [apply IH|]. constructor; [apply settled_hyphen | apply IH].
    + constructor; [exact Hc | apply IH].
Qed.




End SlugFacts.




(** ** Section organiser *)

Module OrganizerFacts.
Import Parser Organizer Spec.

Lemma map_append_if {A B} (f : A -> B) l (x : option A) :
  map f (append_if l x) = map f l ++ match x with Some a => [f a] | None => [] end.
Proof. destruct x; simpl; [apply map_app | rewrite app_nil_r; reflexivity]. Qed.

(** The children [_group_l2_sections] builds are the level-2 headings. *)
Lemma group_l2_loop_titles sections l2 cur :
  let '(l2', cur') := group_l2_loop sections l2 cur in
  map s_title (append_if l2' cur')
  = map s_title (append_if l2 cur) ++ map h_title (l2_headings sections).
Proof.
  revert l2 cur. induction sections as [|s rest IH]; intros l2 cur; simpl.
  - rewrite app_nil_r. reflexivity.
  - unfold is_l2 at 1. destruct (h_level s =? 2)%Z eqn:E2.
    + specialize (IH (append_if l2 cur)
                     (Some (mkContent (h_title s) (h_content s)))).
      destruct (group_l2_loop rest _ _) as [l2' cur'].
      rewrite IH. simpl. rewrite map_app, <- app_assoc. reflexivity.
    + destruct cur as [c|].
      * destruct (h_level s >? 2)%Z.
        -- specialize (IH l2 (Some (fold_heading c s))).
           destruct (group_l2_loop rest _ _) as [l2' cur'].
           rewrite IH, !map_append_if. reflexivity.
        -- apply IH.
      * apply IH.
Qed.

Lemma group_l2_sections_titles sections :
  map s_title (_group_l2_sections sections) = map h_title (l2_headings sections).
Proof.
  unfold _group_l2_sections.
  pose proof (group_l2_loop_titles sections [] None) as H.
  destruct (group_l2_loop sections [] None) as [l2' cur']. exact H.
Qed.

Lemma has_l1_sections_false sections :
  Forall (fun s => h_level s <> 1%Z) sections ->
  has_l1_sections sections = false.
Proof.
  induction 1 as [|s rest Hs _ IH]; simpl; [reflexivity|].
  rewrite IH, orb_false_r. apply Z.eqb_neq. exact Hs.
Qed.

Lemma has_l1_sections_true sections :
  l1_headings sections <> [] -> has_l1_sections sections = true.
Proof.
  induction sections as [|s rest IH]; simpl; [congruence|].
  unfold is_l1. destruct (h_level s =? 1)%Z; simpl; auto.
Qed.

Lemma flush_step_other st s :
  is_l1 s = false ->
  map g_title (flush (organize_step st s)) = map g_title (flush st)
  /\ map g_is_root (flush (organize_step st s)) = map g_is_root (flush st)
  /\ first_l1 (organize_step st s) = first_l1 st
  /\ (current_l1 (organize_step st s) = None <-> current_l1 st = None).
Proof.
  unfold is_l1, organize_step, flush. intros ->.
  destruct st as [org [g|] c2 f]; simpl.
  - destruct (h_level s =? 2)%Z; simpl.
    + rewrite !map_app. simpl. repeat split; congruence.
    + destruct c2 as [c|]; [destruct (h_level s >? 2)%Z|]; simpl;
        rewrite ?map_app; simpl; repeat split; congruence.
  - destruct c2 as [c|]; [destruct (h_level s >? 2)%Z|]; simpl; tauto.
Qed.

Lemma flush_step_l1 st s :
  is_l1 s = true ->
  map g_title (flush (organize_step st s))
  = map g_title (flush st) ++ [h_title s]
  /\ map g_is_root (flush (organize_step st s))
     = map g_is_root (flush st) ++ [first_l1 st]
  /\ first_l1 (organize_step st s) = false.
Proof.
  unfold is_l1, organize_step, flush. intros ->.
  destruct st as [org [g|] c2 f]; simpl; rewrite !map_app; simpl; auto.
Qed.

(** The groups the loop returns: those of the state it starts from, then one
    for every level-1 heading it reads. *)
Lemma organize_loop_groups sections st :
  map g_title (flush (organize_loop sections st))
  = map g_title (flush st) ++ map h_title (l1_headings sections)
  /\ map g_is_root (flush (organize_loop sections st))
     = map g_is_root (flush st)
       ++ root_flags (first_l1 st) (length (l1_headings sections)).
Proof.
  unfold organize_loop. revert st.
  induction sections as [|s rest IH]; intros st; simpl.
  - rewrite !app_nil_r. auto.
  - destruct (IH (organize_step st s)) as [IHt IHr]. rewrite IHt, IHr.
    destruct (is_l1 s) eqn:E.
    + destruct (flush_step_l1 st s E) as (-> & -> & ->).
      simpl. rewrite <- !app_assoc. simpl. split; [reflexivity|].
      f_equal. f_equal. destruct (length (l1_headings rest)); reflexivity.
    + destruct (flush_step_other st s E) as (-> & -> & -> & _). auto.
Qed.

End OrganizerFacts.

(** C1: a document with at least one level-2 heading and no level-1 heading
    is organised into exactly one group; it is the root, it carries the
    document title, and its children are the level-2 headings in order. *)
Theorem organize_sections_synthetic_root (doc_title : string)
    (sections : list Parser.HeadingNode) :
  Exists (fun s => Parser.h_level s = 2%Z) sections ->
  Forall (fun s => Parser.h_level s <> 1%Z) sections ->
  exists g,
    Organizer.organize_sections doc_title sections = [g]
    /\ Organizer.g_is_root g = true
    /\ Organizer.g_title g = doc_title
    /\ map Organizer.s_title (Organizer.g_l2_sections g)
       = map Parser.h_title (Spec.l2_headings sections)
    /\ Organizer.g_l2_sections g <> [].
Proof.
  intros Hl2 Hl1.
  exists (Organizer.mkGroup doc_title "" true
            (Organizer._group_l2_sections sections)).
  unfold Organizer.organize_sections.
  rewrite (OrganizerFacts.has_l1_sections_false sections Hl1). simpl.
  repeat split.
  - apply OrganizerFacts.group_l2_sections_titles.
  - intros Hnil.
    pose proof (OrganizerFacts.group_l2_sections_titles sections) as Ht.
    rewrite Hnil in Ht. simpl in Ht.
    apply List.Exists_exists in Hl2 as (s & Hin & Hs).
    assert (Hs' : In s (Spec.l2_headings sections)).
    { apply filter_In. split; [exact Hin|].
      unfold Spec.is_l2. apply Z.eqb_eq. exact Hs. }
    destruct (Spec.l2_headings sections); [destruct Hs' | discriminate].
Qed.

Lemma organize_sections_synthetic_root_witness :
  exists g,
    Organizer.organize_sections "Doc"
      [Parser.mkHeading "A" 2 "body1"; Parser.mkHeading "A.1" 3 "deep";
       Parser.mkHeading "B" 2 "body2"] = [g]
    /\ Organizer.g_is_root g = true
    /\ Organizer.g_title g = "Doc"
    /\ map Organizer.s_title (Organizer.g_l2_sections g)
       = map Parser.h_title
           (Spec.l2_headings
              [Parser.mkHeading "A" 2 "body1"; Parser.mkHeading "A.1" 3 "deep";
               Parser.mkHeading "B" 2 "body2"])
    /\ Organizer.g_l2_sections g <> [].
Proof.
  apply organize_sections_synthetic_root.
  - apply Exists_cons_hd. reflexivity.
  - repeat constructor; simpl; lia.
Defined.

(** C2: a document with N level-1 headings, N at least 1, is organised into
    exactly N groups, one per level-1 heading in document order, and the
    first of them is the only root. *)
Theorem organize_sections_one_group_per_l1 (doc_title : string)
    (sections : list Parser.HeadingNode) (N : nat) :
  length (Spec.l1_headings sections) = N ->
  1 <= N ->
  length (Organizer.organize_sections doc_title sections) = N
  /\ map Organizer.g_title (Organizer.organize_sections doc_title sections)
     = map Parser.h_title (Spec.l1_headings sections)
  /\ map Organizer.g_is_root (Organizer.organize_sections doc_title sections)
     = true :: repeat false (N - 1).
Proof.
  intros HN Hpos.
  set (init := Organizer.mkOrg [] None None true).
  assert (Heq : Organizer.organize_sections doc_title sections
                = Spec.flush (Organizer.organize_loop sections init)).
  { unfold Organizer.organize_sections.
    rewrite OrganizerFacts.has_l1_sections_true
      by (intros E; rewrite E in HN; simpl in HN; lia).
    reflexivity. }
  rewrite Heq.
  destruct (OrganizerFacts.organize_loop_groups sections init) as [Ht Hr].
  change (Spec.flush init) with (@nil Organizer.SectionGroup) in Ht, Hr.
  simpl in Ht, Hr.
  repeat split.
  - rewrite <- (length_map Organizer.g_title), Ht, length_map. exact HN.
  - exact Ht.
  - rewrite Hr, HN. destruct N; [lia|]. simpl. rewrite Nat.sub_0_r.
    reflexivity.
Qed.

Lemma organize_sections_one_group_per_l1_witness :
  length (Organizer.organize_sections "Doc"
            [Parser.mkHeading "Part I" 1 "intro"; Parser.mkHeading "A" 2 "a";
             Parser.mkHeading "Part II" 1 ""; Parser.mkHeading "B" 2 "b"]) = 2
  /\ map Organizer.g_title
       (Organizer.organize_sections "Doc"
          [Parser.mkHeading "Part I" 1 "intro"; Parser.mkHeading "A" 2 "a";
           Parser.mkHeading "Part II" 1 ""; Parser.mkHeading "B" 2 "b"])
     = map Parser.h_title
         (Spec.l1_headings
            [Parser.mkHeading "Part I" 1 "intro"; Parser.mkHeading "A" 2 "a";
             Parser.mkHeading "Part II" 1 ""; Parser.mkHeading "B" 2 "b"])
  /\ map Organizer.g_is_root
       (Organizer.organize_sections "Doc"
          [Parser.mkHeading "Part I" 1 "intro"; Parser.mkHeading "A" 2 "a";
           Parser.mkHeading "Part II" 1 ""; Parser.mkHeading "B" 2 "b"])
     = true :: repeat false (2 - 1).
Proof.
  apply organize_sections_one_group_per_l1; [reflexivity | lia].
Defined.

(** ** Heading parser *)

Module ParserFacts.
Import PyStr Parser.

Lemma collect_content_ge rest n content :
  n <= snd (collect_content rest n content).
Proof.
  revert n content. induction rest as [|line rest IH]; intros n content; simpl.
  - lia.
  - destruct (startswith "=" line); simpl; [lia|].
    specialize (IH (S n) (content ++ [line])). lia.
Qed.

(** A section that starts on a heading line ends on a later line. *)
Lemma parse_adoc_section_advances lines start line :
  lines !! start = Some line ->
  startswith "=" line = true ->
  start < snd (parse_adoc_section lines start).
Proof.
  intros Hl Hs. unfold parse_adoc_section. rewrite Hl. simpl. rewrite Hs.
  pose proof (collect_content_ge (drop (S start) lines) (S start) []) as H.
  destruct (collect_content (drop (S start) lines) (S start) []) as [c n].
  simpl in *. lia.
Qed.

(** The main loop returns once it has one round per remaining line, and
    one more to see the end. *)
Lemma parse_loop_total fuel lines current_line sections :
  length lines - current_line < fuel ->
  exists r, parse_loop fuel lines current_line sections = Some r.
Proof.
  revert current_line sections.
  induction fuel as [|fuel IH]; intros cur secs Hf; [lia|].
  cbn [parse_loop].
  destruct (lines !! cur) as [line|] eqn:Hl; [|eauto].
  assert (Hlt : cur < length lines) by (apply lookup_lt_Some in Hl; exact Hl).
  destruct (startswith "=" line) eqn:Hs; [|apply IH; lia].
  destruct (2 <=? line_level line)%nat; [|apply IH; lia].
  pose proof (parse_adoc_section_advances lines cur line Hl Hs) as Hadv.
  destruct (parse_adoc_section lines cur) as [sec next]. simpl in Hadv.
  apply IH. lia.
Qed.

(** Without a section heading the loop adds nothing. *)
Lemma parse_loop_no_heading fuel lines current_line sections :
  Forall (fun line => is_section_heading line = false) lines ->
  length lines - current_line < fuel ->
  parse_loop fuel lines current_line sections = Some sections.
Proof.
  intros Hno. revert current_line.
  induction fuel as [|fuel IH]; intros cur Hf; [lia|].
  cbn [parse_loop].
  destruct (lines !! cur) as [line|] eqn:Hl; [|reflexivity].
  assert (Hlt : cur < length lines) by (apply lookup_lt_Some in Hl; exact Hl).
  assert (Hline : is_section_heading line = false).
  { rewrite List.Forall_forall in Hno. apply Hno.
    apply list_elem_of_In, list_elem_of_lookup. eauto. }
  unfold is_section_heading in Hline.
  destruct (startswith "=" line); [|apply IH; lia].
  cbn [andb] in Hline. rewrite Hline. apply IH. lia.
Qed.

(** [parse_adoc_file] returns a document for every input. *)
Lemma parse_adoc_file_total lines :
  exists doc, parse_adoc_file lines = Some doc.
Proof.
  unfold parse_adoc_file.
  destruct (parse_loop_total (S (length lines)) lines
              (skip_metadata lines 0) []) as [r Hr]; [lia|].
  rewrite Hr. simpl. eauto.
Qed.

End ParserFacts.

(** ** The guard behind the organiser *)

Module GuardFacts.
Import Parser Organizer Spec.

Lemma has_l1_sections_some sections :
  has_l1_sections sections = true -> l1_headings sections <> [].
Proof.
  induction sections as [|s rest IH]; simpl; [discriminate|].
  unfold is_l1. destruct (h_level s =? 1)%Z; simpl; [discriminate | exact IH].
Qed.

(** The organiser hands back a group for every input. *)
Lemma organize_sections_nonempty doc_title sections :
  organize_sections doc_title sections <> [].
Proof.
  unfold organize_sections.
  destruct (has_l1_sections sections) eqn:Hl1; simpl; [|discriminate].
  set (init := mkOrg [] None None true).
  destruct (OrganizerFacts.organize_loop_groups sections init) as [Ht _].
  change (flush init) with (@nil SectionGroup) in Ht. simpl in Ht.
  fold (flush (organize_loop sections init)).
  intros Hnil. rewrite Hnil in Ht. simpl in Ht.
  apply (has_l1_sections_some sections Hl1).
  symmetry in Ht. apply map_eq_nil in Ht. exact Ht.
Qed.

End GuardFacts.

(** C7: a document without any heading of level 2 or deeper is not
    turned away.  The parser returns it with an empty sequence of sections,
    the organiser makes a root group without children of it, and the guard
    of [main] that is to stop the converter when no sections are found
    does not fire: the converter goes on with that group.  No document
    makes that guard fire. *)
Theorem document_without_sections_passes_guard (lines : list string) :
  Forall (fun line => Parser.is_section_heading line = false) lines ->
  (exists doc,
     Parser.parse_adoc_file lines = Some doc
     /\ Parser.doc_sections doc = []
     /\ Main.organize_or_exit doc
        = Main.Proceed [Organizer.mkGroup (Parser.doc_title doc) "" true []])
  /\ (forall doc status, Main.organize_or_exit doc <> Main.Exit status).
Proof.
  intros Hno. split.
  - eexists. split; [|split].
    + unfold Parser.parse_adoc_file.
      rewrite (ParserFacts.parse_loop_no_heading _ _ _ _ Hno) by lia.
      reflexivity.
    + reflexivity.
    + reflexivity.
  - intros doc status. unfold Main.organize_or_exit.
    pose proof (GuardFacts.organize_sections_nonempty
                  (Parser.doc_title doc) (Parser.doc_sections doc)) as Hne.
    destruct (Organizer.organize_sections _ _); [congruence | discriminate].
Qed.

Lemma document_without_sections_passes_guard_witness :
  (exists doc,
     Parser.parse_adoc_file
       ["= Doc" +:+ PyStr.nl; ":author: Alice" +:+ PyStr.nl; "A paragraph."]
     = Some doc
     /\ Parser.doc_sections doc = []
     /\ Main.organize_or_exit doc
        = Main.Proceed [Organizer.mkGroup (Parser.doc_title doc) "" true []])
  /\ (forall doc status, Main.organize_or_exit doc <> Main.Exit status).
Proof.
  apply document_without_sections_passes_guard.
  repeat constructor.
Defined.

(** ** The store: updates in place *)

Module StoreFacts.
Import Py Spec.

Lemma in_place_ret {A} r h (post : A -> Prop) (a : A) :
  post a -> in_place r h post (mret a).
Proof.
  intros Ha l. exists (Ok a), l. split; [reflexivity|].
  intros a' [= <-]. exact Ha.
Qed.

Lemma in_place_bind {A B} r h (P : A -> Prop) (Q : B -> Prop)
    (m : St A) (f : A -> St B) :
  in_place r h P m ->
  (forall a, P a -> in_place r h Q (f a)) ->
  in_place r h Q (m ≫= f).
Proof.
  intros Hm Hf l. unfold mbind, St_bind.
  destruct (Hm l) as (res & l1 & -> & Hres).
  destruct res as [a|e].
  - apply (Hf a (Hres a eq_refl) l1).
  - exists (Raise e), l1. split; [reflexivity | discriminate].
Qed.

Lemma in_place_lift {A} r h (x : result A) :
  in_place r h (fun _ => True) (lift x).
Proof. intros l. exists x, l. split; auto. Qed.

Lemma in_place_load r h : in_place r h (fun _ => True) (load r).
Proof.
  intros l. unfold load. rewrite lookup_insert_eq.
  exists (Ok l), l. split; auto.
Qed.

Lemma in_place_append r h t : in_place r h (fun _ => True) (append r t).
Proof.
  intros l. unfold append. rewrite lookup_insert_eq, insert_insert_eq.
  eexists _, _. split; [reflexivity | auto].
Qed.

Lemma in_place_insert_at r h i t :
  in_place r h (fun _ => True) (insert_at r i t).
Proof.
  intros l. unfold insert_at. rewrite lookup_insert_eq, insert_insert_eq.
  eexists _, _. split; [reflexivity | auto].
Qed.

Lemma in_place_setitem r h i t :
  in_place r h (fun _ => True) (setitem r i t).
Proof.
  intros l. unfold setitem. rewrite lookup_insert_eq.
  destruct (i <? length l)%nat.
  - rewrite insert_insert_eq. eexists _, _. split; [reflexivity | auto].
  - exists (Raise IndexError), l. split; [reflexivity | discriminate].
Qed.

(** Running an in-place computation on a store where [r] is allocated. *)
Lemma in_place_run {A} r h (post : A -> Prop) (m : St A) tags :
  h !! r = Some tags ->
  in_place r h post m ->
  exists res tags', m h = (res, <[r := tags']> h)
                    /\ forall a, res = Ok a -> post a.
Proof.
  intros Hr Hm. specialize (Hm tags). rewrite (insert_id h r tags Hr) in Hm.
  exact Hm.
Qed.

Create HintDb in_place.

#[local] Hint Resolve in_place_lift in_place_load in_place_append
  in_place_insert_at in_place_setitem : in_place.

Ltac step_in_place :=
  first
    [ eapply in_place_bind; [solve [eauto with in_place] | intros ? _]
    | apply in_place_ret; reflexivity ].

Lemma append_missing_in_place r h d key t :
  in_place r h (fun _ => True) (Tags.append_missing r d key t).
Proof.
  unfold Tags.append_missing. destruct (present (d !! key)).
  - apply in_place_ret. exact I.
  - apply in_place_append.
Qed.

Lemma fix_language_in_place r h d :
  in_place r h (fun _ => True) (Tags.fix_language r d).
Proof.
  unfold Tags.fix_language. destruct (d !! "l") as [values|].
  - step_in_place. destruct (PyStr.contains _ _).
    + apply in_place_ret. exact I.
    + do 2 step_in_place. destruct a1.
      * apply in_place_setitem.
      * apply in_place_ret. exact I.
  - apply in_place_append.
Qed.

#[local] Hint Resolve append_missing_in_place fix_language_in_place : in_place.

Lemma upgrade_legacy_tags_in_place r h event_kind :
  in_place r h (fun a => a = r) (Tags.upgrade_legacy_tags r event_kind).
Proof.
  unfold Tags.upgrade_legacy_tags.
  do 3 step_in_place.
  eapply in_place_bind with (P := fun _ => True).
  { destruct (present (_ !! "M")).
    - apply in_place_ret. exact I.
    - destruct (event_kind =? 30040)%Z.
      + step_in_place. apply in_place_append.
      + apply in_place_append. }
  intros _ _. step_in_place.
  eapply in_place_bind with (P := fun _ => True).
  { destruct (event_kind =? 30040)%Z.
    - apply append_missing_in_place.
    - apply in_place_ret. exact I. }
  intros _ _. do 2 step_in_place.
Qed.

End StoreFacts.

(** ** Derivative-work tags *)

Module DerivativeFacts.
Import Py Spec Tags.

(** The scan stops right after the first auto-update tag. *)
Lemma find_insert_index_spec tags i :
  Forall (fun t => t <> []) tags ->
  (exists b0 values after,
      tags = b0 ++ ("auto-update" :: values) :: after
      /\ Forall not_auto_update b0
      /\ find_insert_index tags i = Ok (Some (i + length b0 + 1)))
  \/ (Forall not_auto_update tags /\ find_insert_index tags i = Ok None).
Proof.
  intros Hne. revert i. induction Hne as [|t rest Ht _ IH]; intros i.
  - right. split; [constructor | reflexivity].
  - destruct t as [|name values]; [congruence|].
    cbn [find_insert_index]. unfold named. simpl.
    destruct (String.eqb name "auto-update") eqn:E.
    + apply String.eqb_eq in E. subst name. left.
      exists [], values, rest. simpl. repeat split; [constructor|].
      do 2 f_equal. lia.
    + apply String.eqb_neq in E.
      assert (Hna : not_auto_update (name :: values))
        by (unfold not_auto_update; simpl; congruence).
      destruct (IH (S i)) as [(b0 & vs & after & -> & Hb0 & ->) | [Hall ->]].
      * left. exists ((name :: values) :: b0), vs, after. simpl.
        repeat split; [constructor; assumption|]. do 2 f_equal. lia.
      * right. split; [constructor; assumption | reflexivity].
Qed.

Lemma find_insert_index_le tags i k :
  find_insert_index tags i = Ok (Some k) -> k <= i + length tags.
Proof.
  revert i. induction tags as [|t rest IH]; intros i; simpl; [discriminate|].
  unfold named. destruct t as [|name values]; simpl; [discriminate|].
  destruct (String.eqb name "auto-update").
  - intros [= <-]. lia.
  - intros H. apply IH in H. lia.
Qed.

(** The two insertions put p and E, in that order, at position [i]. *)
Lemma add_derivative_work_tags_run h r tags pubkey event_id relay_url found :
  h !! r = Some tags ->
  find_insert_index tags 0 = Ok found ->
  let i := default (length tags) found in
  add_derivative_work_tags r pubkey event_id relay_url h
  = (Ok r, <[r := take i tags ++ ["p"; pubkey]
                   :: e_tag pubkey event_id relay_url :: drop i tags]> h).
Proof.
  intros Hr Hf i.
  assert (Hi : i <= length tags).
  { subst i. destruct found as [k|]; simpl; [|lia].
    apply find_insert_index_le in Hf. simpl in Hf. exact Hf. }
  unfold add_derivative_work_tags, mbind, St_bind, load, lift, insert_at,
    mret, St_ret.
  rewrite Hr, Hf. fold i. rewrite Hr, lookup_insert_eq, insert_insert_eq.
  do 2 f_equal. fold (e_tag pubkey event_id relay_url).
  set (p := ["p"; pubkey]). set (e := e_tag pubkey event_id relay_url).
  change (take i tags ++ p :: drop i tags)
    with (take i tags ++ [p] ++ drop i tags).
  rewrite app_assoc.
  assert (Hlen : i + 1 = length (take i tags ++ [p])).
  { rewrite length_app, length_take_le by exact Hi. reflexivity. }
  rewrite (take_app_length' _ _ _ Hlen), (drop_app_length' _ _ _ Hlen).
  rewrite <- app_assoc. reflexivity.
Qed.

Lemma add_derivative_work_tags_raises h r tags pubkey event_id relay_url e :
  h !! r = Some tags ->
  find_insert_index tags 0 = Raise e ->
  add_derivative_work_tags r pubkey event_id relay_url h = (Raise e, h).
Proof.
  intros Hr Hf.
  unfold add_derivative_work_tags, mbind, St_bind, load, lift.
  rewrite Hr, Hf. reflexivity.
Qed.

End DerivativeFacts.

(** C3: whatever tags the list already holds, [add_derivative_work_tags]
    puts the p tag immediately before the E tag, both right after the first
    auto-update tag when there is one, and at the end otherwise.  A tag
    list holds tags, that is non-empty lists: each has its name. *)
Theorem add_derivative_work_tags_adjacent (h : Py.store) (r : Py.loc)
    (tags : list tag) (original_author_pubkey original_event_id : string)
    (relay_url : option string) :
  h !! r = Some tags ->
  Forall (fun t => t <> []) tags ->
  exists before after extra,
    tags = before ++ after
    /\ Tags.add_derivative_work_tags r original_author_pubkey
         original_event_id relay_url h
       = (Py.Ok r,
          <[r := before
                 ++ ["p"; original_author_pubkey]
                 :: ("E" :: original_event_id :: extra)
                 :: after]> h)
    /\ ((exists b0 values,
           before = b0 ++ ["auto-update" :: values]
           /\ Forall (fun t => head t <> Some "auto-update") b0)
        \/ (after = []
            /\ Forall (fun t => head t <> Some "auto-update") tags)).
Proof.
  intros Hr Hne.
  destruct (DerivativeFacts.find_insert_index_spec tags 0 Hne)
    as [(b0 & values & after & Htags & Hb0 & Hf) | [Hall Hf]].
  - exists (b0 ++ ["auto-update" :: values]), after,
      (if Py.truthy relay_url
       then [default "" relay_url; original_author_pubkey] else []).
    rewrite (DerivativeFacts.add_derivative_work_tags_run _ _ _ _ _ _ _ Hr Hf).
    simpl default.
    assert (Hlen : 0 + length b0 + 1 = length (b0 ++ ["auto-update" :: values]))
      by (rewrite length_app; simpl; lia).
    assert (Hsplit : tags = (b0 ++ ["auto-update" :: values]) ++ after)
      by (rewrite <- app_assoc; exact Htags).
    rewrite Hsplit at 2 3.
    rewrite (take_app_length' _ _ _ Hlen), (drop_app_length' _ _ _ Hlen).
    repeat split; [exact Hsplit|]. left. eauto.
  - exists tags, [],
      (if Py.truthy relay_url
       then [default "" relay_url; original_author_pubkey] else []).
    rewrite (DerivativeFacts.add_derivative_work_tags_run _ _ _ _ _ _ _ Hr Hf).
    simpl default. rewrite firstn_all, skipn_all.
    repeat split; [rewrite app_nil_r; reflexivity|]. right. auto.
Qed.

Lemma add_derivative_work_tags_adjacent_witness :
  exists before after extra,
    [["d"; "doc"]; ["title"; "Doc"]; ["auto-update"; "yes"]; ["type"; "book"]]
    = before ++ after
    /\ Tags.add_derivative_work_tags 1%positive "PK" "EV" (Some "wss://relay")
         {[ 1%positive :=
              [["d"; "doc"]; ["title"; "Doc"]; ["auto-update"; "yes"];
               ["type"; "book"]] ]}
       = (Py.Ok 1%positive,
          <[1%positive := before ++ ["p"; "PK"] :: ("E" :: "EV" :: extra)
                          :: after]>
            {[ 1%positive :=
                 [["d"; "doc"]; ["title"; "Doc"]; ["auto-update"; "yes"];
                  ["type"; "book"]] ]})
    /\ ((exists b0 values,
           before = b0 ++ ["auto-update" :: values]
           /\ Forall (fun t => head t <> Some "auto-update") b0)
        \/ (after = []
            /\ Forall (fun t => head t <> Some "auto-update")
                 [["d"; "doc"]; ["title"; "Doc"]; ["auto-update"; "yes"];
                  ["type"; "book"]])).
Proof.
  apply add_derivative_work_tags_adjacent.
  - reflexivity.
  - repeat constructor; discriminate.
Defined.

(** C9, as amended: [add_reference_to_index], [add_derivative_work_tags]
    and [upgrade_legacy_tags] update the tag list they are given in place
    and return that same list: the reference tag is appended to it, the p
    and E tags are inserted into it, the missing tags are added to it.  No
    other list changes and no new list is made. *)
Theorem tag_list_updated_in_place (h : Py.store) (r : Py.loc)
    (tags : list tag) :
  h !! r = Some tags ->
  (forall section_event d_tag relay,
     Tags.add_reference_to_index r section_event d_tag relay h
     = (Py.Ok r,
        <[r := tags
               ++ [Tags.create_reference_tag (Tags.ev_kind section_event)
                     (Tags.ev_pubkey section_event) d_tag
                     (Tags.ev_id section_event) relay]]> h))
  /\ (forall pubkey event_id relay_url,
        exists res tags',
          Tags.add_derivative_work_tags r pubkey event_id relay_url h
          = (res, <[r := tags']> h)
          /\ forall a, res = Py.Ok a ->
                       a = r /\ length tags' = length tags + 2)
  /\ (forall event_kind,
        exists res tags',
          Tags.upgrade_legacy_tags r event_kind h = (res, <[r := tags']> h)
          /\ forall a, res = Py.Ok a -> a = r).
Proof.
  intros Hr. repeat split.
  - intros ev d relay.
    unfold Tags.add_reference_to_index, mbind, Py.St_bind, Py.append.
    rewrite Hr. reflexivity.
  - intros pubkey event_id relay_url.
    destruct (Tags.find_insert_index tags 0) as [found|e] eqn:Hf.
    + rewrite (DerivativeFacts.add_derivative_work_tags_run
                 _ _ _ pubkey event_id relay_url _ Hr Hf).
      eexists _, _. split; [reflexivity|]. intros a [= <-]. split; [reflexivity|].
      assert (Hi : default (length tags) found <= length tags).
      { destruct found as [k|]; simpl; [|lia].
        apply DerivativeFacts.find_insert_index_le in Hf. exact Hf. }
      rewrite length_app, length_take_le by exact Hi. simpl.
      rewrite length_drop. lia.
    + rewrite (DerivativeFacts.add_derivative_work_tags_raises
                 _ _ _ pubkey event_id relay_url _ Hr Hf).
      exists (Py.Raise e), tags. rewrite (insert_id h r tags Hr).
      split; [reflexivity | discriminate].
  - intros event_kind.
    apply (StoreFacts.in_place_run r h _ _ tags Hr).
    apply StoreFacts.upgrade_legacy_tags_in_place.
Qed.

Lemma tag_list_updated_in_place_witness :
  (forall section_event d_tag relay,
     Tags.add_reference_to_index 1%positive section_event d_tag relay
       {[ 1%positive := [["d"; "doc"]; ["title"; "Doc"]] ]}
     = (Py.Ok 1%positive,
        <[1%positive := [["d"; "doc"]; ["title"; "Doc"]]
               ++ [Tags.create_reference_tag (Tags.ev_kind section_event)
                     (Tags.ev_pubkey section_event) d_tag
                     (Tags.ev_id section_event) relay]]>
          {[ 1%positive := [["d"; "doc"]; ["title"; "Doc"]] ]}))
  /\ (forall pubkey event_id relay_url,
        exists res tags',
          Tags.add_derivative_work_tags 1%positive pubkey event_id relay_url
            {[ 1%positive := [["d"; "doc"]; ["title"; "Doc"]] ]}
          = (res, <[1%positive := tags']>
                    {[ 1%positive := [["d"; "doc"]; ["title"; "Doc"]] ]})
          /\ forall a, res = Py.Ok a ->
                       a = 1%positive
                       /\ length tags'
                          = length [["d"; "doc"]; ["title"; "Doc"]] + 2)
  /\ (forall event_kind,
        exists res tags',
          Tags.upgrade_legacy_tags 1%positive event_kind
            {[ 1%positive := [["d"; "doc"]; ["title"; "Doc"]] ]}
          = (res, <[1%positive := tags']>
                    {[ 1%positive := [["d"; "doc"]; ["title"; "Doc"]] ]})
          /\ forall a, res = Py.Ok a -> a = 1%positive).
Proof.
  apply (tag_list_updated_in_place
           {[ 1%positive := [["d"; "doc"]; ["title"; "Doc"]] ]} 1%positive
           [["d"; "doc"]; ["title"; "Doc"]]).
  reflexivity.
Defined.

(** C9 as stated fails: after each of the three calls the list that was
    passed is no longer what it was; it holds the appended reference tag,
    the inserted p and E tags, the added m, M, l and version tags. *)
Lemma tag_list_argument_changed_counterexample :
  snd (Tags.add_reference_to_index 1%positive
         (Tags.mkEvent 30041 "pk" "id") "doc-a" "wss://relay"
         {[ 1%positive := [["d"; "doc"]; ["title"; "Doc"]] ]}) !! 1%positive
  <> ({[ 1%positive := [["d"; "doc"]; ["title"; "Doc"]] ]} : Py.store)
       !! 1%positive
  /\ snd (Tags.add_derivative_work_tags 1%positive "pk" "ev" None
            {[ 1%positive := [["d"; "doc"]; ["title"; "Doc"]] ]}) !! 1%positive
     <> ({[ 1%positive := [["d"; "doc"]; ["title"; "Doc"]] ]} : Py.store)
          !! 1%positive
  /\ snd (Tags.upgrade_legacy_tags 1%positive 30041
            {[ 1%positive := [["d"; "doc"]; ["title"; "Doc"]] ]}) !! 1%positive
     <> ({[ 1%positive := [["d"; "doc"]; ["title"; "Doc"]] ]} : Py.store)
          !! 1%positive.
Proof. repeat split; vm_compute; discriminate. Qed.

(** ** Tag builder and validator *)

Module TagFacts.
Import Py Spec Tags.

Lemma mime_index : MIME_TYPES !!! "index" = "application/json".
Proof. reflexivity. Qed.

Lemma category_of external :
  NOSTR_CATEGORIES !!! (if external : bool then "external" else "index")
  = if external then "external-content/index/replaceable"
    else "meta-data/index/replaceable".
Proof. destruct external; reflexivity. Qed.

Lemma tag_name_in_nonempty names t : tag_name_in names t = true -> t <> [].
Proof. destruct t; simpl; [discriminate | congruence]. Qed.

Lemma Forall_tag_name_in_nonempty names tags :
  Forall (fun t => tag_name_in names t = true) tags ->
  Forall (fun t => t <> []) tags.
Proof.
  intros H. eapply Forall_impl; [exact H|].
  intros t. apply tag_name_in_nonempty.
Qed.

(** A tag whose name is in [names] is not named [key] when [key] is not in
    [names]. *)
Lemma tag_name_in_other names key name values :
  tag_name_in names (name :: values) = true ->
  existsb (String.eqb key) names = false ->
  String.eqb name key = false.
Proof.
  simpl. intros Hin Hout. apply String.eqb_neq. intros ->.
  rewrite Hin in Hout. discriminate.
Qed.

(** The tag dict holds, at every key, the values of the last tag of that
    name. *)
Lemma tag_dict_from_lookup tags d :
  Forall (fun t => t <> []) tags ->
  exists d', tag_dict_from tags d = Ok d'
             /\ forall key, d' !! key = values_of key tags (d !! key).
Proof.
  intros Hne. revert d. induction Hne as [|t rest Ht _ IH]; intros d.
  - exists d. split; reflexivity.
  - destruct t as [|name values]; [congruence|]. simpl.
    destruct (IH (<[name := values]> d)) as (d' & -> & Hd').
    exists d'. split; [reflexivity|]. intros key. rewrite Hd'.
    rewrite lookup_insert. f_equal.
    destruct (String.eqb name key) eqn:E.
    + apply String.eqb_eq in E. rewrite decide_True by exact E. reflexivity.
    + apply String.eqb_neq in E. rewrite decide_False by exact E. reflexivity.
Qed.

Lemma values_of_app key l1 l2 acc :
  values_of key (l1 ++ l2) acc = values_of key l2 (values_of key l1 acc).
Proof. revert acc. induction l1 as [|t l1 IH]; intros acc; simpl; auto. Qed.

Lemma values_of_other names key tags acc :
  Forall (fun t => tag_name_in names t = true) tags ->
  existsb (String.eqb key) names = false ->
  values_of key tags acc = acc.
Proof.
  intros Hin Hout. revert acc.
  induction Hin as [|t rest Ht _ IH]; intros acc; simpl; [reflexivity|].
  rewrite IH. destruct t as [|name values]; [reflexivity|].
  rewrite (tag_name_in_other names key name values Ht Hout). reflexivity.
Qed.

Lemma any_named_other names key tags :
  Forall (fun t => tag_name_in names t = true) tags ->
  existsb (String.eqb key) names = false ->
  any_named key tags = Ok false.
Proof.
  intros Hin Hout.
  induction Hin as [|t rest Ht _ IH]; simpl; [reflexivity|].
  destruct t as [|name values]; [discriminate|]. unfold named. simpl.
  rewrite (tag_name_in_other names key name values Ht Hout). exact IH.
Qed.

Lemma any_named_app key l1 l2 :
  Forall (fun t => t <> []) l1 ->
  any_named key l1 = Ok false ->
  any_named key (l1 ++ l2) = any_named key l2.
Proof.
  induction 1 as [|t rest Ht _ IH]; simpl; [reflexivity|].
  destruct t as [|name values]; [congruence|]. unfold named. simpl.
  destruct (String.eqb name key); [discriminate | exact IH].
Qed.

(** Without a p tag the p/E loop reports nothing. *)
Lemma check_p_e_no_p names tags i errors :
  Forall (fun t => tag_name_in names t = true) tags ->
  existsb (String.eqb "p") names = false ->
  check_p_e tags i None errors = Ok errors.
Proof.
  intros Hin Hout. revert i.
  induction Hin as [|t rest Ht _ IH]; intros i; simpl; [reflexivity|].
  destruct t as [|name values]; [discriminate|]. simpl.
  rewrite (tag_name_in_other names "p" name values Ht Hout). apply IH.
Qed.

Lemma opt_tag_names name v :
  existsb (String.eqb name) optional_names = true ->
  Forall (fun t => tag_name_in optional_names t = true) (opt_tag name v).
Proof. intros H. destruct v; simpl; repeat constructor. exact H. Qed.

Lemma opt_tags_names name v :
  existsb (String.eqb name) optional_names = true ->
  Forall (fun t => tag_name_in optional_names t = true) (opt_tags name v).
Proof.
  intros H. destruct v as [l|]; simpl; [|constructor].
  induction l; simpl; constructor; auto.
Qed.

Lemma identifier_tags_names m :
  Forall (fun t => tag_name_in optional_names t = true) (identifier_tags m).
Proof.
  unfold identifier_tags.
  destruct (md_doi m), (md_isbn m); simpl; repeat constructor.
Qed.

Lemma metadata_tags_names m :
  Forall (fun t => tag_name_in optional_names t = true) (metadata_tags m).
Proof.
  unfold metadata_tags. rewrite !Forall_app.
  repeat split;
    first [ apply opt_tag_names; reflexivity
          | apply opt_tags_names; reflexivity
          | apply identifier_tags_names ].
Qed.

(** Every tag appended after the first nine has one of the optional
    names. *)
Lemma index_optional_names author external metadata :
  Forall (fun t => tag_name_in optional_names t = true)
    (index_optional author external metadata).
Proof.
  unfold index_optional. rewrite !Forall_app. repeat split.
  - destruct (truthy author); repeat constructor.
  - destruct external; repeat constructor.
  - destruct metadata as [m|]; [|constructor].
    destruct (dict_nonempty m); [apply metadata_tags_names | constructor].
Qed.

End TagFacts.

(** ** The optional tags of an index *)

Module OptionalFacts.
Import Py Spec Tags IndexSpec.

Lemma in_opt_tag t name v :
  In t (opt_tag name v) <-> exists s, v = Some s /\ t = [name; s].
Proof.
  destruct v as [s|]; simpl; split.
  - intros [<-|[]]. eauto.
  - intros (s' & [= <-] & ->). auto.
  - intros [].
  - intros (s' & H & _). discriminate H.
Qed.

Lemma in_opt_tags t name v :
  In t (opt_tags name v)
  <-> exists l x, v = Some l /\ In x l /\ t = [name; x].
Proof.
  destruct v as [l|]; simpl; split.
  - intros H. apply in_map_iff in H as (x & <- & Hx). eauto.
  - intros (l' & x & [= <-] & Hx & ->).
    apply in_map_iff. eauto.
  - intros [].
  - intros (l' & x & H & _). discriminate H.
Qed.

Lemma in_identifier_tags t m :
  In t (identifier_tags m)
  <-> (exists doi, md_doi m = Some doi
                   /\ (t = ["i"; "doi:" +:+ doi] \/ t = ["k"; "doi"]))
      \/ (exists isbn, md_isbn m = Some isbn
                        /\ (t = ["i"; "isbn:" +:+ isbn]
                            \/ (md_doi m = None /\ t = ["k"; "isbn"]))).
Proof.
  unfold identifier_tags. rewrite in_app_iff.
  destruct (md_doi m) as [doi|], (md_isbn m) as [isbn|]; simpl; split;
    intros H;
    repeat match goal with
           | H : _ \/ _ |- _ => destruct H as [H|H]
           | H : _ /\ _ |- _ => destruct H as [? H]
           | H : exists _, _ |- _ => destruct H as [? H]
           | H : Some _ = Some _ |- _ => injection H as <-
           | H : None = Some _ |- _ => discriminate H
           | H : Some _ = None |- _ => discriminate H
           | H : False |- _ => destruct H
           end;
    subst; eauto 8.
Qed.

(** A dict with one of the keys the builder reads is not empty. *)
Lemma entry_nonempty m key value :
  In (key, Some value) (plain_entries m) -> dict_nonempty m = true.
Proof.
  unfold plain_entries, dict_nonempty. simpl.
  intros [H|[H|[H|[H|[H|[]]]]]]; injection H as _ H; rewrite H; simpl;
    rewrite ?orb_true_r; reflexivity.
Qed.

Lemma entry_tag m key value :
  In (key, Some value) (plain_entries m) ->
  In [key; value]
    (opt_tag "summary" (md_summary m) ++ opt_tag "image" (md_image m)
     ++ opt_tag "published_on" (md_published_on m)
     ++ opt_tag "published_by" (md_published_by m)
     ++ opt_tag "source" (md_source m)).
Proof.
  unfold plain_entries. simpl. rewrite !in_app_iff, !in_opt_tag.
  intros [H|[H|[H|[H|[H|[]]]]]]; injection H as <- H; eauto 10.
Qed.

(** The tags after the ninth are the ones the arguments call for: none is
    left out and nothing else is added. *)
Lemma index_optional_called_for author external metadata t :
  In t (index_optional author external metadata)
  <-> called_for author external metadata t.
Proof.
  unfold index_optional. rewrite !in_app_iff. split.
  - intros [H|[H|H]].
    + destruct (truthy author) eqn:Ha; [|destruct H].
      destruct H as [<-|[]]. apply for_author. exact Ha.
    + destruct external eqn:He; [|destruct H].
      destruct H as [<-|[]]. apply for_external. reflexivity.
    + destruct metadata as [m|]; [|destruct H].
      destruct (dict_nonempty m); [|destruct H].
      unfold metadata_tags in H.
      rewrite !in_app_iff, !in_opt_tag, !in_opt_tags, in_identifier_tags in H.
      destruct H as [H|[H|[H|[H|[H|[H|[H|H]]]]]]].
      * destruct H as (s & Hs & ->).
        apply (for_entry _ _ _ m); [reflexivity|].
        unfold plain_entries. rewrite Hs. simpl. auto.
      * destruct H as (s & Hs & ->).
        apply (for_entry _ _ _ m); [reflexivity|].
        unfold plain_entries. rewrite Hs. simpl. auto.
      * destruct H as (s & Hs & ->).
        apply (for_entry _ _ _ m); [reflexivity|].
        unfold plain_entries. rewrite Hs. simpl. auto.
      * destruct H as (s & Hs & ->).
        apply (for_entry _ _ _ m); [reflexivity|].
        unfold plain_entries. rewrite Hs. simpl. auto.
      * destruct H as (s & Hs & ->).
        apply (for_entry _ _ _ m); [reflexivity|].
        unfold plain_entries. rewrite Hs. simpl. auto 6.
      * destruct H as [(doi & Hd & [->| ->])|(isbn & Hi & [->|[Hd ->]])].
        -- exact (for_doi _ _ _ m doi eq_refl Hd).
        -- exact (for_doi_kind _ _ _ m doi eq_refl Hd).
        -- exact (for_isbn _ _ _ m isbn eq_refl Hi).
        -- exact (for_isbn_kind _ _ _ m isbn eq_refl Hi Hd).
      * destruct H as (l & x & Hl & Hx & ->).
        exact (for_topic _ _ _ m l x eq_refl Hl Hx).
      * destruct H as (l & x & Hl & Hx & ->).
        exact (for_additional_author _ _ _ m l x eq_refl Hl Hx).
  - intros H.
    assert (Hmeta : forall m, metadata = Some m -> dict_nonempty m = true ->
                      In t (metadata_tags m) ->
                      In t match metadata with
                           | Some m => if dict_nonempty m then metadata_tags m
                                       else []
                           | None => []
                           end).
    { intros m -> Hne Hin. rewrite Hne. exact Hin. }
    destruct H as [Ha | He | m key value Hm Hin | m doi Hm Hd | m doi Hm Hd
                  | m isbn Hm Hi | m isbn Hm Hi Hd | m topics topic Hm Hl Hx
                  | m authors name Hm Hl Hx].
    + left. rewrite Ha. left. reflexivity.
    + right. left. rewrite He. left. reflexivity.
    + right. right. apply (Hmeta m Hm (entry_nonempty m key value Hin)).
      unfold metadata_tags. rewrite !app_assoc.
      do 3 (apply in_or_app; left). rewrite <- !app_assoc.
      exact (entry_tag m key value Hin).
    + right. right. apply (Hmeta m Hm).
      * unfold dict_nonempty. rewrite Hd. simpl. rewrite ?orb_true_r.
        reflexivity.
      * unfold metadata_tags.
        rewrite !in_app_iff, in_identifier_tags. do 5 right. left. left.
        eauto.
    + right. right. apply (Hmeta m Hm).
      * unfold dict_nonempty. rewrite Hd. simpl. rewrite ?orb_true_r.
        reflexivity.
      * unfold metadata_tags.
        rewrite !in_app_iff, in_identifier_tags. do 5 right. left. left.
        eauto.
    + right. right. apply (Hmeta m Hm).
      * unfold dict_nonempty. rewrite Hi. simpl. rewrite ?orb_true_r.
        reflexivity.
      * unfold metadata_tags.
        rewrite !in_app_iff, in_identifier_tags. do 5 right. left. right.
        eauto.
    + right. right. apply (Hmeta m Hm).
      * unfold dict_nonempty. rewrite Hi. simpl. rewrite ?orb_true_r.
        reflexivity.
      * unfold metadata_tags.
        rewrite !in_app_iff, in_identifier_tags. do 5 right. left. right.
        eauto 6.
    + right. right. apply (Hmeta m Hm).
      * unfold dict_nonempty. rewrite Hl. simpl. rewrite ?orb_true_r.
        reflexivity.
      * unfold metadata_tags.
        rewrite !in_app_iff, in_opt_tags. do 6 right. left. eauto.
    + right. right. apply (Hmeta m Hm).
      * unfold dict_nonempty. rewrite Hl. simpl. rewrite ?orb_true_r.
        reflexivity.
      * unfold metadata_tags.
        rewrite !in_app_iff, !in_opt_tags. do 7 right. eauto.
Qed.

End OptionalFacts.

(** C10: whatever the arguments, the list [create_index_tags] returns starts
    with the nine tags d, title, auto-update, type, m, M, l,
    reading-direction, version, in this order, and all optional tags come
    after them: the tags behind the ninth are exactly the ones the
    arguments call for, each of them there and none besides, and each has
    the name of an optional tag. *)
Theorem create_index_tags_fixed_head (title d_tag : string)
    (author : option string) (publication_type auto_update language
    version : string) (external : bool) (metadata : option Tags.Metadata) :
  exists optional,
    Tags.create_index_tags title d_tag author publication_type auto_update
      language version external metadata
    = [ ["d"; d_tag];
        ["title"; title];
        ["auto-update"; auto_update];
        ["type"; publication_type];
        ["m"; "application/json"];
        ["M"; if external then "external-content/index/replaceable"
              else "meta-data/index/replaceable"];
        ["l"; language +:+ ", ISO-639-1"];
        ["reading-direction"; "left-to-right, top-to-bottom"];
        ["version"; version] ] ++ optional
    /\ (forall t, In t optional
                  <-> IndexSpec.called_for author external metadata t)
    /\ Forall (fun t => Spec.tag_name_in
                          ["author"; "external"; "summary"; "image";
                           "published_on"; "published_by"; "source";
                           "i"; "k"; "t"] t = true) optional.
Proof.
  exists (Tags.index_optional author external metadata). split; [|split].
  - unfold Tags.create_index_tags, Tags.index_head.
    rewrite TagFacts.mime_index, TagFacts.category_of. reflexivity.
  - intros t. apply OptionalFacts.index_optional_called_for.
  - apply TagFacts.index_optional_names.
Qed.

Module ValidateFacts.
Import Py Spec Tags.

(** In the tag dict of a built index, with references added or not, the
    required keys hold what the first nine tags say. *)
Lemma index_values_of key title d_tag author publication_type auto_update
    language version external metadata refs :
  Forall (fun t => tag_name_in ["a"] t = true) refs ->
  existsb (String.eqb key) optional_names = false ->
  existsb (String.eqb key) ["a"] = false ->
  values_of key
    (create_index_tags title d_tag author publication_type auto_update
       language version external metadata ++ refs) None
  = values_of key
      (index_head title d_tag publication_type auto_update language version
         external) None.
Proof.
  intros Hrefs Hopt Ha. unfold create_index_tags.
  rewrite !TagFacts.values_of_app.
  rewrite (TagFacts.values_of_other ["a"] key refs _ Hrefs Ha).
  apply (TagFacts.values_of_other optional_names key _ _
           (TagFacts.index_optional_names author external metadata) Hopt).
Qed.

Lemma index_tags_names title d_tag author publication_type auto_update
    language version external metadata refs :
  Forall (fun t => tag_name_in ["a"] t = true) refs ->
  Forall (fun t => tag_name_in
            (["d"; "title"; "auto-update"; "type"; "m"; "M"; "l";
              "reading-direction"; "version"; "a"] ++ optional_names) t
          = true)
    (create_index_tags title d_tag author publication_type auto_update
       language version external metadata ++ refs).
Proof.
  intros Hrefs. unfold create_index_tags. rewrite !Forall_app.
  repeat split.
  - repeat constructor.
  - eapply Forall_impl; [apply TagFacts.index_optional_names|].
    intros [|name values]; simpl; [discriminate|].
    intros H. rewrite H. rewrite !orb_true_r. reflexivity.
  - eapply Forall_impl; [exact Hrefs|].
    intros [|name values]; simpl; [discriminate|].
    rewrite orb_false_r. intros ->. rewrite !orb_true_r. reflexivity.
Qed.

(** What the index validator answers on a built index followed by
    reference tags. *)
Lemma validate_built_index title d_tag author publication_type auto_update
    language version external metadata refs :
  Forall (fun t => tag_name_in ["a"] t = true) refs ->
  is_auto_update auto_update = true ->
  validate_index_tags
    (create_index_tags title d_tag author publication_type auto_update
       language version external metadata ++ refs)
  = Ok (match refs with
        | [] => (false, ["Index must include at least one 'a' tag reference"])
        | _ :: _ => (true, [])
        end).
Proof.
  intros Hrefs Hauto.
  pose proof (index_tags_names title d_tag author publication_type
                auto_update language version external metadata refs Hrefs)
    as Hnames.
  assert (Hany : any_named "a"
                   (create_index_tags title d_tag author publication_type
                      auto_update language version external metadata ++ refs)
                 = Ok (match refs with [] => false | _ :: _ => true end)).
  { rewrite TagFacts.any_named_app.
    - destruct Hrefs as [|[|name values] rest Ht _]; simpl;
        [reflexivity | discriminate |].
      unfold named. simpl. simpl in Ht. rewrite orb_false_r in Ht.
      rewrite Ht. reflexivity.
    - apply Forall_app in Hnames as [Hn _].
      exact (TagFacts.Forall_tag_name_in_nonempty _ _ Hn).
    - unfold create_index_tags.
      rewrite (TagFacts.any_named_app "a" (index_head _ _ _ _ _ _ _));
        [| repeat constructor; discriminate | reflexivity].
      apply (TagFacts.any_named_other optional_names);
        [apply TagFacts.index_optional_names | reflexivity]. }
  destruct (TagFacts.tag_dict_from_lookup _ ∅
              (TagFacts.Forall_tag_name_in_nonempty _ _ Hnames))
    as (d & Hd & Hlook).
  assert (Hkey : forall key,
            existsb (String.eqb key) optional_names = false ->
            existsb (String.eqb key) ["a"] = false ->
            d !! key
            = values_of key
                (index_head title d_tag publication_type auto_update language
                   version external) None).
  { intros key Hopt Ha.
    rewrite Hlook, lookup_empty. apply index_values_of; assumption. }
  pose proof (Hkey "d" eq_refl eq_refl) as Hd1.
  pose proof (Hkey "title" eq_refl eq_refl) as Hd2.
  pose proof (Hkey "auto-update" eq_refl eq_refl) as Hd3.
  pose proof (Hkey "m" eq_refl eq_refl) as Hd4.
  pose proof (Hkey "M" eq_refl eq_refl) as Hd5.
  simpl in Hd1, Hd2, Hd3, Hd4, Hd5. rewrite TagFacts.mime_index in Hd4.
  clear Hkey Hlook.
  remember (create_index_tags title d_tag author publication_type auto_update
              language version external metadata ++ refs) as tags.
  unfold validate_index_tags, tag_dict. rewrite Hd, Hany.
  unfold mbind, result_bind, check_required, check_value.
  rewrite Hd1, Hd2, Hd3, Hd4, Hd5. simpl. rewrite Hauto.
  rewrite (TagFacts.check_p_e_no_p _ _ _ _ Hnames eq_refl).
  destruct refs; reflexivity.
Qed.

Lemma for_each_wikilink links :
  Forall (fun link : gmap string string => is_Some (link !! "term")) links ->
  exists wl, for_each wikilink_tag links = Ok wl
             /\ Forall (fun t => tag_name_in ["wikilink"] t = true) wl.
Proof.
  induction 1 as [|link rest [term Hterm] _ (wl & IH & Hwl)];
    cbn [for_each].
  - exists []. split; [reflexivity | constructor].
  - rewrite IH. unfold wikilink_tag. rewrite Hterm.
    eexists. split; [reflexivity|]. constructor; [reflexivity | exact Hwl].
Qed.

(** The content validator accepts what [create_content_tags] builds. *)
Lemma validate_built_content title d_tag content_type language wikilinks :
  Forall (fun link : gmap string string => is_Some (link !! "term"))
    (default [] wikilinks) ->
  exists tags,
    create_content_tags title d_tag content_type language wikilinks = Ok tags
    /\ validate_content_tags tags = Ok (true, []).
Proof.
  intros Hterms.
  assert (Hbuilt : exists wl,
            create_content_tags title d_tag content_type language wikilinks
            = Ok ([ ["d"; d_tag]; ["title"; title];
                    ["m"; default (MIME_TYPES !!! "plain")
                            (MIME_TYPES !! content_type)];
                    ["M"; NOSTR_CATEGORIES !!! "content"];
                    ["l"; language +:+ ", ISO-639-1"] ] ++ wl)
            /\ Forall (fun t => tag_name_in ["wikilink"] t = true) wl).
  { unfold create_content_tags.
    destruct wikilinks as [[|link links]|];
      try (exists []; split; [reflexivity | constructor]).
    destruct (for_each_wikilink (link :: links) Hterms) as (wl & -> & Hwl).
    exists wl. split; [reflexivity | exact Hwl]. }
  destruct Hbuilt as (wl & -> & Hwl). eexists. split; [reflexivity|].
  set (fixed := [["d"; d_tag]; _; _; _; _]).
  assert (Hne : Forall (fun t : tag => t <> []) (fixed ++ wl)).
  { apply Forall_app. split; [repeat constructor; discriminate|].
    exact (TagFacts.Forall_tag_name_in_nonempty _ _ Hwl). }
  destruct (TagFacts.tag_dict_from_lookup _ ∅ Hne) as (d & Hd & Hlook).
  unfold validate_content_tags, tag_dict. rewrite Hd.
  unfold mbind, result_bind, check_required.
  rewrite !Hlook, !lookup_empty, !TagFacts.values_of_app.
  rewrite !(TagFacts.values_of_other ["wikilink"] _ wl _ Hwl) by reflexivity.
  reflexivity.
Qed.

End ValidateFacts.

(** C4, as amended: the content validator accepts every tag set
    [create_content_tags] builds (each wikilink carrying its term).  The
    index validator accepts a tag set [create_index_tags] built with an
    auto-update value of yes, ask or no once [add_reference_to_index] has
    added a reference to it; on the freshly built tag set, which holds no
    reference yet, it reports that one violation and nothing else. *)
Theorem built_tags_validate (title d_tag : string) (author : option string)
    (publication_type auto_update language version : string)
    (external : bool) (metadata : option Tags.Metadata)
    (content_type : string) (wikilinks : option (list (gmap string string)))
    (h : Py.store) (r : Py.loc) (section_event : Tags.Event)
    (ref_d_tag relay : string) :
  Tags.is_auto_update auto_update = true ->
  Forall (fun link : gmap string string => is_Some (link !! "term"))
    (default [] wikilinks) ->
  h !! r = Some (Tags.create_index_tags title d_tag author publication_type
                   auto_update language version external metadata) ->
  (exists tags,
     Tags.create_content_tags title d_tag content_type language wikilinks
     = Py.Ok tags
     /\ Tags.validate_content_tags tags = Py.Ok (true, []))
  /\ Tags.validate_index_tags
       (Tags.create_index_tags title d_tag author publication_type
          auto_update language version external metadata)
     = Py.Ok (false, ["Index must include at least one 'a' tag reference"])
  /\ (exists tags',
        Tags.add_reference_to_index r section_event ref_d_tag relay h
        = (Py.Ok r, <[r := tags']> h)
        /\ Tags.validate_index_tags tags' = Py.Ok (true, [])).
Proof.
  intros Hauto Hterms Hr. repeat split.
  - apply ValidateFacts.validate_built_content. exact Hterms.
  - pose proof (ValidateFacts.validate_built_index title d_tag author
                  publication_type auto_update language version external
                  metadata [] (List.Forall_nil _) Hauto) as H.
    rewrite app_nil_r in H. exact H.
  - eexists. split.
    + unfold Tags.add_reference_to_index, mbind, Py.St_bind, Py.append.
      rewrite Hr. reflexivity.
    + apply (ValidateFacts.validate_built_index title d_tag author
               publication_type auto_update language version external
               metadata [_]); [|exact Hauto].
      repeat constructor.
Qed.

Lemma built_tags_validate_witness :
  (exists tags,
     Tags.create_content_tags "Doc" "doc" "asciidoc" "en"
       (Some [{[ "term" := "nostr" ]}]) = Py.Ok tags
     /\ Tags.validate_content_tags tags = Py.Ok (true, []))
  /\ Tags.validate_index_tags
       (Tags.create_index_tags "Doc" "doc" (Some "Alice") "book" "yes" "en"
          "1" false None)
     = Py.Ok (false, ["Index must include at least one 'a' tag reference"])
  /\ (exists tags',
        Tags.add_reference_to_index 1%positive
          (Tags.mkEvent 30041 "pk" "id") "doc-a" "wss://relay"
          {[ 1%positive :=
               Tags.create_index_tags "Doc" "doc" (Some "Alice") "book" "yes"
                 "en" "1" false None ]}
        = (Py.Ok 1%positive,
           <[1%positive := tags']>
             {[ 1%positive :=
                  Tags.create_index_tags "Doc" "doc" (Some "Alice") "book"
                    "yes" "en" "1" false None ]})
        /\ Tags.validate_index_tags tags' = Py.Ok (true, [])).
Proof.
  apply (built_tags_validate "Doc" "doc" (Some "Alice") "book" "yes" "en" "1"
           false None "asciidoc" (Some [{[ "term" := "nostr" ]}])).
  - reflexivity.
  - repeat constructor. exists "nostr". reflexivity.
  - reflexivity.
Defined.

(** C4 as stated fails for index units: the tag set [create_index_tags]
    has just built, with every required field supplied, is not valid. *)
Lemma fresh_index_invalid_counterexample :
  Tags.validate_index_tags
    (Tags.create_index_tags "Doc" "doc" (Some "Alice") "book" "yes" "en" "1"
       false None)
  = Py.Ok (false, ["Index must include at least one 'a' tag reference"]).
Proof. vm_compute. reflexivity. Qed.

(** ** When the validators return *)

Module RobustFacts.
Import Py Spec Tags.

Lemma has_value_nonempty (tags : list tag) :
  Forall (fun t => 2 <= length t) tags -> Forall (fun t => t <> []) tags.
Proof.
  intros H. eapply Forall_impl; [exact H|].
  intros [|name values]; simpl; [lia | discriminate].
Qed.

(** When every tag has a value, so has every entry of the tag dict. *)
Lemma values_of_has_value key tags acc :
  Forall (fun t => 2 <= length t) tags ->
  (forall vs, acc = Some vs -> vs <> []) ->
  forall vs, values_of key tags acc = Some vs -> vs <> [].
Proof.
  intros H. revert acc.
  induction H as [|t rest Ht _ IH]; intros acc Hacc vs; simpl.
  - apply Hacc.
  - apply IH. destruct t as [|name [|v values]]; simpl in Ht; try lia.
    destruct (String.eqb name key); [|exact Hacc].
    intros vs' [= <-]. discriminate.
Qed.

Lemma any_named_total key tags :
  Forall (fun t => t <> []) tags -> returns (any_named key tags).
Proof.
  induction 1 as [|t rest Ht _ IH]; simpl; [eexists; reflexivity|].
  destruct t as [|name values]; [congruence|]. unfold named. simpl.
  destruct (String.eqb name key); [eexists; reflexivity | exact IH].
Qed.

Lemma check_p_e_total tags i p_index errors :
  Forall (fun t => t <> []) tags -> returns (check_p_e tags i p_index errors).
Proof.
  intros H. revert i p_index errors.
  induction H as [|t rest Ht _ IH]; intros i p_index errors; simpl;
    [eexists; reflexivity|].
  destruct t as [|name values]; [congruence|]. simpl.
  destruct (String.eqb name "p"); [apply IH|].
  destruct p_index as [p|]; [|apply IH].
  destruct (String.eqb name "E" && negb (i =? p + 1)%nat); apply IH.
Qed.

Lemma check_value_total d key ok msg errors :
  (forall vs, d !! key = Some vs -> vs <> []) ->
  returns (check_value d key ok msg errors).
Proof.
  intros H. unfold check_value.
  destruct (d !! key) as [[|v vs]|] eqn:E; simpl; try (eexists; reflexivity).
  destruct (H [] eq_refl eq_refl).
Qed.

(** The content validator returns on every list of tags that carry their
    names. *)
Lemma validate_content_tags_total tags :
  Forall (fun t => t <> []) tags -> returns (validate_content_tags tags).
Proof.
  intros H. unfold validate_content_tags, tag_dict.
  destruct (TagFacts.tag_dict_from_lookup tags ∅ H) as (d & -> & _).
  eexists. reflexivity.
Qed.

(** The index validator returns on every list of tags that carry a name
    and a value. *)
Lemma validate_index_tags_total tags :
  Forall (fun t => 2 <= length t) tags -> returns (validate_index_tags tags).
Proof.
  intros H. pose proof (has_value_nonempty tags H) as Hne.
  unfold validate_index_tags, tag_dict.
  destruct (TagFacts.tag_dict_from_lookup tags ∅ Hne) as (d & -> & Hlook).
  assert (Hval : forall key vs, d !! key = Some vs -> vs <> []).
  { intros key vs. rewrite Hlook, lookup_empty.
    apply values_of_has_value; [exact H | discriminate]. }
  unfold mbind at 1, result_bind at 1.
  destruct (check_value_total d "auto-update" is_auto_update
              "auto-update must be 'yes', 'ask', or 'no'"
              (check_required ["d"; "title"; "auto-update"; "m"; "M"] d [])
              (Hval "auto-update")) as [e1 ->].
  unfold mbind at 1, result_bind at 1.
  destruct (check_value_total d "m" (String.eqb "application/json")
              "Index events must have MIME type 'application/json'" e1
              (Hval "m")) as [e2 ->].
  unfold mbind at 1, result_bind at 1.
  destruct (any_named_total "a" tags Hne) as [b ->].
  unfold mbind at 1, result_bind at 1.
  destruct (check_p_e_total tags 0 None
              (if b then e2
               else e2 ++ ["Index must include at least one 'a' tag reference"])
              Hne) as [e3 ->].
  eexists. reflexivity.
Qed.

End RobustFacts.

(** C8: the index validator raises on a tag set whose auto-update tag has
    no value, where a list of violations was to be returned. *)
Theorem validate_index_tags_raises :
  Tags.validate_index_tags
    [["d"; "doc"]; ["title"; "Doc"]; ["auto-update"];
     ["m"; "application/json"]; ["M"; "meta-data/index/replaceable"];
     ["a"; "30041:pk:doc-a"; "wss://relay"; "id"]]
  = Py.Raise Py.IndexError.
Proof. vm_compute. reflexivity. Qed.

(** C5, as amended: every content unit the converter creates has the
    compound identifier, the slug of its group and the slug of its section
    joined by a hyphen, whether the group is the root or not;
    [create_section_tags] gives the compound slug exactly when it is asked
    for a namespaced identifier, and the section's own slug otherwise. *)
Theorem content_unit_identifier_compound
    (extract_images extract_wiki_links : string -> list string)
    (l1_section : Organizer.SectionGroup)
    (l2_section : Organizer.ContentSection) (author : option string)
    (doc_title section_title : string) (doc_author : option string)
    (namespace : bool) :
  Tags.content_unit_identifier extract_images extract_wiki_links
    l1_section l2_section author
  = Py.Ok (Slug.clean_tag (Organizer.g_title l1_section) +:+ "-"
           +:+ Slug.clean_tag (Organizer.s_title l2_section))
  /\ (Tags.create_section_tags doc_title section_title doc_author namespace
      ≫= Tags.first_d_tag)
     = Py.Ok (if namespace
              then Slug.clean_tag doc_title +:+ "-"
                   +:+ Slug.clean_tag section_title
              else Slug.clean_tag section_title).
Proof.
  split.
  - unfold Tags.content_unit_identifier, Tags.content_event_tags,
      Tags.create_section_tags, Tags.create_content_tags.
    destruct (Py.truthy author); reflexivity.
  - destruct namespace; reflexivity.
Qed.

(** C5 as stated fails: a child of the root group gets the compound
    identifier too, not the slug of its own title. *)
Lemma root_child_identifier_counterexample :
  Organizer.g_is_root (Organizer.mkGroup "Doc" "" true
                         [Organizer.mkContent "A" "body1"]) = true
  /\ Tags.content_unit_identifier (fun _ => []) (fun _ => [])
       (Organizer.mkGroup "Doc" "" true [Organizer.mkContent "A" "body1"])
       (Organizer.mkContent "A" "body1") None
     = Py.Ok "doc-a"
  /\ Slug.clean_tag "A" = "a".
Proof. repeat split. Qed.

(** * Further properties *)

(** ** The shape of slugs *)

Module SlugShape.
Import PyStr Slug Shape.

Lemma kept_not_space c :
  kept c = true -> is_space c = false -> is_word c = true \/ c = "-"%char.
Proof.
  unfold kept. intros H Hs. rewrite Hs, orb_false_r in H.
  apply orb_prop in H as [H|H]; [left; exact H | right].
  apply SlugFacts.is_hyphen_eq. exact H.
Qed.

Lemma lower_keeps_non_word c : is_word c = false -> is_word (lower_char c) = false.
Proof. each_char c. Qed.

Lemma space_or_hyphen_lower c :
  is_word c = false -> kept (lower_char c) = true -> is_sep (lower_char c) = true.
Proof. each_char c. Qed.

(** What [clean_chars] returns is a segment of the collapsed text. *)
Lemma clean_chars_segment s :
  exists pre post,
    collapse (strip_special (lower s)) = pre ++ clean_chars s ++ post.
Proof. apply SlugFacts.strip_by_segment. Qed.

Lemma clean_chars_settled s : Forall settled (clean_chars s).
Proof.
  destruct (clean_chars_segment s) as (pre & post & Hseg).
  pose proof (SlugFacts.collapse_from_settled false _
                (SlugFacts.strip_special_lower_settled s)) as H.
  fold (collapse (strip_special (lower s))) in H. rewrite Hseg in H.
  apply Forall_app in H as [_ H]. apply Forall_app in H as [H _]. exact H.
Qed.

Lemma clean_chars_normal s : normal_from false (clean_chars s) = true.
Proof.
  destruct (clean_chars_segment s) as (pre & post & Hseg).
  pose proof (SlugFacts.collapse_from_normal false (strip_special (lower s)))
    as H.
  fold (collapse (strip_special (lower s))) in H. rewrite Hseg in H.
  apply SlugFacts.normal_from_app in H as [_ H].
  apply SlugFacts.normal_from_app in H as [H _]. exact H.
Qed.

Lemma normal_from_no_space b l :
  normal_from b l = true -> Forall (fun c => is_space c = false) l.
Proof.
  revert b. induction l as [|c l IH]; intros b; simpl; [constructor|].
  destruct (is_hyphen c) eqn:Hh.
  - intros [_ H]%andb_prop. constructor; [|exact (IH _ H)].
    rewrite (SlugFacts.is_hyphen_eq c Hh). reflexivity.
  - intros [Hs H]%andb_prop. constructor; [|exact (IH _ H)].
    apply negb_true_iff. exact Hs.
Qed.

Lemma normal_from_no_double b (l : list ascii) i :
  normal_from b l = true ->
  l !! i = Some "-"%char -> l !! S i <> Some "-"%char.
Proof.
  revert b i. induction l as [|c l IH]; intros b i; simpl; [discriminate|].
  destruct i as [|i].
  - simpl. intros H [= ->]. change (is_hyphen "-") with true in H.
    apply andb_prop in H as [_ H].
    destruct l as [|c' l]; simpl; [discriminate|].
    intros [= ->]. simpl in H. change (is_hyphen "-") with true in H.
    discriminate.
  - simpl. destruct (is_hyphen c); intros [_ H]%andb_prop; exact (IH _ _ H).
Qed.

Lemma strip_by_head p l : head_kept p (PyStr.strip_by p l).
Proof.
  unfold strip_by.
  set (z := lstrip_by p l).
  assert (Hz : head_kept p z) by apply SlugFacts.lstrip_by_head.
  destruct (SlugFacts.lstrip_by_suffix p (rev z)) as [post Hpost].
  apply (SlugFacts.head_kept_app_l p _ (rev post)).
  rewrite <- rev_app_distr, <- Hpost, rev_involutive. exact Hz.
Qed.

Lemma strip_by_last p l : head_kept p (rev (PyStr.strip_by p l)).
Proof.
  unfold strip_by. rewrite rev_involutive. apply SlugFacts.lstrip_by_head.
Qed.

Lemma head_kept_hyphen l : head_kept is_hyphen l -> head l <> Some "-"%char.
Proof. destruct l as [|c l]; simpl; [discriminate|]. intros H [= ->]. discriminate. Qed.

(** Separators alone collapse to one hyphen at most. *)
Lemma collapse_from_seps_in_run l :
  Forall (fun c => is_sep c = true) l -> collapse_from true l = [].
Proof. induction 1 as [|c l Hc _ IH]; simpl; [|rewrite Hc]; auto. Qed.

Lemma collapse_seps l :
  Forall (fun c => is_sep c = true) l ->
  collapse l = [] \/ collapse l = ["-"%char].
Proof.
  unfold collapse. destruct 1 as [|c l Hc Hl]; simpl; [auto|].
  rewrite Hc, (collapse_from_seps_in_run l Hl). auto.
Qed.

End SlugShape.

(** X1: a slug is made of hyphens and of word characters in lower case; it
    holds no white space, neither starts nor ends with a hyphen, and never
    has two hyphens in a row. *)
Theorem clean_tag_shape (text : string) :
  let slug := list_ascii_of_string (Slug.clean_tag text) in
  Forall Shape.slug_char slug
  /\ Forall (fun c => PyStr.is_space c = false) slug
  /\ head slug <> Some "-"%char
  /\ last slug <> Some "-"%char
  /\ forall i, slug !! i = Some "-"%char -> slug !! S i <> Some "-"%char.
Proof.
  unfold Slug.clean_tag. rewrite list_ascii_of_string_of_list_ascii.
  set (s := list_ascii_of_string text). cbv zeta.
  pose proof (SlugShape.clean_chars_settled s) as Hset.
  pose proof (SlugShape.clean_chars_normal s) as Hnorm.
  pose proof (SlugShape.normal_from_no_space _ _ Hnorm) as Hsp.
  repeat split.
  - rewrite List.Forall_forall in *. intros c Hc.
    destruct (Hset c Hc) as [Hl Hk]. split; [|exact Hl].
    apply SlugShape.kept_not_space; [exact Hk | exact (Hsp c Hc)].
  - exact Hsp.
  - apply SlugShape.head_kept_hyphen. apply SlugShape.strip_by_head.
  - intros [l' Hl]%last_Some.
    pose proof (SlugShape.strip_by_last Slug.is_hyphen
                  (Slug.collapse (Slug.strip_special (Slug.lower s)))) as H.
    fold (Slug.strip_hyphen (Slug.collapse (Slug.strip_special (Slug.lower s))))
      in H.
    fold (Slug.clean_chars s) in H. rewrite Hl, rev_app_distr in H.
    simpl in H. discriminate.
  - intros i. apply (SlugShape.normal_from_no_double _ _ _ Hnorm).
Qed.

(** X2: a text without any word character, the empty text among them, has
    the empty slug. *)
Theorem clean_tag_without_word_chars (text : string) :
  Forall (fun c => Slug.is_word c = false) (list_ascii_of_string text) ->
  Slug.clean_tag text = "".
Proof.
  intros Hnw. unfold Slug.clean_tag, Slug.clean_chars.
  set (s := list_ascii_of_string text) in *.
  assert (Hsep : Forall (fun c => Slug.is_sep c = true)
                   (Slug.strip_special (Slug.lower s))).
  { unfold Slug.strip_special, Slug.lower.
    induction Hnw as [|c l Hc _ IH]; simpl; [constructor|].
    destruct (Slug.kept (Slug.lower_char c)) eqn:K; [|exact IH].
    constructor; [|exact IH].
    apply SlugShape.space_or_hyphen_lower; assumption. }
  destruct (SlugShape.collapse_seps _ Hsep) as [-> | ->]; reflexivity.
Qed.

Lemma clean_tag_without_word_chars_witness : Slug.clean_tag "?! -- ..." = "".
Proof. apply clean_tag_without_word_chars. repeat constructor. Defined.

(** ** More on the section organiser *)

Module OrganizerMore.
Import Parser Organizer Spec Shape.

Lemma has_l1_sections_headings sections :
  has_l1_sections sections = true -> l1_headings sections <> [].
Proof.
  induction sections as [|s rest IH]; simpl; [discriminate|].
  unfold is_l1. destruct (h_level s =? 1)%Z; simpl; [discriminate | exact IH].
Qed.

Lemma child_titles_app g1 g2 :
  child_titles (g1 ++ g2) = child_titles g1 ++ child_titles g2.
Proof. unfold child_titles. rewrite map_app, concat_app. reflexivity. Qed.

Lemma child_titles_flush_some org g cur f :
  child_titles (flush (mkOrg org (Some g) cur f))
  = child_titles org ++ map s_title (g_l2_sections g)
    ++ match cur with Some c => [s_title c] | None => [] end.
Proof.
  unfold flush. simpl. rewrite child_titles_app. unfold child_titles at 2.
  simpl. rewrite app_nil_r, OrganizerFacts.map_append_if. reflexivity.
Qed.

(** The children the loop hands out: those of the state it starts from,
    then one for every level-2 heading that has a group to go to. *)
Lemma organize_loop_children sections st :
  child_titles (flush (organize_loop sections st))
  = child_titles (flush st)
    ++ map h_title (adopted (Py.present (current_l1 st)) sections).
Proof.
  unfold organize_loop. revert st.
  induction sections as [|s rest IH]; intros st; simpl.
  - rewrite app_nil_r. reflexivity.
  - rewrite IH. clear IH. unfold organize_step, is_l1, is_l2.
    destruct st as [org l1 cur f]. simpl.
    destruct (h_level s =? 1)%Z eqn:E1.
    + simpl. f_equal. destruct l1 as [g|]; simpl.
      * rewrite child_titles_flush_some. simpl.
        unfold flush. simpl. rewrite !child_titles_app.
        unfold child_titles at 2 4. simpl.
        rewrite !app_nil_r, OrganizerFacts.map_append_if. reflexivity.
      * rewrite child_titles_flush_some. simpl.
        unfold flush. simpl. rewrite !app_nil_r. reflexivity.
    + destruct l1 as [g|]; simpl.
      * destruct (h_level s =? 2)%Z eqn:E2; simpl.
        -- rewrite !child_titles_flush_some. simpl.
           rewrite OrganizerFacts.map_append_if, <- !app_assoc. reflexivity.
        -- destruct cur as [c|]; [destruct (h_level s >? 2)%Z|]; simpl;
             rewrite ?child_titles_flush_some; reflexivity.
      * rewrite andb_false_r.
        destruct cur as [c|]; [destruct (h_level s >? 2)%Z|]; reflexivity.
Qed.

Lemma adopted_open sections : adopted true sections = l2_headings sections.
Proof.
  induction sections as [|s rest IH]; simpl; [reflexivity|].
  unfold is_l1, is_l2.
  destruct (h_level s =? 1)%Z eqn:E1.
  - apply Z.eqb_eq in E1. rewrite E1. simpl. exact IH.
  - destruct (h_level s =? 2)%Z; simpl; rewrite IH; reflexivity.
Qed.

Lemma adopted_closed sections :
  adopted false sections = l2_headings (from_first_l1 sections).
Proof.
  induction sections as [|s rest IH]; simpl; [reflexivity|].
  destruct (is_l1 s) eqn:E1.
  - rewrite adopted_open. simpl. unfold is_l2 at 1.
    unfold is_l1 in E1. apply Z.eqb_eq in E1. rewrite E1. reflexivity.
  - rewrite andb_false_r. exact IH.
Qed.

(** With a group open and no further level-1 heading, the loop of
    [organize_sections] does to the group's children what the loop of
    [_group_l2_sections] does. *)
Lemma organize_loop_as_group_l2 sections org g cur f :
  Forall (fun s => h_level s <> 1%Z) sections ->
  organize_loop sections (mkOrg org (Some g) cur f)
  = let '(l2, cur') := group_l2_loop sections (g_l2_sections g) cur in
    mkOrg org (Some (mkGroup (g_title g) (g_content g) (g_is_root g) l2))
      cur' f.
Proof.
  unfold organize_loop. intros H. revert g cur.
  induction H as [|s rest Hs _ IH]; intros g cur; simpl.
  - destruct g. reflexivity.
  - unfold organize_step at 2. simpl.
    apply Z.eqb_neq in Hs. rewrite Hs.
    destruct (h_level s =? 2)%Z.
    + rewrite IH. reflexivity.
    + destruct cur as [c|]; [destruct (h_level s >? 2)%Z|]; rewrite IH;
        reflexivity.
Qed.

End OrganizerMore.

(** X3: whatever the headings, [organize_sections] returns at least one
    group; the first group is the root and no other group is. *)
Theorem organize_sections_root_first (doc_title : string)
    (sections : list Parser.HeadingNode) :
  exists g rest,
    Organizer.organize_sections doc_title sections = g :: rest
    /\ Organizer.g_is_root g = true
    /\ Forall (fun g' => Organizer.g_is_root g' = false) rest.
Proof.
  unfold Organizer.organize_sections.
  destruct (Organizer.has_l1_sections sections) eqn:Hl1; simpl.
  - set (init := Organizer.mkOrg [] None None true).
    destruct (OrganizerFacts.organize_loop_groups sections init) as [_ Hr].
    change (Spec.flush init) with (@nil Organizer.SectionGroup) in Hr.
    simpl in Hr. fold (Spec.flush (Organizer.organize_loop sections init)).
    pose proof (OrganizerMore.has_l1_sections_headings sections Hl1) as Hne.
    destruct (Spec.l1_headings sections) as [|h hs]; [congruence|].
    simpl in Hr.
    destruct (Spec.flush (Organizer.organize_loop sections init))
      as [|g rest]; [discriminate|].
    simpl in Hr. injection Hr as Hg Hrest.
    exists g, rest. repeat split; [exact Hg|].
    clear -Hrest. revert hs Hrest.
    induction rest as [|g' rest IH]; intros hs Hrest; [constructor|].
    destruct hs as [|h' hs]; [discriminate|]. simpl in Hrest.
    injection Hrest as Hg' Hrest. constructor; [exact Hg' | exact (IH _ Hrest)].
  - eexists _, []. repeat split. constructor.
Qed.

(** X4: when the document has a level-1 heading, the children of the
    groups, taken group after group, are the level-2 headings that come
    after the first level-1 heading, in document order; a level-2 heading
    before it is dropped. *)
Theorem organize_sections_children (doc_title : string)
    (sections : list Parser.HeadingNode) :
  Exists (fun s => Parser.h_level s = 1%Z) sections ->
  Shape.child_titles (Organizer.organize_sections doc_title sections)
  = map Parser.h_title (Spec.l2_headings (Shape.from_first_l1 sections)).
Proof.
  intros Hl1.
  assert (Hhas : Organizer.has_l1_sections sections = true).
  { unfold Organizer.has_l1_sections. apply existsb_exists.
    apply List.Exists_exists in Hl1 as (s & Hin & Hs).
    exists s. split; [exact Hin | apply Z.eqb_eq; exact Hs]. }
  unfold Organizer.organize_sections. rewrite Hhas. simpl.
  set (init := Organizer.mkOrg [] None None true).
  fold (Spec.flush (Organizer.organize_loop sections init)).
  rewrite OrganizerMore.organize_loop_children.
  simpl. apply f_equal. apply OrganizerMore.adopted_closed.
Qed.

Lemma organize_sections_children_witness :
  Shape.child_titles
    (Organizer.organize_sections "Doc"
       [Parser.mkHeading "Orphan" 2 "lost"; Parser.mkHeading "Part I" 1 "";
        Parser.mkHeading "A" 2 "a"; Parser.mkHeading "Part II" 1 "";
        Parser.mkHeading "B" 2 "b"])
  = map Parser.h_title
      (Spec.l2_headings
         (Shape.from_first_l1
            [Parser.mkHeading "Orphan" 2 "lost"; Parser.mkHeading "Part I" 1 "";
             Parser.mkHeading "A" 2 "a"; Parser.mkHeading "Part II" 1 "";
             Parser.mkHeading "B" 2 "b"])).
Proof.
  apply organize_sections_children.
  apply Exists_cons_tl, Exists_cons_hd. reflexivity.
Defined.

(** X5: a document that opens with its only level-1 heading is organised
    into one root group with that heading's title and text, and with the
    children [_group_l2_sections] builds from the headings after it: the
    same children as under a root made from the document title. *)
Theorem organize_sections_single_l1 (doc_title title content : string)
    (sections : list Parser.HeadingNode) :
  Forall (fun s => Parser.h_level s <> 1%Z) sections ->
  Organizer.organize_sections doc_title
    (Parser.mkHeading title 1 content :: sections)
  = [Organizer.mkGroup title content true
       (Organizer._group_l2_sections sections)].
Proof.
  intros Hno.
  assert (Heq : Organizer.organize_sections doc_title
                  (Parser.mkHeading title 1 content :: sections)
                = Spec.flush
                    (Organizer.organize_loop sections
                       (Organizer.mkOrg []
                          (Some (Organizer.mkGroup title content true []))
                          None false))) by reflexivity.
  rewrite Heq, (OrganizerMore.organize_loop_as_group_l2 _ _ _ _ _ Hno).
  unfold Organizer._group_l2_sections. simpl.
  destruct (Organizer.group_l2_loop sections [] None) as [l2 cur].
  reflexivity.
Qed.

Lemma organize_sections_single_l1_witness :
  Organizer.organize_sections "Doc"
    (Parser.mkHeading "Book" 1 "preface"
       :: [Parser.mkHeading "A" 2 "a"; Parser.mkHeading "A.1" 3 "deep"])
  = [Organizer.mkGroup "Book" "preface" true
       (Organizer._group_l2_sections
          [Parser.mkHeading "A" 2 "a"; Parser.mkHeading "A.1" 3 "deep"])].
Proof.
  apply organize_sections_single_l1. repeat constructor; simpl; lia.
Defined.

(** ** More on the heading parser *)

Module ParserMore.
Import PyStr Parser Headings.

Lemma colon_line_no_heading line :
  startswith ":" line = true -> startswith "=" line = false.
Proof.
  unfold startswith.
  destruct line as [|c rest]; cbn [String.prefix]; [intros H; discriminate H|].
  destruct (ascii_dec ":" c) as [<-|]; [|intros H; discriminate H].
  intros _. destruct (ascii_dec "=" ":") as [H|]; [discriminate H | reflexivity].
Qed.

Lemma collect_content_body rest n content :
  collect_content rest n content
  = (content ++ body rest, n + length (body rest)).
Proof.
  revert n content. induction rest as [|line rest IH]; intros n content; simpl.
  - rewrite app_nil_r. f_equal. lia.
  - destruct (startswith "=" line); simpl.
    + rewrite app_nil_r. f_equal. lia.
    + rewrite IH, <- app_assoc. simpl. f_equal. lia.
Qed.

(** The lines of a body hold no heading. *)
Lemma sections_of_after_body rest :
  sections_of (drop (length (body rest)) rest) = sections_of rest.
Proof.
  induction rest as [|line rest IH]; [reflexivity|].
  cbn [body]. destruct (startswith "=" line) eqn:E.
  - reflexivity.
  - cbn [length drop sections_of]. unfold is_section_heading.
    rewrite E. exact IH.
Qed.

Lemma parse_adoc_section_heading lines start line :
  lines !! start = Some line ->
  startswith "=" line = true ->
  parse_adoc_section lines start
  = (mkHeading (heading_title line) (heading_level line)
       (strip (join nl (body (drop (S start) lines)))),
     S start + length (body (drop (S start) lines))).
Proof.
  intros Hl Hs. unfold parse_adoc_section. rewrite Hl. simpl. rewrite Hs.
  rewrite collect_content_body. reflexivity.
Qed.

(** The main loop adds the sections of the lines it has still to read. *)
Lemma parse_loop_sections fuel lines current_line sections :
  length lines - current_line < fuel ->
  parse_loop fuel lines current_line sections
  = Some (sections ++ sections_of (drop current_line lines)).
Proof.
  revert current_line sections.
  induction fuel as [|fuel IH]; intros cur secs Hf; [lia|].
  cbn [parse_loop].
  destruct (lines !! cur) as [line|] eqn:Hl.
  - assert (Hlt : cur < length lines) by (apply lookup_lt_Some in Hl; exact Hl).
    rewrite (drop_S _ _ _ Hl). cbn [sections_of]. unfold is_section_heading.
    destruct (startswith "=" line) eqn:Hs; [|apply IH; lia].
    destruct (2 <=? line_level line)%nat; [|apply IH; lia].
    rewrite (parse_adoc_section_heading lines cur line Hl Hs).
    rewrite IH by lia. cbn [andb]. rewrite <- app_assoc. cbn [app].
    rewrite <- drop_drop, sections_of_after_body. reflexivity.
  - apply lookup_ge_None in Hl. rewrite drop_ge by exact Hl.
    rewrite app_nil_r. reflexivity.
Qed.

(** The attribute lines skipped at the start hold no heading. *)
Lemma skip_metadata_sections lines n :
  exists k, skip_metadata lines n = n + k
            /\ sections_of (drop k lines) = sections_of lines.
Proof.
  revert n. induction lines as [|line rest IH]; intros n; simpl.
  - exists 0. split; [lia | reflexivity].
  - destruct (startswith ":" line) eqn:E.
    + destruct (IH (S n)) as (k & Hk & Hsec). exists (S k).
      split; [lia|]. simpl. rewrite Hsec. unfold is_section_heading.
      rewrite (colon_line_no_heading line E). reflexivity.
    + exists 0. split; [lia | reflexivity].
Qed.

Lemma parse_adoc_file_sections lines :
  parse_adoc_file lines
  = Some (mkDocument (find_title lines) (sections_of lines)).
Proof.
  unfold parse_adoc_file.
  destruct (skip_metadata_sections lines 0) as (k & Hk & Hsec).
  rewrite parse_loop_sections by lia.
  rewrite Hk, Nat.add_0_l, Hsec. reflexivity.
Qed.

Lemma sections_of_headings lines :
  map (fun s => (h_title s, h_level s)) (sections_of lines)
  = map (fun line => (heading_title line, heading_level line))
      (List.filter is_section_heading lines).
Proof.
  induction lines as [|line rest IH]; simpl; [reflexivity|].
  destruct (is_section_heading line); simpl; rewrite IH; reflexivity.
Qed.

Lemma sections_of_levels lines :
  Forall (fun line => is_section_heading line = true ->
                      heading_level line <> 1%Z) lines ->
  Forall (fun s => h_level s <> 1%Z) (sections_of lines).
Proof.
  induction 1 as [|line rest Hline _ IH]; simpl; [constructor|].
  destruct (is_section_heading line); [|exact IH].
  constructor; [apply Hline; reflexivity | exact IH].
Qed.

End ParserMore.

(** X6: [parse_adoc_file] returns, for every input, one section for each
    line that starts with ["="] and has a level of 2 or more, in document
    order and with none left out: its title and level are read off that
    line, its content is the stripped text of the lines up to the next line
    that starts with ["="]. *)
Theorem parse_adoc_file_one_section_per_heading (lines : list string) :
  exists doc,
    Parser.parse_adoc_file lines = Some doc
    /\ Parser.doc_sections doc = Headings.sections_of lines
    /\ map (fun s => (Parser.h_title s, Parser.h_level s))
         (Parser.doc_sections doc)
       = map (fun line => (Headings.heading_title line,
                           Headings.heading_level line))
           (List.filter Parser.is_section_heading lines).
Proof.
  eexists. split; [apply ParserMore.parse_adoc_file_sections|].
  split; [reflexivity | apply ParserMore.sections_of_headings].
Qed.

(** X7: what the parser returns is organised into a single root group
    named after the document title, whatever level-1 headings the document
    has, as long as no section heading comes down to level 1 once its line
    is stripped: the parser keeps no level-1 heading among the sections. *)
Theorem parsed_document_single_root (lines : list string) :
  Forall (fun line => Parser.is_section_heading line = true ->
                      Headings.heading_level line <> 1%Z) lines ->
  exists doc,
    Parser.parse_adoc_file lines = Some doc
    /\ Organizer.organize_sections (Parser.doc_title doc)
         (Parser.doc_sections doc)
       = [Organizer.mkGroup (Parser.find_title lines) "" true
            (Organizer._group_l2_sections (Parser.doc_sections doc))].
Proof.
  intros Hlev. eexists. split; [apply ParserMore.parse_adoc_file_sections|].
  simpl. unfold Organizer.organize_sections.
  rewrite OrganizerFacts.has_l1_sections_false
    by (apply ParserMore.sections_of_levels; exact Hlev).
  reflexivity.
Qed.

Lemma parsed_document_single_root_witness :
  exists doc,
    Parser.parse_adoc_file
      ["= Doc" +:+ PyStr.nl; "= Part I" +:+ PyStr.nl; "== A" +:+ PyStr.nl;
       "body" +:+ PyStr.nl; "= Part II" +:+ PyStr.nl; "== B" +:+ PyStr.nl]
    = Some doc
    /\ Organizer.organize_sections (Parser.doc_title doc)
         (Parser.doc_sections doc)
       = [Organizer.mkGroup
            (Parser.find_title
               ["= Doc" +:+ PyStr.nl; "= Part I" +:+ PyStr.nl;
                "== A" +:+ PyStr.nl; "body" +:+ PyStr.nl;
                "= Part II" +:+ PyStr.nl; "== B" +:+ PyStr.nl]) "" true
            (Organizer._group_l2_sections (Parser.doc_sections doc))].
Proof.
  apply parsed_document_single_root.
  repeat constructor; vm_compute; discriminate.
Defined.

(** ** More on the validators *)

Module ValidatorMore.
Import Py Spec Tags TagSpec.

Lemma tag_dict_from_nonempty tags d d' :
  tag_dict_from tags d = Ok d' -> Forall (fun t => t <> []) tags.
Proof.
  revert d. induction tags as [|t rest IH]; intros d; simpl; [constructor|].
  destruct t as [|name values]; [discriminate|].
  intros H. constructor; [discriminate | exact (IH _ H)].
Qed.

Lemma values_of_present key tags acc :
  present acc = true -> present (values_of key tags acc) = true.
Proof.
  revert acc. induction tags as [|t rest IH]; intros acc Hacc; simpl; [exact Hacc|].
  apply IH. destruct t as [|name values]; [exact Hacc|].
  destruct (String.eqb name key); [reflexivity | exact Hacc].
Qed.

Lemma values_of_named key tags acc vs :
  values_of key tags acc = Some vs -> acc = Some vs \/ has_tag key tags.
Proof.
  revert acc. induction tags as [|t rest IH]; intros acc; simpl; [auto|].
  intros H. apply IH in H as [H|H]; [|right; apply Exists_cons_tl; exact H].
  destruct t as [|name values]; [auto|].
  destruct (String.eqb name key) eqn:E; [|auto].
  right. apply Exists_cons_hd. apply String.eqb_eq in E. subst. reflexivity.
Qed.

Lemma has_tag_values_of key tags acc :
  has_tag key tags -> present (values_of key tags acc) = true.
Proof.
  intros H. revert acc. induction H as [t rest Ht | t rest _ IH]; intros acc.
  - simpl. apply values_of_present.
    destruct t as [|name values]; [discriminate|].
    injection Ht as ->. rewrite String.eqb_refl. reflexivity.
  - simpl. apply IH.
Qed.

Lemma values_of_absent key tags acc :
  ~ has_tag key tags -> values_of key tags acc = acc.
Proof.
  revert acc. induction tags as [|t rest IH]; intros acc Hno; simpl;
    [reflexivity|].
  rewrite IH by (intros H; apply Hno; apply Exists_cons_tl; exact H).
  destruct t as [|name values]; [reflexivity|].
  destruct (String.eqb name key) eqn:E; [|reflexivity].
  destruct Hno. apply Exists_cons_hd. apply String.eqb_eq in E.
  subst. reflexivity.
Qed.

Lemma any_named_true key tags :
  any_named key tags = Ok true -> has_tag key tags.
Proof.
  induction tags as [|t rest IH]; simpl; [discriminate|].
  destruct t as [|name values]; [discriminate|]. unfold named. simpl.
  destruct (String.eqb name key) eqn:E.
  - intros _. apply Exists_cons_hd. apply String.eqb_eq in E.
    subst. reflexivity.
  - intros H. apply Exists_cons_tl. exact (IH H).
Qed.

Lemma has_tag_any_named key tags :
  Forall (fun t => t <> []) tags -> has_tag key tags ->
  any_named key tags = Ok true.
Proof.
  intros Hne H. induction H as [t rest Ht | t rest _ IH].
  - destruct t as [|name values]; [discriminate|]. injection Ht as ->.
    simpl. unfold named. simpl. rewrite String.eqb_refl. reflexivity.
  - apply Forall_cons in Hne as [Ht Hrest].
    destruct t as [|name values]; [congruence|]. simpl. unfold named. simpl.
    destruct (String.eqb name key); [reflexivity | exact (IH Hrest)].
Qed.

(** The violations only grow from check to check. *)
Lemma check_required_extends required d errors :
  exists more, check_required required d errors = errors ++ more.
Proof.
  revert errors. induction required as [|req rest IH]; intros errors; simpl.
  - exists []. rewrite app_nil_r. reflexivity.
  - destruct (present (d !! req)); [apply IH|].
    destruct (IH (errors ++ ["Missing required tag: " +:+ req])) as [more ->].
    rewrite <- app_assoc. eauto.
Qed.

Lemma check_required_nil required d errors :
  check_required required d errors = [] ->
  errors = [] /\ Forall (fun req => present (d !! req) = true) required.
Proof.
  revert errors. induction required as [|req rest IH]; intros errors; simpl.
  - intros ->. split; [reflexivity | constructor].
  - destruct (present (d !! req)) eqn:E.
    + intros H. destruct (IH _ H) as [-> Hrest]. split; [reflexivity|].
      constructor; assumption.
    + intros H. destruct (IH _ H) as [Habs _].
      destruct errors; discriminate Habs.
Qed.

Lemma check_required_missing required d errors req :
  In req required -> d !! req = None ->
  In ("Missing required tag: " +:+ req) (check_required required d errors).
Proof.
  revert errors. induction required as [|r rest IH]; intros errors; simpl;
    [tauto|].
  intros [-> | Hin] Hnone.
  - rewrite Hnone. simpl.
    destruct (check_required_extends rest d
                (errors ++ ["Missing required tag: " +:+ req])) as [more ->].
    apply in_or_app. left. apply in_or_app. right. left. reflexivity.
  - apply IH; assumption.
Qed.

Lemma check_value_extends d key ok msg errors errors' :
  check_value d key ok msg errors = Ok errors' ->
  exists more, errors' = errors ++ more.
Proof.
  unfold check_value. destruct (d !! key) as [[|v vs]|]; simpl;
    try discriminate.
  - intros [= <-]. destruct (ok v); [exists []; rewrite app_nil_r|]; eauto.
  - intros [= <-]. exists []. rewrite app_nil_r. reflexivity.
Qed.

Lemma check_value_nil d key ok msg errors :
  check_value d key ok msg errors = Ok [] ->
  errors = []
  /\ forall vs, d !! key = Some vs -> exists v rest, vs = v :: rest /\ ok v = true.
Proof.
  unfold check_value. destruct (d !! key) as [[|v vs]|]; simpl;
    try discriminate.
  - destruct (ok v) eqn:E.
    + intros [= ->]. split; [reflexivity|]. intros vs' [= <-]. eauto.
    + intros [= H]. destruct errors; discriminate H.
  - intros [= ->]. split; [reflexivity | discriminate].
Qed.

Lemma check_p_e_extends tags i p_index errors errors' :
  check_p_e tags i p_index errors = Ok errors' ->
  exists more, errors' = errors ++ more.
Proof.
  revert i p_index errors.
  induction tags as [|t rest IH]; intros i p_index errors; simpl.
  - intros [= <-]. exists []. rewrite app_nil_r. reflexivity.
  - destruct t as [|name values]; [discriminate|]. simpl.
    destruct (String.eqb name "p"); [apply IH|].
    destruct p_index as [p|]; [|apply IH].
    destruct (String.eqb name "E" && negb (i =? p + 1)%nat); [|apply IH].
    intros H. apply IH in H as [more ->]. rewrite <- app_assoc. eauto.
Qed.

(** Without a p tag and without an E tag the p/E loop reports nothing,
    whatever p tag came before. *)
Lemma check_p_e_quiet names tags i p_index errors :
  Forall (fun t => tag_name_in names t = true) tags ->
  existsb (String.eqb "p") names = false ->
  existsb (String.eqb "E") names = false ->
  check_p_e tags i p_index errors = Ok errors.
Proof.
  intros Hin Hp He. revert i.
  induction Hin as [|t rest Ht _ IH]; intros i; simpl; [reflexivity|].
  destruct t as [|name values]; [discriminate|]. simpl.
  rewrite (TagFacts.tag_name_in_other names "p" name values Ht Hp).
  rewrite (TagFacts.tag_name_in_other names "E" name values Ht He).
  destruct p_index; apply IH.
Qed.

(** What is enough for the index validator to accept a tag list. *)
Lemma validate_index_tags_accepts tags au au_rest m_rest :
  Forall (fun t => t <> []) tags ->
  Forall (fun req => has_tag req tags) index_required ->
  values_of "auto-update" tags None = Some (au :: au_rest) ->
  is_auto_update au = true ->
  values_of "m" tags None = Some ("application/json" :: m_rest) ->
  has_tag "a" tags ->
  check_p_e tags 0 None [] = Ok [] ->
  validate_index_tags tags = Ok (true, []).
Proof.
  intros Hne Hreq Hau Hok Hm Ha Hpe.
  destruct (TagFacts.tag_dict_from_lookup tags ∅ Hne) as (d & Hd & Hlook).
  unfold validate_index_tags, tag_dict. rewrite Hd.
  rewrite (has_tag_any_named "a" tags Hne Ha).
  assert (Hreqs : check_required ["d"; "title"; "auto-update"; "m"; "M"] d []
                  = []).
  { unfold index_required in Hreq.
    repeat (apply Forall_cons in Hreq as [?H Hreq]).
    simpl. rewrite !Hlook, !lookup_empty.
    rewrite !has_tag_values_of by assumption. reflexivity. }
  unfold mbind, result_bind. rewrite Hreqs. unfold check_value.
  rewrite !Hlook, !lookup_empty, Hau, Hm. simpl. rewrite Hok, Hpe.
  reflexivity.
Qed.

End ValidatorMore.

(** X8: the index validator is sound.  When it answers valid, the list of
    violations is empty, the tags d, title, auto-update, m and M are there
    together with at least one a tag, the last auto-update tag says yes,
    ask or no, and the last m tag says application/json. *)
Theorem validate_index_tags_sound (tags : list tag) (errors : list string) :
  Tags.validate_index_tags tags = Py.Ok (true, errors) ->
  errors = []
  /\ Forall (fun name => TagSpec.has_tag name tags)
       ["d"; "title"; "auto-update"; "m"; "M"; "a"]
  /\ (exists v rest, Spec.values_of "auto-update" tags None = Some (v :: rest)
                     /\ Tags.is_auto_update v = true)
  /\ (exists rest, Spec.values_of "m" tags None
                   = Some ("application/json" :: rest)).
Proof.
  unfold Tags.validate_index_tags, Tags.tag_dict. intros H.
  destruct (Tags.tag_dict_from tags ∅) as [d|] eqn:Hd; [|discriminate].
  pose proof (ValidatorMore.tag_dict_from_nonempty _ _ _ Hd) as Hne.
  destruct (TagFacts.tag_dict_from_lookup tags ∅ Hne) as (d' & Hd' & Hlook).
  rewrite Hd in Hd'. injection Hd' as <-.
  unfold mbind at 1, Py.result_bind at 1 in H.
  set (e0 := Tags.check_required _ d []) in H.
  destruct (Tags.check_value d "auto-update" _ _ e0) as [e1|] eqn:H1;
    [|discriminate].
  unfold mbind at 1, Py.result_bind at 1 in H.
  destruct (Tags.check_value d "m" _ _ e1) as [e2|] eqn:H2; [|discriminate].
  unfold mbind at 1, Py.result_bind at 1 in H.
  destruct (Tags.any_named "a" tags) as [b|] eqn:Ha; [|discriminate].
  unfold mbind at 1, Py.result_bind at 1 in H.
  destruct (Tags.check_p_e tags 0 None _) as [e3|] eqn:H3; [|discriminate].
  injection H as Hlen <-.
  destruct e3; [|discriminate Hlen]. clear Hlen.
  apply ValidatorMore.check_p_e_extends in H3 as [more H3].
  symmetry in H3. apply app_eq_nil in H3 as [H3 _].
  destruct b; [|destruct e2; discriminate H3]. subst e2.
  apply ValidatorMore.check_value_nil in H2 as [-> Hm].
  apply ValidatorMore.check_value_nil in H1 as [He0 Hau].
  apply ValidatorMore.check_required_nil in He0 as [_ Hreq].
  assert (Hnamed : forall key, Py.present (d !! key) = true ->
                               TagSpec.has_tag key tags).
  { intros key Hp. rewrite Hlook, lookup_empty in Hp.
    destruct (Spec.values_of key tags None) as [vs|] eqn:E; [|discriminate].
    apply ValidatorMore.values_of_named in E as [E|E]; [discriminate | exact E]. }
  repeat (apply Forall_cons in Hreq as [?H Hreq]).
  split; [reflexivity|]. split.
  - repeat constructor;
      first [apply Hnamed; assumption
            | apply ValidatorMore.any_named_true; exact Ha].
  - assert (Hsome : forall key, Py.present (d !! key) = true ->
                                exists vs, d !! key = Some vs).
    { intros key. destruct (d !! key); [eauto | discriminate]. }
    split.
    + destruct (Hsome "auto-update") as [vs Hvs]; [assumption|].
      destruct (Hau vs Hvs) as (v & rest & -> & Hok).
      exists v, rest. rewrite <- Hvs, Hlook, lookup_empty. auto.
    + destruct (Hsome "m") as [vs Hvs]; [assumption|].
      destruct (Hm vs Hvs) as (v & rest & -> & Hok).
      apply String.eqb_eq in Hok. subst v.
      exists rest. rewrite <- Hvs, Hlook, lookup_empty. reflexivity.
Qed.

Lemma validate_index_tags_sound_witness :
  @nil string = []
  /\ Forall (fun name =>
               TagSpec.has_tag name
                 [["d"; "doc"]; ["title"; "Doc"]; ["auto-update"; "ask"];
                  ["m"; "application/json"]; ["M"; "x"]; ["a"; "ref"]])
       ["d"; "title"; "auto-update"; "m"; "M"; "a"]
  /\ (exists v rest,
        Spec.values_of "auto-update"
          [["d"; "doc"]; ["title"; "Doc"]; ["auto-update"; "ask"];
           ["m"; "application/json"]; ["M"; "x"]; ["a"; "ref"]] None
        = Some (v :: rest)
        /\ Tags.is_auto_update v = true)
  /\ (exists rest,
        Spec.values_of "m"
          [["d"; "doc"]; ["title"; "Doc"]; ["auto-update"; "ask"];
           ["m"; "application/json"]; ["M"; "x"]; ["a"; "ref"]] None
        = Some ("application/json" :: rest)).
Proof.
  apply (validate_index_tags_sound
           [["d"; "doc"]; ["title"; "Doc"]; ["auto-update"; "ask"];
            ["m"; "application/json"]; ["M"; "x"]; ["a"; "ref"]] []).
  reflexivity.
Defined.

(** X9: when one of the five required tags is missing and the index
    validator returns, it answers invalid and the violations name the
    missing tag. *)
Theorem validate_index_tags_reports_missing (tags : list tag) (req : string)
    (is_valid : bool) (errors : list string) :
  In req ["d"; "title"; "auto-update"; "m"; "M"] ->
  ~ TagSpec.has_tag req tags ->
  Tags.validate_index_tags tags = Py.Ok (is_valid, errors) ->
  is_valid = false /\ In ("Missing required tag: " +:+ req) errors.
Proof.
  intros Hreq Hno. unfold Tags.validate_index_tags, Tags.tag_dict. intros H.
  destruct (Tags.tag_dict_from tags ∅) as [d|] eqn:Hd; [|discriminate].
  pose proof (ValidatorMore.tag_dict_from_nonempty _ _ _ Hd) as Hne.
  destruct (TagFacts.tag_dict_from_lookup tags ∅ Hne) as (d' & Hd' & Hlook).
  rewrite Hd in Hd'. injection Hd' as <-.
  unfold mbind at 1, Py.result_bind at 1 in H.
  set (e0 := Tags.check_required _ d []) in H.
  assert (He0 : In ("Missing required tag: " +:+ req) e0).
  { apply ValidatorMore.check_required_missing; [exact Hreq|].
    rewrite Hlook, lookup_empty. apply ValidatorMore.values_of_absent.
    exact Hno. }
  destruct (Tags.check_value d "auto-update" _ _ e0) as [e1|] eqn:H1;
    [|discriminate].
  unfold mbind at 1, Py.result_bind at 1 in H.
  destruct (Tags.check_value d "m" _ _ e1) as [e2|] eqn:H2; [|discriminate].
  unfold mbind at 1, Py.result_bind at 1 in H.
  destruct (Tags.any_named "a" tags) as [b|] eqn:Ha; [|discriminate].
  unfold mbind at 1, Py.result_bind at 1 in H.
  destruct (Tags.check_p_e tags 0 None _) as [e3|] eqn:H3; [|discriminate].
  injection H as <- <-.
  apply ValidatorMore.check_value_extends in H1 as [m1 ->].
  apply ValidatorMore.check_value_extends in H2 as [m2 ->].
  apply ValidatorMore.check_p_e_extends in H3 as [m3 ->].
  assert (Hin : In ("Missing required tag: " +:+ req)
                  ((if b then (e0 ++ m1) ++ m2
                    else ((e0 ++ m1) ++ m2)
                         ++ ["Index must include at least one 'a' tag reference"])
                   ++ m3)).
  { apply in_or_app. left.
    destruct b; repeat (apply in_or_app; left); exact He0. }
  split; [|exact Hin].
  destruct (_ ++ m3); [destruct Hin | reflexivity].
Qed.

Lemma validate_index_tags_reports_missing_witness :
  false = false
  /\ In ("Missing required tag: " +:+ "title")
       ["Missing required tag: title";
        "Index must include at least one 'a' tag reference"].
Proof.
  apply (validate_index_tags_reports_missing
           [["d"; "doc"]; ["auto-update"; "yes"]; ["m"; "application/json"];
            ["M"; "meta-data/index/replaceable"]] "title").
  - simpl. auto.
  - intros H. unfold TagSpec.has_tag in H.
    repeat (apply Exists_cons in H as [H|H]; [discriminate H|]).
    apply Exists_nil in H. exact H.
  - reflexivity.
Defined.

(** X10: the content validator accepts a tag list exactly when every tag
    of the list has its name and both a d tag and a title tag are there. *)
Theorem validate_content_tags_accepts_iff (tags : list tag) :
  Tags.validate_content_tags tags = Py.Ok (true, [])
  <-> Forall (fun t => t <> []) tags
      /\ TagSpec.has_tag "d" tags /\ TagSpec.has_tag "title" tags.
Proof.
  unfold Tags.validate_content_tags, Tags.tag_dict. split.
  - intros H.
    destruct (Tags.tag_dict_from tags ∅) as [d|] eqn:Hd; [|discriminate].
    pose proof (ValidatorMore.tag_dict_from_nonempty _ _ _ Hd) as Hne.
    destruct (TagFacts.tag_dict_from_lookup tags ∅ Hne) as (d' & Hd' & Hlook).
    rewrite Hd in Hd'. injection Hd' as <-.
    unfold mbind, Py.result_bind in H.
    remember (Tags.check_required ["d"; "title"] d []) as e eqn:He.
    injection H as _ H. subst e.
    apply ValidatorMore.check_required_nil in H as [_ Hreq].
    repeat (apply Forall_cons in Hreq as [?H Hreq]).
    assert (Hnamed : forall key, Py.present (d !! key) = true ->
                                 TagSpec.has_tag key tags).
    { intros key Hp. rewrite Hlook, lookup_empty in Hp.
      destruct (Spec.values_of key tags None) as [vs|] eqn:E; [|discriminate].
      apply ValidatorMore.values_of_named in E as [E|E];
        [discriminate | exact E]. }
    auto.
  - intros (Hne & Hd & Ht).
    destruct (TagFacts.tag_dict_from_lookup tags ∅ Hne) as (d & -> & Hlook).
    unfold mbind, Py.result_bind. simpl.
    rewrite !Hlook, !lookup_empty.
    rewrite !ValidatorMore.has_tag_values_of by assumption. reflexivity.
Qed.

(** ** Derivative works and references together *)

Module PipelineFacts.
Import Py Spec Tags TagSpec.

Lemma find_insert_index_app l1 l2 i k :
  find_insert_index l1 i = Ok (Some k) ->
  find_insert_index (l1 ++ l2) i = Ok (Some k).
Proof.
  revert i. induction l1 as [|t rest IH]; intros i; simpl; [discriminate|].
  destruct (named "auto-update" t) as [[|]|]; simpl; auto; discriminate.
Qed.

Lemma add_reference_to_index_run h r tags section_event d_tag relay :
  h !! r = Some tags ->
  add_reference_to_index r section_event d_tag relay h
  = (Ok r, <[r := tags ++ [create_reference_tag (ev_kind section_event)
                            (ev_pubkey section_event) d_tag
                            (ev_id section_event) relay]]> h).
Proof.
  intros Hr. unfold add_reference_to_index, mbind, St_bind, append.
  rewrite Hr. reflexivity.
Qed.

Lemma optional_and_reference_names author external metadata ref :
  tag_name_in ["a"] ref = true ->
  Forall (fun t => tag_name_in (optional_names ++ ["a"]) t = true)
    (index_optional author external metadata ++ [ref]).
Proof.
  intros Href. apply Forall_app. split.
  - eapply Forall_impl; [apply TagFacts.index_optional_names|].
    intros [|name values]; [discriminate|]. cbn [tag_name_in].
    rewrite existsb_app. intros ->. reflexivity.
  - constructor; [|constructor].
    destruct ref as [|name values]; [discriminate|]. cbn [tag_name_in] in *.
    rewrite existsb_app, Href, orb_true_r. reflexivity.
Qed.

(** A built index with a reference, after the p and E tags have been put
    behind its auto-update tag, is accepted by the index validator. *)
Lemma validate_derivative_index (title d_tag : string)
    (author : option string) (publication_type auto_update language
    version : string) (external : bool) (metadata : option Metadata)
    (ref : tag) (pubkey event_id : string) (relay_url : option string) :
  tag_name_in ["a"] ref = true ->
  is_auto_update auto_update = true ->
  validate_index_tags
    ([ ["d"; d_tag]; ["title"; title]; ["auto-update"; auto_update];
       ["p"; pubkey]; e_tag pubkey event_id relay_url;
       ["type"; publication_type];
       ["m"; MIME_TYPES !!! "index"];
       ["M"; NOSTR_CATEGORIES !!! (if external then "external" else "index")];
       ["l"; language +:+ ", ISO-639-1"];
       ["reading-direction"; "left-to-right, top-to-bottom"];
       ["version"; version] ]
     ++ index_optional author external metadata ++ [ref])
  = Ok (true, []).
Proof.
  intros Href Hauto.
  pose proof (optional_and_reference_names author external metadata ref Href)
    as Htail.
  set (tail := index_optional author external metadata ++ [ref]) in *.
  assert (Hkey : forall key acc,
            existsb (String.eqb key) (optional_names ++ ["a"]) = false ->
            values_of key tail acc = acc).
  { intros key acc. apply TagFacts.values_of_other. exact Htail. }
  apply (ValidatorMore.validate_index_tags_accepts _ auto_update [] []).
  - apply Forall_app. split.
    + repeat constructor; unfold e_tag; discriminate.
    + exact (TagFacts.Forall_tag_name_in_nonempty _ _ Htail).
  - unfold index_required, has_tag.
    repeat apply List.Forall_cons; try apply List.Forall_nil;
      repeat first [ apply Exists_cons_hd; reflexivity | apply Exists_cons_tl ].
  - rewrite TagFacts.values_of_app, Hkey by reflexivity. reflexivity.
  - exact Hauto.
  - rewrite TagFacts.values_of_app, Hkey by reflexivity. reflexivity.
  - unfold has_tag. apply Exists_app. right. unfold tail.
    apply Exists_app. right. apply Exists_cons_hd.
    destruct ref as [|name values]; simpl in Href; [discriminate|].
    rewrite orb_false_r in Href. apply String.eqb_eq in Href.
    subst. reflexivity.
  - cbn -[tail]. unfold e_tag. cbn -[tail].
    apply (ValidatorMore.check_p_e_quiet (optional_names ++ ["a"]));
      [exact Htail | reflexivity | reflexivity].
Qed.

End PipelineFacts.

(** X11: a built index to which a reference and then a derivative-work
    linkage are added passes the index validator: the p and E tags land
    right behind the auto-update tag, next to each other, where the
    validator's ordering check accepts them. *)
Theorem derivative_index_validates (title d_tag : string)
    (author : option string) (publication_type auto_update language
    version : string) (external : bool) (metadata : option Tags.Metadata)
    (h : Py.store) (r : Py.loc) (section_event : Tags.Event)
    (ref_d_tag relay pubkey event_id : string) (relay_url : option string) :
  Tags.is_auto_update auto_update = true ->
  h !! r = Some (Tags.create_index_tags title d_tag author publication_type
                   auto_update language version external metadata) ->
  exists h1 h2 tags2,
    Tags.add_reference_to_index r section_event ref_d_tag relay h
    = (Py.Ok r, h1)
    /\ Tags.add_derivative_work_tags r pubkey event_id relay_url h1
       = (Py.Ok r, h2)
    /\ h2 !! r = Some tags2
    /\ Tags.validate_index_tags tags2 = Py.Ok (true, []).
Proof.
  intros Hauto Hr.
  set (ref := Tags.create_reference_tag (Tags.ev_kind section_event)
                (Tags.ev_pubkey section_event) ref_d_tag
                (Tags.ev_id section_event) relay).
  set (tags1 := Tags.create_index_tags title d_tag author publication_type
                  auto_update language version external metadata ++ [ref]).
  assert (Hr1 : (<[r := tags1]> h : Py.store) !! r = Some tags1)
    by apply lookup_insert_eq.
  assert (Hf : Tags.find_insert_index tags1 0 = Py.Ok (Some 3))
    by reflexivity.
  eexists _, _, _. split; [|split; [|split]].
  - apply (PipelineFacts.add_reference_to_index_run _ _ _ _ _ _ Hr).
  - apply (DerivativeFacts.add_derivative_work_tags_run _ _ _ pubkey event_id
             relay_url _ Hr1 Hf).
  - apply lookup_insert_eq.
  - unfold tags1, Tags.create_index_tags, Tags.index_head.
    rewrite <- app_assoc. cbn [default take drop app].
    apply PipelineFacts.validate_derivative_index; [reflexivity | exact Hauto].
Qed.

Lemma derivative_index_validates_witness :
  exists h1 h2 tags2,
    Tags.add_reference_to_index 1%positive (Tags.mkEvent 30041 "pk" "id")
      "doc-a" "wss://relay"
      {[ 1%positive :=
           Tags.create_index_tags "Doc" "doc" None "book" "yes" "en" "1"
             false None ]}
    = (Py.Ok 1%positive, h1)
    /\ Tags.add_derivative_work_tags 1%positive "orig" "ev" None h1
       = (Py.Ok 1%positive, h2)
    /\ h2 !! 1%positive = Some tags2
    /\ Tags.validate_index_tags tags2 = Py.Ok (true, []).
Proof.
  apply (derivative_index_validates "Doc" "doc" None "book" "yes" "en" "1"
           false None); reflexivity.
Defined.

(** X12: on a list of tags that has an auto-update tag, adding a reference
    and adding a derivative-work linkage commute: either order leaves the
    same list. *)
Theorem reference_and_derivative_commute (h : Py.store) (r : Py.loc)
    (tags : list tag) (section_event : Tags.Event) (d_tag relay pubkey
    event_id : string) (relay_url : option string) :
  h !! r = Some tags ->
  Forall (fun t => t <> []) tags ->
  TagSpec.has_tag "auto-update" tags ->
  exists h1 h2 h',
    Tags.add_reference_to_index r section_event d_tag relay h = (Py.Ok r, h1)
    /\ Tags.add_derivative_work_tags r pubkey event_id relay_url h1
       = (Py.Ok r, h')
    /\ Tags.add_derivative_work_tags r pubkey event_id relay_url h
       = (Py.Ok r, h2)
    /\ Tags.add_reference_to_index r section_event d_tag relay h2
       = (Py.Ok r, h').
Proof.
  intros Hr Hne Hau.
  destruct (DerivativeFacts.find_insert_index_spec tags 0 Hne)
    as [(b0 & values & after & Htags & Hb0 & Hf) | [Hall _]].
  2:{ exfalso. unfold TagSpec.has_tag in Hau.
      rewrite List.Forall_forall in Hall.
      apply List.Exists_exists in Hau as (t & Hin & Ht).
      exact (Hall t Hin Ht). }
  set (k := 0 + length b0 + 1) in *.
  assert (Hk : k <= length tags)
    by (rewrite Htags, length_app; simpl; lia).
  set (ref := Tags.create_reference_tag (Tags.ev_kind section_event)
                (Tags.ev_pubkey section_event) d_tag
                (Tags.ev_id section_event) relay).
  pose proof (PipelineFacts.find_insert_index_app tags [ref] 0 k Hf) as Hf'.
  eexists _, _, _. split; [|split; [|split]].
  - apply (PipelineFacts.add_reference_to_index_run _ _ _ _ _ _ Hr).
  - rewrite (DerivativeFacts.add_derivative_work_tags_run _ r (tags ++ [ref])
               pubkey event_id relay_url _ (lookup_insert_eq _ _ _) Hf').
    rewrite insert_insert_eq. reflexivity.
  - apply (DerivativeFacts.add_derivative_work_tags_run _ _ _ pubkey event_id
             relay_url _ Hr Hf).
  - rewrite (PipelineFacts.add_reference_to_index_run _ r _ section_event
               d_tag relay (lookup_insert_eq _ _ _)).
    rewrite insert_insert_eq. do 2 f_equal. simpl default. fold ref.
    rewrite take_app_le, drop_app_le by exact Hk.
    rewrite <- app_assoc. reflexivity.
Qed.

Lemma reference_and_derivative_commute_witness :
  exists h1 h2 h',
    Tags.add_reference_to_index 1%positive (Tags.mkEvent 30041 "pk" "id")
      "doc-a" "wss://relay"
      {[ 1%positive := [["d"; "doc"]; ["auto-update"; "yes"]; ["type"; "book"]] ]}
    = (Py.Ok 1%positive, h1)
    /\ Tags.add_derivative_work_tags 1%positive "orig" "ev" None h1
       = (Py.Ok 1%positive, h')
    /\ Tags.add_derivative_work_tags 1%positive "orig" "ev" None
         {[ 1%positive :=
              [["d"; "doc"]; ["auto-update"; "yes"]; ["type"; "book"]] ]}
       = (Py.Ok 1%positive, h2)
    /\ Tags.add_reference_to_index 1%positive (Tags.mkEvent 30041 "pk" "id")
         "doc-a" "wss://relay" h2
       = (Py.Ok 1%positive, h').
Proof.
  apply (reference_and_derivative_commute _ 1%positive
           [["d"; "doc"]; ["auto-update"; "yes"]; ["type"; "book"]]).
  - reflexivity.
  - repeat constructor; discriminate.
  - apply Exists_cons_tl, Exists_cons_hd. reflexivity.
Defined.

(** ** More on [upgrade_legacy_tags] *)

Module UpgradeFacts.
Import Py Tags Upgrade.

Lemma bind_load {A} (h : store) r l (k : list tag -> St A) :
  h !! r = Some l -> (load r ≫= k) h = k l h.
Proof. intros Hl. unfold mbind, St_bind, load. rewrite Hl. reflexivity. Qed.

Lemma bind_lift_ok {A B} (h : store) (x : A) (k : A -> St B) :
  (lift (Ok x) ≫= k) h = k x h.
Proof. reflexivity. Qed.

Lemma tracks_bind {A B} r (s1 : St A) (a1 : A) (k : A -> St B) (a2 : B)
    f1 f2 :
  tracks r s1 a1 f1 -> tracks r (k a1) a2 f2 ->
  tracks r (s1 ≫= k) a2 (fun l => f1 l ≫= f2).
Proof.
  intros H1 H2 h l Hl. specialize (H1 h l Hl).
  unfold mbind at 1, result_bind at 1. unfold mbind, St_bind.
  destruct (f1 l) as [l1|e].
  - rewrite H1.
    specialize (H2 (<[r := l1]> h) l1 (lookup_insert_eq _ _ _)).
    destruct (f2 l1) as [l2|e].
    + rewrite H2, insert_insert_eq. reflexivity.
    + destruct H2 as [l' ->]. exists l'. rewrite insert_insert_eq.
      reflexivity.
  - destruct H1 as [l' ->]. exists l'. reflexivity.
Qed.

Lemma tracks_ret {A} r (a : A) : tracks r (mret a) a Ok.
Proof.
  intros h l Hl. unfold mret, St_ret. rewrite (insert_id h r l Hl).
  reflexivity.
Qed.

Lemma tracks_then_ret {A} r (s : St unit) (a : A) f :
  tracks r s tt f -> tracks r (s ≫= fun _ => mret a) a f.
Proof.
  intros H h l Hl. specialize (H h l Hl). unfold mbind, St_bind.
  destruct (f l) as [l'|e].
  - rewrite H. reflexivity.
  - destruct H as [l' ->]. exists l'. reflexivity.
Qed.

Lemma tracks_append_missing r d key t :
  tracks r (append_missing r d key t) tt (add_missing d key t).
Proof.
  intros h l Hl. unfold append_missing, add_missing.
  destruct (present (d !! key)).
  - unfold mret, St_ret. rewrite (insert_id h r l Hl). reflexivity.
  - unfold append. rewrite Hl. reflexivity.
Qed.

Lemma tracks_M r d event_kind :
  tracks r
    (if present (d !! "M") then mret tt
     else if (event_kind =? 30040)%Z then
       ext ← lift (is_external d);
       append r ["M"; NOSTR_CATEGORIES !!! (if ext : bool then "external"
                                            else "index")]
     else append r ["M"; NOSTR_CATEGORIES !!! "content"])
    tt (add_M d event_kind).
Proof.
  intros h l Hl. unfold add_M.
  destruct (present (d !! "M")).
  - unfold mret, St_ret. rewrite (insert_id h r l Hl). reflexivity.
  - destruct (event_kind =? 30040)%Z.
    + unfold mbind, St_bind, result_bind, lift, append.
      destruct (is_external d) as [ext|e].
      * rewrite Hl. reflexivity.
      * exists l. rewrite (insert_id h r l Hl). reflexivity.
    + unfold append. rewrite Hl. reflexivity.
Qed.

Lemma tracks_fix_language r d :
  tracks r (fix_language r d) tt (fix_language_of d).
Proof.
  intros h l Hl. unfold fix_language, fix_language_of.
  destruct (d !! "l") as [values|].
  - unfold mbind, St_bind, result_bind, lift, load, setitem, mret, St_ret.
    destruct (item0 values) as [lang|e].
    + destruct (PyStr.contains "ISO-639-1" lang).
      * rewrite (insert_id h r l Hl). reflexivity.
      * rewrite Hl. destruct (find_named "l" l 0) as [[i|]|e].
        -- rewrite Hl. destruct (i <? length l)%nat; [reflexivity|].
           exists l. rewrite (insert_id h r l Hl). reflexivity.
        -- rewrite (insert_id h r l Hl). reflexivity.
        -- exists l. rewrite (insert_id h r l Hl). reflexivity.
    + exists l. rewrite (insert_id h r l Hl). reflexivity.
  - unfold append. rewrite Hl. reflexivity.
Qed.

Lemma tracks_reading_direction r d event_kind :
  tracks r
    (if (event_kind =? 30040)%Z
     then append_missing r d "reading-direction"
            ["reading-direction"; "left-to-right, top-to-bottom"]
     else mret tt)
    tt (add_reading_direction d event_kind).
Proof.
  unfold add_reading_direction. destruct (event_kind =? 30040)%Z.
  - apply tracks_append_missing.
  - apply tracks_ret.
Qed.

(** [upgrade_legacy_tags] leaves [upgraded] in the list it was given, and
    raises exactly when [upgraded] does. *)
Lemma upgrade_legacy_tags_run (h : store) r tags event_kind :
  h !! r = Some tags ->
  match upgraded tags event_kind with
  | Ok l' => upgrade_legacy_tags r event_kind h = (Ok r, <[r := l']> h)
  | Raise e =>
      exists l', upgrade_legacy_tags r event_kind h
                 = (Raise e, <[r := l']> h)
  end.
Proof.
  intros Hr. unfold upgrade_legacy_tags, upgraded.
  rewrite (bind_load h r tags _ Hr).
  destruct (tag_dict tags) as [d|e].
  - rewrite bind_lift_ok.
    match goal with
    | |- match _ with Ok _ => ?S h = _ | Raise _ => _ end =>
        assert (Htr : tracks r S r
                  (fun l =>
                     l1 ← add_m d event_kind l;
                     l2 ← add_M d event_kind l1;
                     l3 ← fix_language_of d l2;
                     l4 ← add_reading_direction d event_kind l3;
                     add_missing d "version" ["version"; "1"] l4))
    end.
    { eapply tracks_bind; [apply tracks_append_missing|].
      eapply tracks_bind; [apply tracks_M|].
      eapply tracks_bind; [apply tracks_fix_language|].
      eapply tracks_bind; [apply tracks_reading_direction|].
      apply tracks_then_ret. apply tracks_append_missing. }
    exact (Htr h tags Hr).
  - exists tags. rewrite (insert_id h r tags Hr). reflexivity.
Qed.

End UpgradeFacts.

Module UpgradeShape.
Import Py Spec Tags TagSpec Upgrade.

Lemma has_tag_app name l1 l2 :
  has_tag name (l1 ++ l2) <-> has_tag name l1 \/ has_tag name l2.
Proof. unfold has_tag. apply Exists_app. Qed.

(** The scan for the first tag of a name. *)
Lemma find_named_found name l j i :
  find_named name l j = Ok (Some i) ->
  exists pre t suf,
    l = pre ++ t :: suf /\ i = j + length pre /\ head t = Some name
    /\ Forall (fun t => head t <> Some name) pre
    /\ Forall (fun t => t <> []) pre.
Proof.
  revert j. induction l as [|t rest IH]; intros j; simpl; [discriminate|].
  destruct t as [|n vs]; [discriminate|]. unfold named. simpl.
  destruct (String.eqb n name) eqn:E.
  - intros [= <-]. apply String.eqb_eq in E. subst n.
    exists [], (name :: vs), rest. simpl.
    repeat split; [lia | constructor | constructor].
  - intros H. apply IH in H as (pre & t & suf & -> & -> & Ht & Hpre & Hne).
    apply String.eqb_neq in E.
    exists ((n :: vs) :: pre), t, suf. simpl.
    repeat split; [lia | exact Ht | |]; constructor; try assumption;
      [simpl; congruence | discriminate].
Qed.

Lemma find_named_none name l j :
  find_named name l j = Ok None -> ~ has_tag name l.
Proof.
  revert j. induction l as [|t rest IH]; intros j; simpl.
  - intros _ H. apply Exists_nil in H. exact H.
  - destruct t as [|n vs]; [discriminate|]. unfold named. simpl.
    destruct (String.eqb n name) eqn:E; [discriminate|].
    intros H Hex. apply Exists_cons in Hex as [Hex|Hex].
    + simpl in Hex. injection Hex as ->. rewrite String.eqb_refl in E.
      discriminate.
    + exact (IH _ H Hex).
Qed.

Lemma find_named_here name pre vs rest j :
  Forall (fun t => head t <> Some name) pre ->
  Forall (fun t => t <> []) pre ->
  find_named name (pre ++ (name :: vs) :: rest) j
  = Ok (Some (j + length pre)).
Proof.
  intros Hpre Hne. revert j.
  induction Hpre as [|t pre Ht _ IH]; intros j; simpl.
  - unfold named. simpl. rewrite String.eqb_refl. do 2 f_equal. lia.
  - apply Forall_cons in Hne as [Htne Hne].
    destruct t as [|n ws]; [congruence|]. unfold named. simpl.
    destruct (String.eqb n name) eqn:E.
    + apply String.eqb_eq in E. subst. simpl in Ht. congruence.
    + rewrite (IH Hne). do 2 f_equal. lia.
Qed.

(** Every step has one of the three shapes. *)
Lemma add_missing_shape d key t l l' :
  (exists value, t = [key; value]) ->
  add_missing d key t l = Ok l' -> step_shape l l'.
Proof.
  intros [value ->]. unfold add_missing. intros [= <-].
  destruct (present (d !! key)).
  - apply step_same. reflexivity.
  - eapply step_append. reflexivity.
Qed.

Lemma add_m_shape d event_kind l l' :
  add_m d event_kind l = Ok l' -> step_shape l l'.
Proof. apply add_missing_shape. eauto. Qed.

Lemma add_M_shape d event_kind l l' :
  add_M d event_kind l = Ok l' -> step_shape l l'.
Proof.
  unfold add_M. destruct (present (d !! "M")).
  - intros [= <-]. apply step_same. reflexivity.
  - destruct (event_kind =? 30040)%Z.
    + destruct (is_external d); simpl; [|discriminate].
      intros [= <-]. eapply step_append. reflexivity.
    + intros [= <-]. eapply step_append. reflexivity.
Qed.

Lemma add_reading_direction_shape d event_kind l l' :
  add_reading_direction d event_kind l = Ok l' -> step_shape l l'.
Proof.
  unfold add_reading_direction. destruct (event_kind =? 30040)%Z.
  - apply add_missing_shape. eauto.
  - intros [= <-]. apply step_same. reflexivity.
Qed.

Lemma insert_at_found (pre : list tag) t suf x :
  <[0 + length pre := x]> (pre ++ t :: suf) = pre ++ x :: suf.
Proof.
  simpl. rewrite insert_app_r_alt by lia.
  rewrite Nat.sub_diag. reflexivity.
Qed.

Lemma fix_language_of_shape d l l' :
  fix_language_of d l = Ok l' -> step_shape l l'.
Proof.
  unfold fix_language_of. destruct (d !! "l") as [values|].
  - destruct (item0 values) as [lang|]; simpl; [|discriminate].
    destruct (PyStr.contains "ISO-639-1" lang).
    + intros [= <-]. apply step_same. reflexivity.
    + destruct (find_named "l" l 0) as [[i|]|] eqn:Hf; simpl;
        [| intros [= <-]; apply step_same; reflexivity | discriminate].
      destruct (i <? length l)%nat; [|discriminate]. intros [= <-].
      apply find_named_found in Hf as (pre & t & suf & -> & -> & Ht & _).
      eapply step_rewrite; [reflexivity | exact Ht |].
      apply insert_at_found.
  - intros [= <-]. eapply step_append. reflexivity.
Qed.

(** What a step keeps. *)
Lemma step_shape_has_tag l l' name :
  step_shape l l' -> has_tag name l -> has_tag name l'.
Proof.
  intros [-> | key value -> | pre t suf value -> Ht ->] H; [exact H | |].
  - apply has_tag_app. left. exact H.
  - apply has_tag_app in H as [H|H]; apply has_tag_app; [left; exact H|].
    right. apply Exists_cons in H as [H|H].
    + apply Exists_cons_hd. simpl. congruence.
    + apply Exists_cons_tl. exact H.
Qed.

Lemma step_shape_nonempty l l' :
  step_shape l l' -> Forall (fun t => t <> []) l ->
  Forall (fun t => t <> []) l'.
Proof.
  intros [-> | key value -> | pre t suf value -> Ht ->] H; [exact H | |].
  - apply Forall_app. split; [exact H | repeat constructor; discriminate].
  - apply Forall_app in H as [Hpre Hsuf]. apply Forall_cons in Hsuf as [_ Hsuf].
    apply Forall_app. split; [exact Hpre|].
    constructor; [discriminate | exact Hsuf].
Qed.

Lemma step_shape_lookup (l l' : list tag) i t :
  step_shape l l' -> l !! i = Some t -> head t <> Some "l" ->
  l' !! i = Some t.
Proof.
  intros [-> | key value -> | pre t0 suf value -> Ht0 ->] H Hnl; [exact H | |].
  - apply lookup_app_l_Some. exact H.
  - destruct (decide (i = length pre)) as [->|Hne].
    + rewrite list_lookup_middle in H by reflexivity.
      injection H as ->. contradiction.
    + destruct (decide (i < length pre)) as [Hlt|Hge].
      * rewrite lookup_app_l in * by exact Hlt. exact H.
      * rewrite lookup_app_r in * by lia.
        destruct (i - length pre) as [|k] eqn:E; [lia|]. exact H.
Qed.

Lemma step_shape_length l l' : step_shape l l' -> length l <= length l'.
Proof.
  intros [-> | key value -> | pre t suf value -> Ht ->];
    rewrite ?length_app; simpl; lia.
Qed.

End UpgradeShape.

Module UpgradeIdem.
Import Py Spec Tags TagSpec Upgrade UpgradeShape.

Lemma tag_dict_spec tags d :
  tag_dict tags = Ok d ->
  Forall (fun t => t <> []) tags
  /\ forall key, d !! key = values_of key tags None.
Proof.
  unfold tag_dict. intros Hd.
  pose proof (ValidatorMore.tag_dict_from_nonempty _ _ _ Hd) as Hne.
  destruct (TagFacts.tag_dict_from_lookup tags ∅ Hne) as (d' & Hd' & Hlook).
  rewrite Hd in Hd'. injection Hd' as <-. split; [exact Hne|].
  intros key. rewrite Hlook, lookup_empty. reflexivity.
Qed.

Lemma tag_dict_of_nonempty tags :
  Forall (fun t => t <> []) tags ->
  exists d, tag_dict tags = Ok d
            /\ forall key, d !! key = values_of key tags None.
Proof.
  intros Hne. unfold tag_dict.
  destruct (TagFacts.tag_dict_from_lookup tags ∅ Hne) as (d & Hd & Hlook).
  exists d. split; [exact Hd|]. intros key.
  rewrite Hlook, lookup_empty. reflexivity.
Qed.

Lemma dict_present_has_tag tags d key :
  tag_dict tags = Ok d -> present (d !! key) = true -> has_tag key tags.
Proof.
  intros Hd Hp. destruct (tag_dict_spec tags d Hd) as [_ Hlook].
  rewrite Hlook in Hp.
  destruct (values_of key tags None) as [vs|] eqn:E; [|discriminate].
  apply ValidatorMore.values_of_named in E as [E|E]; [discriminate | exact E].
Qed.

Lemma has_tag_dict_present tags d key :
  tag_dict tags = Ok d -> has_tag key tags -> present (d !! key) = true.
Proof.
  intros Hd H. destruct (tag_dict_spec tags d Hd) as [_ Hlook].
  rewrite Hlook. apply ValidatorMore.has_tag_values_of. exact H.
Qed.

(** The steps that append. *)
Lemma add_missing_app d key t l l' :
  add_missing d key t l = Ok l' ->
  (present (d !! key) = true /\ l' = l)
  \/ (present (d !! key) = false /\ l' = l ++ [t]).
Proof.
  unfold add_missing. intros [= <-].
  destruct (present (d !! key)); auto.
Qed.

Lemma add_M_app d event_kind l l' :
  add_M d event_kind l = Ok l' ->
  (present (d !! "M") = true /\ l' = l)
  \/ (exists value, l' = l ++ [["M"; value]]).
Proof.
  unfold add_M. destruct (present (d !! "M")).
  - intros [= <-]. auto.
  - destruct (event_kind =? 30040)%Z.
    + destruct (is_external d); simpl; [|discriminate].
      intros [= <-]. eauto.
    + intros [= <-]. eauto.
Qed.

Lemma add_reading_direction_app d event_kind l l' :
  add_reading_direction d event_kind l = Ok l' ->
  ((event_kind =? 30040)%Z = false /\ l' = l)
  \/ ((event_kind =? 30040)%Z = true
      /\ ((present (d !! "reading-direction") = true /\ l' = l)
          \/ l' = l ++ [["reading-direction";
                         "left-to-right, top-to-bottom"]])).
Proof.
  unfold add_reading_direction. destruct (event_kind =? 30040)%Z.
  - intros H. apply add_missing_app in H as [H | [_ H]]; auto.
  - intros [= <-]. auto.
Qed.

(** A tag of another name does not change what the dict holds at l. *)
Lemma values_of_l_snoc l name value acc :
  String.eqb name "l" = false ->
  values_of "l" (l ++ [[name; value]]) acc = values_of "l" l acc.
Proof.
  intros E. rewrite TagFacts.values_of_app. simpl. rewrite E. reflexivity.
Qed.

(** Past the first tag named [key], what came before does not count. *)
Lemma values_of_acc key rest a b :
  values_of key rest a = a \/ values_of key rest a = values_of key rest b.
Proof.
  revert a b. induction rest as [|t rest IH]; intros a b; simpl; [auto|].
  destruct t as [|name values]; [apply IH|].
  destruct (String.eqb name key); [auto | apply IH].
Qed.

Lemma substring_after (v w : string) :
  String.substring (String.length v) (String.length w) (v +:+ w) = w.
Proof.
  induction v as [|c v IH]; [|exact IH].
  change ("" +:+ w) with w. change (String.length "") with 0.
  induction w as [|c w IHw]; simpl; [reflexivity | rewrite IHw; reflexivity].
Qed.

Lemma contains_suffix_iso v :
  PyStr.contains "ISO-639-1" (v +:+ ", ISO-639-1") = true.
Proof.
  unfold PyStr.contains.
  destruct (String.index 0 "ISO-639-1" (v +:+ ", ISO-639-1")) eqn:E;
    [reflexivity|].
  exfalso.
  apply (String.index_correct3 0 (String.length (v +:+ ", ")) _ _ E);
    [discriminate | lia |].
  change 9 with (String.length "ISO-639-1").
  replace (v +:+ ", ISO-639-1") with ((v +:+ ", ") +:+ "ISO-639-1").
  - apply substring_after.
  - clear. induction v as [|c v IH]; [reflexivity|].
    change (String c ((v +:+ ", ") +:+ "ISO-639-1")
            = String c (v +:+ ", ISO-639-1")).
    rewrite IH. reflexivity.
Qed.

End UpgradeIdem.

Module UpgradeMain.
Import Py Spec Tags TagSpec Upgrade UpgradeShape UpgradeIdem.

Lemma upgraded_inv tags event_kind l5 :
  upgraded tags event_kind = Ok l5 ->
  exists d l1 l2 l3 l4,
    tag_dict tags = Ok d
    /\ add_m d event_kind tags = Ok l1
    /\ add_M d event_kind l1 = Ok l2
    /\ fix_language_of d l2 = Ok l3
    /\ add_reading_direction d event_kind l3 = Ok l4
    /\ add_missing d "version" ["version"; "1"] l4 = Ok l5.
Proof.
  unfold upgraded. intros H.
  destruct (tag_dict tags) as [d|] eqn:Hd; [|discriminate].
  unfold mbind at 1, result_bind at 1 in H.
  destruct (add_m d event_kind tags) as [l1|] eqn:H1; [|discriminate].
  unfold mbind at 1, result_bind at 1 in H.
  destruct (add_M d event_kind l1) as [l2|] eqn:H2; [|discriminate].
  unfold mbind at 1, result_bind at 1 in H.
  destruct (fix_language_of d l2) as [l3|] eqn:H3; [|discriminate].
  unfold mbind at 1, result_bind at 1 in H.
  destruct (add_reading_direction d event_kind l3) as [l4|] eqn:H4;
    [|discriminate].
  unfold mbind at 1, result_bind at 1 in H.
  exists d, l1, l2, l3, l4. repeat split; assumption.
Qed.

Lemma named_last name value (l : list tag) :
  has_tag name (l ++ [[name; value]]).
Proof. apply has_tag_app. right. apply Exists_cons_hd. reflexivity. Qed.

(** What the steps have made sure of once they are through. *)
Lemma upgraded_facts tags event_kind l5 :
  upgraded tags event_kind = Ok l5 ->
  Forall (fun t => t <> []) l5
  /\ has_tag "m" l5 /\ has_tag "M" l5 /\ has_tag "l" l5
  /\ has_tag "version" l5
  /\ ((event_kind =? 30040)%Z = true -> has_tag "reading-direction" l5)
  /\ length tags <= length l5
  /\ forall i t, tags !! i = Some t -> head t <> Some "l" ->
                 l5 !! i = Some t.
Proof.
  intros H.
  destruct (upgraded_inv _ _ _ H)
    as (d & l1 & l2 & l3 & l4 & Hd & H1 & H2 & H3 & H4 & H5).
  destruct (tag_dict_spec tags d Hd) as [Hne Hlook].
  pose proof (add_m_shape _ _ _ _ H1) as S1.
  pose proof (add_M_shape _ _ _ _ H2) as S2.
  pose proof (fix_language_of_shape _ _ _ H3) as S3.
  pose proof (add_reading_direction_shape _ _ _ _ H4) as S4.
  assert (S5 : step_shape l4 l5) by (eapply add_missing_shape; eauto).
  assert (Hfrom : forall name, present (d !! name) = true -> has_tag name tags)
    by (intros name; apply dict_present_has_tag; exact Hd).
  repeat split.
  - apply (step_shape_nonempty _ _ S5), (step_shape_nonempty _ _ S4),
      (step_shape_nonempty _ _ S3), (step_shape_nonempty _ _ S2),
      (step_shape_nonempty _ _ S1). exact Hne.
  - apply (step_shape_has_tag _ _ _ S5), (step_shape_has_tag _ _ _ S4),
      (step_shape_has_tag _ _ _ S3), (step_shape_has_tag _ _ _ S2).
    apply add_missing_app in H1 as [[Hp ->] | [_ ->]];
      [apply Hfrom; exact Hp | apply named_last].
  - apply (step_shape_has_tag _ _ _ S5), (step_shape_has_tag _ _ _ S4),
      (step_shape_has_tag _ _ _ S3).
    apply add_M_app in H2 as [[Hp ->] | [value ->]]; [|apply named_last].
    apply (step_shape_has_tag _ _ _ S1), Hfrom. exact Hp.
  - apply (step_shape_has_tag _ _ _ S5), (step_shape_has_tag _ _ _ S4).
    unfold fix_language_of in H3.
    destruct (d !! "l") as [values|] eqn:El.
    + apply (step_shape_has_tag _ _ _ S3), (step_shape_has_tag _ _ _ S2),
        (step_shape_has_tag _ _ _ S1), Hfrom. rewrite El. reflexivity.
    + injection H3 as <-. apply named_last.
  - apply add_missing_app in H5 as [[Hp ->] | [_ ->]]; [|apply named_last].
    apply (step_shape_has_tag _ _ _ S4), (step_shape_has_tag _ _ _ S3),
      (step_shape_has_tag _ _ _ S2), (step_shape_has_tag _ _ _ S1), Hfrom.
    exact Hp.
  - intros Hk. apply (step_shape_has_tag _ _ _ S5).
    apply add_reading_direction_app in H4
      as [[Hk' _] | [_ [[Hp ->] | ->]]]; [congruence | | apply named_last].
    apply (step_shape_has_tag _ _ _ S3), (step_shape_has_tag _ _ _ S2),
      (step_shape_has_tag _ _ _ S1), Hfrom. exact Hp.
  - apply step_shape_length in S1, S2, S3, S4, S5. lia.
  - intros i t Hi Hnl.
    apply (step_shape_lookup _ _ _ _ S5); [|exact Hnl].
    apply (step_shape_lookup _ _ _ _ S4); [|exact Hnl].
    apply (step_shape_lookup _ _ _ _ S3); [|exact Hnl].
    apply (step_shape_lookup _ _ _ _ S2); [|exact Hnl].
    apply (step_shape_lookup _ _ _ _ S1); [exact Hi | exact Hnl].
Qed.

(** The appending steps leave what the dict holds at l alone. *)
Lemma add_missing_l d key value l l' acc :
  String.eqb key "l" = false ->
  add_missing d key [key; value] l = Ok l' ->
  values_of "l" l' acc = values_of "l" l acc
  /\ exists more, l' = l ++ more.
Proof.
  intros E H. apply add_missing_app in H as [[_ ->] | [_ ->]].
  - split; [reflexivity|]. exists []. rewrite app_nil_r. reflexivity.
  - split; [apply values_of_l_snoc; exact E | eauto].
Qed.

Lemma add_M_l d event_kind l l' acc :
  add_M d event_kind l = Ok l' ->
  values_of "l" l' acc = values_of "l" l acc.
Proof.
  intros H. apply add_M_app in H as [[_ ->] | [value ->]]; [reflexivity|].
  apply values_of_l_snoc. reflexivity.
Qed.

Lemma add_reading_direction_l d event_kind l l' acc :
  add_reading_direction d event_kind l = Ok l' ->
  values_of "l" l' acc = values_of "l" l acc
  /\ exists more, l' = l ++ more.
Proof.
  unfold add_reading_direction. destruct (event_kind =? 30040)%Z.
  - apply add_missing_l. reflexivity.
  - intros [= <-]. split; [reflexivity|]. exists [].
    rewrite app_nil_r. reflexivity.
Qed.

(** A second pass over the language tag changes nothing. *)
Lemma fix_language_of_again d l2 l3 l5 d5 more :
  (forall key, present (d !! key) = true -> has_tag key l2) ->
  d !! "l" = values_of "l" l2 None ->
  fix_language_of d l2 = Ok l3 ->
  l5 = l3 ++ more ->
  d5 !! "l" = values_of "l" l3 None ->
  fix_language_of d5 l5 = Ok l5.
Proof.
  intros Hfrom Hl2 H3 Hl5 Hd5. unfold fix_language_of in *.
  destruct (d !! "l") as [values|] eqn:El.
  - destruct (item0 values) as [lang|] eqn:Elang; simpl in H3;
      [|discriminate].
    destruct (PyStr.contains "ISO-639-1" lang) eqn:Ec.
    + injection H3 as <-. rewrite Hd5, <- Hl2. simpl.
      rewrite Elang. simpl. rewrite Ec. reflexivity.
    + destruct (find_named "l" l2 0) as [[i|]|] eqn:Hf; simpl in H3;
        [| | discriminate].
      * destruct (i <? length l2)%nat; [|discriminate]. injection H3 as <-.
        apply find_named_found in Hf
          as (pre & t & suf & -> & -> & Ht & Hpre & Hne).
        rewrite insert_at_found in *.
        destruct t as [|name vals]; [discriminate|].
        injection Ht as ->.
        rewrite TagFacts.values_of_app in Hl2, Hd5. simpl in Hl2, Hd5.
        rewrite Hd5.
        destruct (values_of_acc "l" suf (Some [lang +:+ ", ISO-639-1"])
                    (Some vals)) as [E|E]; rewrite E.
        -- simpl. rewrite contains_suffix_iso. reflexivity.
        -- rewrite <- Hl2. simpl. rewrite Elang. simpl. rewrite Ec.
           subst l5. rewrite <- app_assoc. simpl.
           rewrite (find_named_here "l" pre _ _ 0 Hpre Hne). simpl.
           assert (Hlt : (length pre <? length
                            (pre ++ ["l"; lang +:+ ", ISO-639-1"]
                                 :: suf ++ more))%nat = true).
           { apply Nat.ltb_lt. rewrite length_app. simpl. lia. }
           rewrite Hlt.
           pose proof (insert_at_found pre ["l"; lang +:+ ", ISO-639-1"]
                         (suf ++ more) ["l"; lang +:+ ", ISO-639-1"]) as Hi.
           simpl in Hi. rewrite Hi. reflexivity.
      * exfalso. apply (find_named_none _ _ _ Hf).
        apply Hfrom. rewrite El. reflexivity.
  - injection H3 as <-. rewrite Hd5, TagFacts.values_of_app. reflexivity.
Qed.

Lemma upgraded_idem tags event_kind l5 :
  upgraded tags event_kind = Ok l5 -> upgraded l5 event_kind = Ok l5.
Proof.
  intros H.
  destruct (upgraded_facts _ _ _ H)
    as (Hne5 & Hm & HM & Hl & Hv & Hrd & _ & _).
  destruct (upgraded_inv _ _ _ H)
    as (d & l1 & l2 & l3 & l4 & Hd & H1 & H2 & H3 & H4 & H5).
  destruct (tag_dict_spec tags d Hd) as [Hne Hlook].
  destruct (tag_dict_of_nonempty l5 Hne5) as (d5 & Hd5 & Hlook5).
  assert (Hp : forall key, has_tag key l5 -> present (d5 !! key) = true)
    by (intros key; apply has_tag_dict_present; exact Hd5).
  destruct (add_missing_l d "m" _ tags l1 None eq_refl H1) as [L1 _].
  pose proof (add_M_l _ _ _ _ None H2) as L2.
  destruct (add_reading_direction_l _ _ _ _ None H4) as [L4 [m4 E4]].
  destruct (add_missing_l d "version" _ l4 l5 None eq_refl H5)
    as [L5 [m5 E5]].
  assert (Hlang : fix_language_of d5 l5 = Ok l5).
  { apply (fix_language_of_again d l2 l3 l5 d5 (m4 ++ m5)).
    - intros key Hk.
      apply (step_shape_has_tag _ _ _ (add_M_shape _ _ _ _ H2)),
        (step_shape_has_tag _ _ _ (add_m_shape _ _ _ _ H1)).
      exact (dict_present_has_tag _ _ _ Hd Hk).
    - rewrite Hlook, L2, L1. reflexivity.
    - exact H3.
    - rewrite E5, E4, <- app_assoc. reflexivity.
    - rewrite Hlook5, L5, L4. reflexivity. }
  assert (E1 : add_m d5 event_kind l5 = Ok l5).
  { unfold add_m, add_missing. rewrite (Hp "m" Hm). reflexivity. }
  assert (E2 : add_M d5 event_kind l5 = Ok l5).
  { unfold add_M. rewrite (Hp "M" HM). reflexivity. }
  assert (E4' : add_reading_direction d5 event_kind l5 = Ok l5).
  { unfold add_reading_direction, add_missing.
    destruct (event_kind =? 30040)%Z eqn:Ek; [|reflexivity].
    rewrite (Hp "reading-direction" (Hrd eq_refl)). reflexivity. }
  assert (E5' : add_missing d5 "version" ["version"; "1"] l5 = Ok l5).
  { unfold add_missing. rewrite (Hp "version" Hv). reflexivity. }
  unfold upgraded, mbind, result_bind.
  rewrite Hd5; cbv beta iota. rewrite E1; cbv beta iota.
  rewrite E2; cbv beta iota. rewrite Hlang; cbv beta iota.
  rewrite E4'; cbv beta iota. exact E5'.
Qed.

End UpgradeMain.

(** X13: upgrading is idempotent.  Once [upgrade_legacy_tags] has returned,
    a second call on the same list returns too and changes nothing. *)
Theorem upgrade_legacy_tags_idempotent (h h1 : Py.store) (r a : Py.loc)
    (tags : list tag) (event_kind : Z) :
  h !! r = Some tags ->
  Tags.upgrade_legacy_tags r event_kind h = (Py.Ok a, h1) ->
  Tags.upgrade_legacy_tags r event_kind h1 = (Py.Ok r, h1).
Proof.
  intros Hr Hrun.
  pose proof (UpgradeFacts.upgrade_legacy_tags_run h r tags event_kind Hr)
    as H.
  destruct (Upgrade.upgraded tags event_kind) as [l'|e] eqn:Hu.
  - rewrite H in Hrun. injection Hrun as _ <-.
    pose proof (UpgradeFacts.upgrade_legacy_tags_run (<[r := l']> h) r l'
                  event_kind (lookup_insert_eq _ _ _)) as H'.
    rewrite (UpgradeMain.upgraded_idem _ _ _ Hu) in H'.
    rewrite insert_insert_eq in H'. exact H'.
  - destruct H as [l' H]. rewrite H in Hrun. discriminate.
Qed.

Lemma upgrade_legacy_tags_idempotent_witness :
  Tags.upgrade_legacy_tags 1%positive 30040
    (snd (Tags.upgrade_legacy_tags 1%positive 30040
            {[ 1%positive := [["d"; "doc"]; ["l"; "fr"]; ["l"; "de"]] ]}))
  = (Py.Ok 1%positive,
     snd (Tags.upgrade_legacy_tags 1%positive 30040
            {[ 1%positive := [["d"; "doc"]; ["l"; "fr"]; ["l"; "de"]] ]})).
Proof.
  apply (upgrade_legacy_tags_idempotent
           {[ 1%positive := [["d"; "doc"]; ["l"; "fr"]; ["l"; "de"]] ]}
           _ 1%positive 1%positive
           [["d"; "doc"]; ["l"; "fr"]; ["l"; "de"]]).
  - reflexivity.
  - vm_compute. reflexivity.
Defined.

(** X14: when [upgrade_legacy_tags] returns, the list it was given holds an
    m, an M, an l and a version tag, and a reading-direction tag too for an
    index (kind 30040).  No tag was removed: the list is at least as long,
    and every tag other than an l tag is where it was. *)
Theorem upgrade_legacy_tags_completes (h h1 : Py.store) (r a : Py.loc)
    (tags : list tag) (event_kind : Z) :
  h !! r = Some tags ->
  Tags.upgrade_legacy_tags r event_kind h = (Py.Ok a, h1) ->
  exists tags1,
    a = r /\ h1 = <[r := tags1]> h
    /\ Forall (fun name => TagSpec.has_tag name tags1)
         ["m"; "M"; "l"; "version"]
    /\ (event_kind = 30040%Z -> TagSpec.has_tag "reading-direction" tags1)
    /\ length tags <= length tags1
    /\ forall i t, tags !! i = Some t -> head t <> Some "l" ->
                   tags1 !! i = Some t.
Proof.
  intros Hr Hrun.
  pose proof (UpgradeFacts.upgrade_legacy_tags_run h r tags event_kind Hr)
    as H.
  destruct (Upgrade.upgraded tags event_kind) as [l'|e] eqn:Hu.
  - rewrite H in Hrun. injection Hrun as <- <-.
    destruct (UpgradeMain.upgraded_facts _ _ _ Hu)
      as (_ & Hm & HM & Hl & Hv & Hrd & Hlen & Hkept).
    exists l'. repeat split; try assumption.
    + repeat constructor; assumption.
    + intros ->. apply Hrd. reflexivity.
  - destruct H as [l' H]. rewrite H in Hrun. discriminate.
Qed.

Lemma upgrade_legacy_tags_completes_witness :
  exists tags1,
    1%positive = 1%positive
    /\ snd (Tags.upgrade_legacy_tags 1%positive 30040
              {[ 1%positive := [["d"; "doc"]; ["title"; "Doc"]] ]})
       = <[1%positive := tags1]>
           {[ 1%positive := [["d"; "doc"]; ["title"; "Doc"]] ]}
    /\ Forall (fun name => TagSpec.has_tag name tags1)
         ["m"; "M"; "l"; "version"]
    /\ (30040%Z = 30040%Z -> TagSpec.has_tag "reading-direction" tags1)
    /\ length [["d"; "doc"]; ["title"; "Doc"]] <= length tags1
    /\ forall i t, [["d"; "doc"]; ["title"; "Doc"]] !! i = Some t ->
                   head t <> Some "l" -> tags1 !! i = Some t.
Proof.
  apply (upgrade_legacy_tags_completes
           {[ 1%positive := [["d"; "doc"]; ["title"; "Doc"]] ]} _
           1%positive 1%positive [["d"; "doc"]; ["title"; "Doc"]] 30040).
  - reflexivity.
  - vm_compute. reflexivity.
Defined.

(** X15: an l tag without a value makes [upgrade_legacy_tags] raise
    IndexError, and what was appended before stays: with no m tag in the
    list (and an M tag there), the list is left with the m tag added. *)
Theorem upgrade_legacy_tags_partial (h : Py.store) (r : Py.loc)
    (tags : list tag) (event_kind : Z) :
  h !! r = Some tags ->
  Forall (fun t => t <> []) tags ->
  ~ TagSpec.has_tag "m" tags ->
  TagSpec.has_tag "M" tags ->
  Spec.values_of "l" tags None = Some [] ->
  Tags.upgrade_legacy_tags r event_kind h
  = (Py.Raise Py.IndexError,
     <[r := tags ++ [["m"; if (event_kind =? 30040)%Z
                           then "application/json" else "text/asciidoc"]]]> h).
Proof.
  intros Hr Hne Hm HM Hl.
  destruct (UpgradeIdem.tag_dict_of_nonempty tags Hne) as (d & Hd & Hlook).
  unfold Tags.upgrade_legacy_tags.
  rewrite (UpgradeFacts.bind_load h r tags _ Hr), Hd,
    UpgradeFacts.bind_lift_ok.
  unfold mbind, Py.St_bind, Tags.append_missing, Tags.fix_language, Py.append,
    Py.lift, mret, Py.St_ret.
  rewrite !Hlook, Hl.
  rewrite (ValidatorMore.values_of_absent "m" tags None Hm).
  rewrite (ValidatorMore.has_tag_values_of "M" tags None HM).
  cbn [Py.present]. cbv beta iota. rewrite Hr.
  destruct (event_kind =? 30040)%Z; reflexivity.
Qed.

Lemma upgrade_legacy_tags_partial_witness :
  Tags.upgrade_legacy_tags 1%positive 30041
    {[ 1%positive := [["d"; "doc"]; ["M"; "x"]; ["l"]] ]}
  = (Py.Raise Py.IndexError,
     <[1%positive := [["d"; "doc"]; ["M"; "x"]; ["l"]]
                     ++ [["m"; if (30041 =? 30040)%Z
                               then "application/json"
                               else "text/asciidoc"]]]>
       {[ 1%positive := [["d"; "doc"]; ["M"; "x"]; ["l"]] ]}).
Proof.
  apply upgrade_legacy_tags_partial.
  - reflexivity.
  - repeat constructor; discriminate.
  - intros H. unfold TagSpec.has_tag in H.
    repeat (apply Exists_cons in H as [H|H]; [discriminate H|]).
    apply Exists_nil in H. exact H.
  - apply Exists_cons_tl, Exists_cons_hd. reflexivity.
  - reflexivity.
Defined.

(** ** The legacy builders *)

Module LegacyFacts.
Import Py Spec Tags TagSpec Legacy.

(** What upgrading makes of the legacy tags of an index. *)
Lemma upgraded_legacy_index doc_title auto_update doc_author :
  Upgrade.upgraded (create_index_tags_legacy doc_title auto_update doc_author)
    30040
  = Ok (create_index_tags_legacy doc_title auto_update doc_author
        ++ [ ["m"; "application/json"];
             ["M"; "meta-data/index/replaceable"];
             ["l"; "en, ISO-639-1"];
             ["reading-direction"; "left-to-right, top-to-bottom"];
             ["version"; "1"] ]).
Proof.
  unfold create_index_tags_legacy.
  destruct (truthy doc_author).
  - set (a := default "" doc_author). set (d := Slug.clean_tag doc_title).
    clearbody a d. reflexivity.
  - set (d := Slug.clean_tag doc_title). clearbody d. reflexivity.
Qed.

End LegacyFacts.

(** X16: legacy index tags become valid by upgrading: after
    [upgrade_legacy_tags] for kind 30040 and one reference added with
    [add_reference_to_index], the index validator accepts the list,
    provided the auto-update value is yes, ask or no. *)
Theorem upgraded_legacy_index_validates (doc_title auto_update : string)
    (doc_author : option string) (h : Py.store) (r : Py.loc)
    (section_event : Tags.Event) (d_tag relay : string) :
  Tags.is_auto_update auto_update = true ->
  h !! r = Some (Legacy.create_index_tags_legacy doc_title auto_update
                   doc_author) ->
  exists h1 h2 tags2,
    Tags.upgrade_legacy_tags r 30040 h = (Py.Ok r, h1)
    /\ Tags.add_reference_to_index r section_event d_tag relay h1
       = (Py.Ok r, h2)
    /\ h2 !! r = Some tags2
    /\ Tags.validate_index_tags tags2 = Py.Ok (true, []).
Proof.
  intros Hauto Hr.
  pose proof (UpgradeFacts.upgrade_legacy_tags_run h r _ 30040 Hr) as Hrun.
  rewrite LegacyFacts.upgraded_legacy_index in Hrun.
  eexists _, _, _. split; [exact Hrun|]. split; [|split].
  - apply PipelineFacts.add_reference_to_index_run. apply lookup_insert_eq.
  - apply lookup_insert_eq.
  - unfold Legacy.create_index_tags_legacy.
    set (ref := Tags.create_reference_tag _ _ _ _ _).
    assert (Href : exists v, ref = "a" :: v) by (eexists; reflexivity).
    destruct Href as [v ->].
    destruct (Py.truthy doc_author);
      apply (ValidatorMore.validate_index_tags_accepts _ auto_update [] []);
      try exact Hauto; try reflexivity;
      try (repeat constructor; discriminate);
      unfold TagSpec.index_required, TagSpec.has_tag;
      repeat apply List.Forall_cons; try apply List.Forall_nil;
      repeat first [ apply Exists_cons_hd; reflexivity | apply Exists_cons_tl ].
Qed.

Lemma upgraded_legacy_index_validates_witness :
  exists h1 h2 tags2,
    Tags.upgrade_legacy_tags 1%positive 30040
      {[ 1%positive := Legacy.create_index_tags_legacy "Doc" "ask" None ]}
    = (Py.Ok 1%positive, h1)
    /\ Tags.add_reference_to_index 1%positive (Tags.mkEvent 30041 "pk" "id")
         "doc-a" "wss://relay" h1
       = (Py.Ok 1%positive, h2)
    /\ h2 !! 1%positive = Some tags2
    /\ Tags.validate_index_tags tags2 = Py.Ok (true, []).
Proof.
  apply (upgraded_legacy_index_validates "Doc" "ask" None); reflexivity.
Defined.

(** X17: legacy section tags pass the content validator as they are;
    legacy index tags do not pass the index validator: it misses the m tag,
    the M tag and a reference, and nothing else when the auto-update value
    is yes, ask or no. *)
Theorem legacy_tags_under_validators (doc_title section_title
    auto_update : string) (doc_author : option string) (namespace : bool) :
  Tags.is_auto_update auto_update = true ->
  Tags.validate_content_tags
    (Legacy.create_section_tags_legacy doc_title section_title doc_author
       namespace)
  = Py.Ok (true, [])
  /\ Tags.validate_index_tags
       (Legacy.create_index_tags_legacy doc_title auto_update doc_author)
     = Py.Ok (false,
              ["Missing required tag: m"; "Missing required tag: M";
               "Index must include at least one 'a' tag reference"]).
Proof.
  intros Hauto. split.
  - unfold Legacy.create_section_tags_legacy.
    set (d := if namespace then _ else _). clearbody d. reflexivity.
  - unfold Legacy.create_index_tags_legacy.
    set (d := Slug.clean_tag doc_title). clearbody d.
    set (a := default "" doc_author). clearbody a.
    destruct (Py.truthy doc_author);
      unfold Tags.validate_index_tags, Tags.tag_dict, mbind, Py.result_bind;
      cbn [Tags.tag_dict_from];
      unfold Tags.check_value, Tags.check_required;
      rewrite !lookup_insert; repeat (rewrite decide_False by discriminate);
      rewrite ?decide_True by reflexivity; rewrite ?lookup_empty;
      cbn [Py.present Py.item0 mbind Py.result_bind];
      unfold mbind, Py.result_bind; rewrite Hauto; reflexivity.
Qed.

Lemma legacy_tags_under_validators_witness :
  Tags.validate_content_tags
    (Legacy.create_section_tags_legacy "Doc" "A" (Some "Alice") true)
  = Py.Ok (true, [])
  /\ Tags.validate_index_tags
       (Legacy.create_index_tags_legacy "Doc" "yes" (Some "Alice"))
     = Py.Ok (false,
              ["Missing required tag: m"; "Missing required tag: M";
               "Index must include at least one 'a' tag reference"]).
Proof. apply legacy_tags_under_validators. reflexivity. Defined.

(** ** Upgrading what the builders make *)

Module BuiltUpgrade.
Import Py Spec Tags TagSpec Upgrade.

Lemma for_each_wikilink_names links wl :
  for_each wikilink_tag links = Ok wl ->
  Forall (fun t => tag_name_in ["wikilink"] t = true) wl.
Proof.
  revert wl. induction links as [|link rest IH]; intros wl; cbn [for_each].
  - intros [= <-]. constructor.
  - unfold mbind, result_bind. unfold wikilink_tag at 1.
    destruct (link !! "term") as [term|]; [|intros H; discriminate H].
    destruct (for_each wikilink_tag rest) as [ys|];
      [|intros H; discriminate H].
    intros [= <-]. constructor; [reflexivity | apply IH; reflexivity].
Qed.

(** A built content tag list: the five fixed tags, then wikilink tags. *)
Lemma create_content_tags_built title d_tag content_type language wikilinks
    tags :
  create_content_tags title d_tag content_type language wikilinks = Ok tags ->
  exists wl,
    tags = [ ["d"; d_tag]; ["title"; title];
             ["m"; default (MIME_TYPES !!! "plain")
                     (MIME_TYPES !! content_type)];
             ["M"; NOSTR_CATEGORIES !!! "content"];
             ["l"; language +:+ ", ISO-639-1"] ] ++ wl
    /\ Forall (fun t => tag_name_in ["wikilink"] t = true) wl.
Proof.
  unfold create_content_tags.
  destruct wikilinks as [[|link links]|].
  - intros [= <-]. exists []. split; [reflexivity | constructor].
  - unfold mbind, result_bind.
    destruct (for_each wikilink_tag (link :: links)) as [wl|] eqn:E;
      [|intros H; discriminate H].
    intros [= <-]. exists wl. split; [reflexivity|].
    exact (for_each_wikilink_names _ _ E).
  - intros [= <-]. exists []. split; [reflexivity | constructor].
Qed.

Lemma upgraded_built_content title d_tag content_type language wikilinks
    tags event_kind :
  create_content_tags title d_tag content_type language wikilinks = Ok tags ->
  (event_kind =? 30040)%Z = false ->
  upgraded tags event_kind = Ok (tags ++ [["version"; "1"]]).
Proof.
  intros Hb Hk.
  destruct (create_content_tags_built _ _ _ _ _ _ Hb) as (wl & -> & Hwl).
  set (fixed := [["d"; d_tag]; _; _; _; _]).
  assert (Hne : Forall (fun t : tag => t <> []) (fixed ++ wl)).
  { apply Forall_app. split; [repeat constructor; discriminate|].
    exact (TagFacts.Forall_tag_name_in_nonempty _ _ Hwl). }
  destruct (UpgradeIdem.tag_dict_of_nonempty _ Hne) as (d & Hd & Hlook).
  assert (Hkey : forall key,
            existsb (String.eqb key) ["wikilink"] = false ->
            d !! key = values_of key fixed None).
  { intros key Hkey. rewrite Hlook, TagFacts.values_of_app.
    apply (TagFacts.values_of_other ["wikilink"] _ _ _ Hwl Hkey). }
  unfold upgraded, mbind, result_bind. rewrite Hd. cbv beta iota.
  unfold add_m, add_M, fix_language_of, add_reading_direction, add_missing.
  rewrite Hk, !Hkey by reflexivity. simpl.
  rewrite UpgradeIdem.contains_suffix_iso. reflexivity.
Qed.

Lemma upgraded_built_index title d_tag author publication_type auto_update
    language version external metadata :
  upgraded
    (create_index_tags title d_tag author publication_type auto_update
       language version external metadata) 30040
  = Ok (create_index_tags title d_tag author publication_type auto_update
          language version external metadata).
Proof.
  set (tags := create_index_tags _ _ _ _ _ _ _ _ _).
  pose proof (ValidateFacts.index_tags_names title d_tag author
                publication_type auto_update language version external
                metadata [] (List.Forall_nil _)) as Hnames.
  rewrite app_nil_r in Hnames. fold tags in Hnames.
  destruct (UpgradeIdem.tag_dict_of_nonempty tags
              (TagFacts.Forall_tag_name_in_nonempty _ _ Hnames))
    as (d & Hd & Hlook).
  assert (Hkey : forall key,
            existsb (String.eqb key) optional_names = false ->
            existsb (String.eqb key) ["a"] = false ->
            d !! key
            = values_of key
                (index_head title d_tag publication_type auto_update language
                   version external) None).
  { intros key Hopt Ha. rewrite Hlook.
    pose proof (ValidateFacts.index_values_of key title d_tag author
                  publication_type auto_update language version external
                  metadata [] (List.Forall_nil _) Hopt Ha) as H.
    rewrite app_nil_r in H. exact H. }
  unfold upgraded, mbind, result_bind. rewrite Hd. cbv beta iota.
  unfold add_m, add_M, fix_language_of, add_reading_direction, add_missing.
  rewrite !Hkey by reflexivity. simpl.
  rewrite UpgradeIdem.contains_suffix_iso. reflexivity.
Qed.

End BuiltUpgrade.

(** X18: [upgrade_legacy_tags] finds nothing to do on a freshly built
    index (kind 30040): the list stays as [create_index_tags] made it.  To
    freshly built content tags it adds a version tag and nothing else. *)
Theorem upgrade_of_built_tags (title d_tag : string) (author : option string)
    (publication_type auto_update language version : string)
    (external : bool) (metadata : option Tags.Metadata)
    (content_type : string) (wikilinks : option (list (gmap string string)))
    (content_tags : list tag) (h : Py.store) (r1 r2 : Py.loc) :
  h !! r1 = Some (Tags.create_index_tags title d_tag author publication_type
                    auto_update language version external metadata) ->
  Tags.create_content_tags title d_tag content_type language wikilinks
  = Py.Ok content_tags ->
  h !! r2 = Some content_tags ->
  Tags.upgrade_legacy_tags r1 30040 h = (Py.Ok r1, h)
  /\ Tags.upgrade_legacy_tags r2 30041 h
     = (Py.Ok r2, <[r2 := content_tags ++ [["version"; "1"]]]> h).
Proof.
  intros Hr1 Hb Hr2. split.
  - pose proof (UpgradeFacts.upgrade_legacy_tags_run h r1 _ 30040 Hr1) as H.
    rewrite BuiltUpgrade.upgraded_built_index in H.
    rewrite (insert_id h r1 _ Hr1) in H. exact H.
  - pose proof (UpgradeFacts.upgrade_legacy_tags_run h r2 _ 30041 Hr2) as H.
    rewrite (BuiltUpgrade.upgraded_built_content _ _ _ _ _ _ 30041 Hb eq_refl)
      in H.
    exact H.
Qed.

Lemma upgrade_of_built_tags_witness :
  Tags.upgrade_legacy_tags 1%positive 30040
    (<[2%positive := [["d"; "doc"]; ["title"; "Doc"]; ["m"; "text/asciidoc"];
                      ["M"; "article/publication-content/replaceable"];
                      ["l"; "en, ISO-639-1"]]]>
       {[ 1%positive :=
            Tags.create_index_tags "Doc" "doc" None "book" "yes" "en" "1"
              false None ]})
  = (Py.Ok 1%positive,
     <[2%positive := [["d"; "doc"]; ["title"; "Doc"]; ["m"; "text/asciidoc"];
                      ["M"; "article/publication-content/replaceable"];
                      ["l"; "en, ISO-639-1"]]]>
       {[ 1%positive :=
            Tags.create_index_tags "Doc" "doc" None "book" "yes" "en" "1"
              false None ]})
  /\ Tags.upgrade_legacy_tags 2%positive 30041
       (<[2%positive := [["d"; "doc"]; ["title"; "Doc"];
                         ["m"; "text/asciidoc"];
                         ["M"; "article/publication-content/replaceable"];
                         ["l"; "en, ISO-639-1"]]]>
          {[ 1%positive :=
               Tags.create_index_tags "Doc" "doc" None "book" "yes" "en" "1"
                 false None ]})
     = (Py.Ok 2%positive,
        <[2%positive := [["d"; "doc"]; ["title"; "Doc"];
                         ["m"; "text/asciidoc"];
                         ["M"; "article/publication-content/replaceable"];
                         ["l"; "en, ISO-639-1"]] ++ [["version"; "1"]]]>
          (<[2%positive := [["d"; "doc"]; ["title"; "Doc"];
                            ["m"; "text/asciidoc"];
                            ["M"; "article/publication-content/replaceable"];
                            ["l"; "en, ISO-639-1"]]]>
             {[ 1%positive :=
                  Tags.create_index_tags "Doc" "doc" None "book" "yes" "en"
                    "1" false None ]})).
Proof.
  apply (upgrade_of_built_tags "Doc" "doc" None "book" "yes" "en" "1" false
           None "asciidoc" None); reflexivity.
Defined.

(** ** The index event and its references *)

Module IndexEventFacts.
Import Py Spec Tags TagSpec Converter Fetch.

Lemma add_references_run h r tags section_events relay :
  h !! r = Some tags ->
  add_references r section_events relay h
  = (Ok r, <[r := tags ++ map (reference_of relay) section_events]> h).
Proof.
  revert h tags. induction section_events as [|s rest IH]; intros h tags Hr.
  - cbn [add_references map]. rewrite app_nil_r, insert_id by exact Hr.
    reflexivity.
  - cbn [add_references map]. unfold mbind at 1, St_bind at 1.
    rewrite (PipelineFacts.add_reference_to_index_run h r tags _ _ _ Hr).
    rewrite (IH _ (tags ++ [reference_of relay s]))
      by apply lookup_insert_eq.
    rewrite insert_insert_eq, <- app_assoc. reflexivity.
Qed.

(** What [create_index_event] builds: a new list object that holds the
    built index, the p tag behind its auto-update tag, and one reference
    for every section event. *)
Lemma index_event_tags_run h title section_events relay metadata author
    author_pubkey :
  index_event_tags title section_events relay metadata author author_pubkey h
  = (Ok (fresh (dom h)),
     <[fresh (dom h) :=
         with_pubkey author_pubkey
           (create_index_tags title (Slug.clean_tag title)
              (index_author author metadata) (index_pub_type metadata) "yes"
              (index_language metadata) (index_version metadata) false
              (Some (index_metadata metadata)))
         ++ map (reference_of relay) section_events]> h).
Proof.
  unfold index_event_tags, alloc, with_pubkey.
  set (built := create_index_tags _ _ _ _ _ _ _ _ _).
  set (r := fresh (dom h)).
  unfold mbind at 1, St_bind at 1.
  destruct (truthy author_pubkey).
  - unfold mbind at 1, St_bind at 1. unfold mbind at 1, St_bind at 1.
    unfold load. rewrite lookup_insert_eq.
    unfold mbind at 1, St_bind at 1, lift.
    assert (Hfound : find_insert_index built 0 = Ok (Some 3)) by reflexivity.
    rewrite Hfound. unfold insert_at. rewrite lookup_insert_eq.
    rewrite insert_insert_eq.
    rewrite (add_references_run _ r _ section_events relay
               (lookup_insert_eq _ _ _)).
    rewrite insert_insert_eq. reflexivity.
  - unfold mbind at 1, St_bind at 1. unfold mret at 1, St_ret at 1.
    rewrite (add_references_run _ r _ section_events relay
               (lookup_insert_eq _ _ _)).
    rewrite insert_insert_eq. reflexivity.
Qed.

Lemma reference_names relay section_events :
  Forall (fun t => tag_name_in ["a"] t = true)
    (map (reference_of relay) section_events).
Proof. induction section_events; simpl; constructor; auto. Qed.

Lemma tail_names author external metadata refs :
  Forall (fun t => tag_name_in ["a"] t = true) refs ->
  Forall (fun t => tag_name_in (optional_names ++ ["a"]) t = true)
    (index_optional author external metadata ++ refs).
Proof.
  intros Hrefs. apply Forall_app. split.
  - eapply Forall_impl; [apply TagFacts.index_optional_names|].
    intros [|name values]; [discriminate|]. cbn [tag_name_in].
    rewrite existsb_app. intros ->. reflexivity.
  - eapply Forall_impl; [exact Hrefs|].
    intros [|name values]; [discriminate|]. cbn [tag_name_in].
    rewrite existsb_app. intros ->. apply orb_true_r.
Qed.

(** What the index validator answers once the required tags are there with
    good values and the p/E loop finds nothing: valid with a reference,
    one violation without. *)
Lemma validate_index_tags_answer tags au au_rest m_rest (b : bool) :
  Forall (fun t => t <> []) tags ->
  Forall (fun req => has_tag req tags) index_required ->
  values_of "auto-update" tags None = Some (au :: au_rest) ->
  is_auto_update au = true ->
  values_of "m" tags None = Some ("application/json" :: m_rest) ->
  any_named "a" tags = Ok b ->
  (forall errors, check_p_e tags 0 None errors = Ok errors) ->
  validate_index_tags tags
  = Ok (if b then (true, [])
        else (false, ["Index must include at least one 'a' tag reference"])).
Proof.
  intros Hne Hreq Hau Hok Hm Ha Hpe.
  destruct (TagFacts.tag_dict_from_lookup tags ∅ Hne) as (d & Hd & Hlook).
  unfold validate_index_tags, tag_dict. rewrite Hd, Ha.
  assert (Hreqs : check_required ["d"; "title"; "auto-update"; "m"; "M"] d []
                  = []).
  { unfold index_required in Hreq.
    repeat (apply Forall_cons in Hreq as [?H Hreq]).
    simpl. rewrite !Hlook, !lookup_empty.
    rewrite !ValidatorMore.has_tag_values_of by assumption. reflexivity. }
  unfold mbind, result_bind. rewrite Hreqs. unfold check_value.
  rewrite !Hlook, !lookup_empty, Hau, Hm. simpl. rewrite Hok, Hpe.
  destruct b; reflexivity.
Qed.

Lemma any_named_references relay section_events :
  any_named "a" (map (reference_of relay) section_events)
  = Ok (match section_events with [] => false | _ :: _ => true end).
Proof. destruct section_events; reflexivity. Qed.

(** The contents of the index event under the index validator. *)
Lemma validate_index_event_contents title d_tag author publication_type
    language version metadata author_pubkey relay section_events :
  validate_index_tags
    (with_pubkey author_pubkey
       (create_index_tags title d_tag author publication_type "yes" language
          version false metadata)
     ++ map (reference_of relay) section_events)
  = Ok (match section_events with
        | [] => (false, ["Index must include at least one 'a' tag reference"])
        | _ :: _ => (true, [])
        end).
Proof.
  pose proof (reference_names relay section_events) as Hrefs.
  unfold with_pubkey. destruct (truthy author_pubkey).
  - pose proof (tail_names author false metadata _ Hrefs) as Htail.
    set (tail := index_optional author false metadata
                 ++ map (reference_of relay) section_events) in *.
    change (validate_index_tags
              ([ ["d"; d_tag]; ["title"; title]; ["auto-update"; "yes"];
                 ["p"; default "" author_pubkey];
                 ["type"; publication_type];
                 ["m"; MIME_TYPES !!! "index"];
                 ["M"; NOSTR_CATEGORIES !!! "index"];
                 ["l"; language +:+ ", ISO-639-1"];
                 ["reading-direction"; "left-to-right, top-to-bottom"];
                 ["version"; version] ] ++ tail)
            = Ok (match section_events with
                  | [] => (false,
                           ["Index must include at least one 'a' tag reference"])
                  | _ :: _ => (true, [])
                  end)).
    assert (Hkey : forall key acc,
              existsb (String.eqb key) (optional_names ++ ["a"]) = false ->
              values_of key tail acc = acc).
    { intros key acc. apply TagFacts.values_of_other. exact Htail. }
    rewrite (validate_index_tags_answer _ "yes" [] []
               (match section_events with [] => false | _ :: _ => true end)).
    + destruct section_events; reflexivity.
    + apply Forall_app. split.
      * repeat constructor; discriminate.
      * exact (TagFacts.Forall_tag_name_in_nonempty _ _ Htail).
    + unfold index_required, has_tag.
      repeat apply List.Forall_cons; try apply List.Forall_nil;
        repeat first [ apply Exists_cons_hd; reflexivity
                     | apply Exists_cons_tl ].
    + rewrite TagFacts.values_of_app, Hkey by reflexivity. reflexivity.
    + reflexivity.
    + rewrite TagFacts.values_of_app, Hkey by reflexivity. reflexivity.
    + rewrite TagFacts.any_named_app;
        [| repeat constructor; discriminate | reflexivity].
      unfold tail. rewrite TagFacts.any_named_app.
      * apply any_named_references.
      * exact (TagFacts.Forall_tag_name_in_nonempty _ _
                 (TagFacts.index_optional_names author false metadata)).
      * apply (TagFacts.any_named_other optional_names);
          [apply TagFacts.index_optional_names | reflexivity].
    + intros errors. cbn -[tail].
      apply (ValidatorMore.check_p_e_quiet (optional_names ++ ["a"]));
        [exact Htail | reflexivity | reflexivity].
  - rewrite (ValidateFacts.validate_built_index title d_tag author
               publication_type "yes" language version false metadata _
               Hrefs eq_refl).
    destruct section_events; reflexivity.
Qed.

Lemma section_refs_loop_other names tags rest acc :
  Forall (fun t => tag_name_in names t = true) tags ->
  existsb (String.eqb "a") names = false ->
  section_refs_loop (tags ++ rest) acc = section_refs_loop rest acc.
Proof.
  intros Hin Hout.
  induction Hin as [|t tags' Ht _ IH]; [reflexivity|].
  destruct t as [|name values]; [discriminate|].
  cbn [app section_refs_loop item0]. unfold mbind, result_bind.
  rewrite (TagFacts.tag_name_in_other names "a" name values Ht Hout).
  cbn [andb]. exact IH.
Qed.

Lemma section_refs_loop_references relay section_events acc :
  section_refs_loop (map (reference_of relay) section_events) acc
  = Ok (acc ++ List.filter has_id
                 (map (fun s => ev_id (sr_event s)) section_events)).
Proof.
  revert acc. induction section_events as [|s rest IH]; intros acc.
  - simpl. rewrite app_nil_r. reflexivity.
  - cbn [map List.filter]. unfold reference_of at 1, create_reference_tag.
    cbn [section_refs_loop item0]. unfold mbind, result_bind.
    cbn [String.eqb Ascii.eqb Bool.eqb andb length Nat.leb lookup
         list_lookup truthy default].
    unfold has_id at 1.
    destruct (String.eqb (ev_id (sr_event s)) ""); cbn [negb andb].
    + apply IH.
    + rewrite IH, <- app_assoc. reflexivity.
Qed.

Lemma with_pubkey_names names author_pubkey tags :
  Forall (fun t => tag_name_in names t = true) tags ->
  Forall (fun t => tag_name_in ("p" :: names) t = true)
    (with_pubkey author_pubkey tags).
Proof.
  intros H.
  assert (H' : Forall (fun t => tag_name_in ("p" :: names) t = true) tags).
  { eapply Forall_impl; [exact H|].
    intros [|name values]; [discriminate|]. cbn [tag_name_in existsb].
    intros ->. apply orb_true_r. }
  unfold with_pubkey. destruct (truthy author_pubkey); [|exact H'].
  rewrite <- (take_drop 3 tags) in H'. apply Forall_app in H' as [H1 H2].
  apply Forall_app. split; [exact H1|]. constructor; [reflexivity | exact H2].
Qed.

Lemma built_index_names title d_tag author publication_type auto_update
    language version external metadata :
  Forall (fun t => tag_name_in
            (["d"; "title"; "auto-update"; "type"; "m"; "M"; "l";
              "reading-direction"; "version"] ++ optional_names) t = true)
    (create_index_tags title d_tag author publication_type auto_update
       language version external metadata).
Proof.
  unfold create_index_tags. apply Forall_app. split.
  - repeat constructor.
  - eapply Forall_impl; [apply TagFacts.index_optional_names|].
    intros [|name values]; [discriminate|]. cbn [tag_name_in].
    rewrite existsb_app. intros ->. apply orb_true_r.
Qed.

Lemma extract_index_event_contents title d_tag author publication_type
    auto_update language version external metadata author_pubkey relay
    section_events :
  extract_section_refs
    (Some (with_pubkey author_pubkey
             (create_index_tags title d_tag author publication_type
                auto_update language version external metadata)
           ++ map (reference_of relay) section_events))
  = Ok (List.filter has_id
          (map (fun s => ev_id (sr_event s)) section_events)).
Proof.
  unfold extract_section_refs.
  change (default [] (Some ?l)) with l.
  rewrite (section_refs_loop_other _ _ _ _
             (with_pubkey_names _ author_pubkey _
                (built_index_names title d_tag author publication_type
                   auto_update language version external metadata))
             eq_refl).
  apply section_refs_loop_references.
Qed.

Lemma filter_other names key tags :
  Forall (fun t => tag_name_in names t = true) tags ->
  existsb (String.eqb key) names = false ->
  List.filter (tag_name_in [key]) tags = [].
Proof.
  intros Hin Hout. induction Hin as [|t rest Ht _ IH]; [reflexivity|].
  destruct t as [|name values]; [discriminate|].
  cbn [List.filter tag_name_in existsb].
  rewrite (TagFacts.tag_name_in_other names key name values Ht Hout).
  exact IH.
Qed.

Lemma filter_references relay section_events :
  List.filter (tag_name_in ["a"]) (map (reference_of relay) section_events)
  = map (reference_of relay) section_events.
Proof.
  induction section_events as [|s rest IH]; [reflexivity|].
  cbn [map]. unfold reference_of at 1, create_reference_tag.
  cbn [List.filter tag_name_in existsb String.eqb Ascii.eqb Bool.eqb orb].
  cbn [andb]. f_equal. exact IH.
Qed.

End IndexEventFacts.

(** X19: the tags [create_index_event] builds.  It returns for every
    input, with a list object that was not there before, and the index
    validator accepts that list exactly when there is a section event to
    refer to: with none it reports the missing reference and nothing else.
    The p tag of the author, put behind the auto-update tag, never upsets
    the validator. *)
Theorem index_event_tags_validate (title : string)
    (section_events : list Converter.SectionRef) (primary_relay : string)
    (metadata : option Converter.DocMetadata)
    (author author_pubkey : option string) (h : Py.store) :
  exists r tags,
    Converter.index_event_tags title section_events primary_relay metadata
      author author_pubkey h
    = (Py.Ok r, <[r := tags]> h)
    /\ h !! r = None
    /\ Tags.validate_index_tags tags
       = Py.Ok (match section_events with
                | [] => (false,
                         ["Index must include at least one 'a' tag reference"])
                | _ :: _ => (true, [])
                end).
Proof.
  eexists _, _. split; [apply IndexEventFacts.index_event_tags_run|].
  split.
  - apply not_elem_of_dom. apply is_fresh.
  - apply IndexEventFacts.validate_index_event_contents.
Qed.

(** X20: the references of an index event, read back.  The a tags of the
    list [create_index_event] builds are the references of the section
    events, one for each and in their order, and [extract_section_refs]
    returns from it the ids of the section events in that order, leaving
    out the events whose id is empty. *)
Theorem extract_section_refs_of_index_event (title : string)
    (section_events : list Converter.SectionRef) (primary_relay : string)
    (metadata : option Converter.DocMetadata)
    (author author_pubkey : option string) (h : Py.store) :
  exists r tags,
    Converter.index_event_tags title section_events primary_relay metadata
      author author_pubkey h
    = (Py.Ok r, <[r := tags]> h)
    /\ List.filter (Spec.tag_name_in ["a"]) tags
       = map (Converter.reference_of primary_relay) section_events
    /\ Fetch.extract_section_refs (Some tags)
       = Py.Ok (List.filter Converter.has_id
                  (map (fun s => Tags.ev_id (Converter.sr_event s))
                     section_events)).
Proof.
  eexists _, _. split; [apply IndexEventFacts.index_event_tags_run|].
  split.
  - rewrite List.filter_app.
    rewrite (IndexEventFacts.filter_other _ "a" _
               (IndexEventFacts.with_pubkey_names _ author_pubkey _
                  (IndexEventFacts.built_index_names _ _ _ _ _ _ _ _ _))
               eq_refl).
    apply IndexEventFacts.filter_references.
  - apply IndexEventFacts.extract_index_event_contents.
Qed.

(** ** Topic tags without repetition *)

Module MetaFacts.
Import Converter.

Lemma unique_loop_spec tags : forall seen acc,
  (forall x, x ∈ seen <-> x ∈ str_lower <$> acc) ->
  NoDup (str_lower <$> acc) ->
  exists kept,
    unique_loop tags seen acc = acc ++ kept
    /\ sublist kept tags
    /\ NoDup (str_lower <$> (acc ++ kept))
    /\ (forall t, t ∈ tags -> str_lower t ∈ str_lower <$> (acc ++ kept)).
Proof.
  induction tags as [|tag rest IH]; intros seen acc Hseen Hnd.
  - exists []. cbn [unique_loop]. rewrite app_nil_r.
    repeat split; [constructor | exact Hnd |].
    intros t Ht. inversion Ht.
  - cbn [unique_loop]. destruct (bool_decide_reflect (str_lower tag ∉ seen))
      as [Hnew|Hold].
    + destruct (IH ({[ str_lower tag ]} ∪ seen) (acc ++ [tag]))
        as (kept & Hrun & Hsub & Hnd' & Hall).
      * intros x. rewrite fmap_app, elem_of_app, elem_of_union, Hseen.
        cbn [fmap list_fmap]. rewrite elem_of_singleton, list_elem_of_singleton.
        tauto.
      * rewrite fmap_app. apply NoDup_app. split; [exact Hnd|]. split.
        -- intros x Hx. cbn [fmap list_fmap].
           rewrite list_elem_of_singleton. intros ->.
           apply Hnew. apply Hseen. exact Hx.
        -- cbn [fmap list_fmap]. apply NoDup_singleton.
      * exists (tag :: kept). rewrite Hrun, <- app_assoc.
        change ([tag] ++ kept) with (tag :: kept) in *.
        rewrite <- app_assoc in Hnd', Hall.
        change ([tag] ++ kept) with (tag :: kept) in *.
        repeat split; [apply sublist_skip; exact Hsub | exact Hnd' |].
        intros t Ht. apply elem_of_cons in Ht as [->|Ht]; [|exact (Hall t Ht)].
        rewrite fmap_app, elem_of_app. right. cbn [fmap list_fmap].
        apply elem_of_cons. left. reflexivity.
    + destruct (IH seen acc Hseen Hnd) as (kept & Hrun & Hsub & Hnd' & Hall).
      exists kept. rewrite Hrun.
      repeat split; [apply sublist_cons; exact Hsub | exact Hnd' |].
      intros t Ht. apply elem_of_cons in Ht as [->|Ht]; [|exact (Hall t Ht)].
      rewrite fmap_app, elem_of_app. left. apply Hseen.
      destruct (decide (str_lower tag ∈ seen)) as [Hin|Hout]; [exact Hin|].
      destruct (Hold Hout).
Qed.

(** Tags that already differ beyond case are all kept. *)
Lemma unique_loop_distinct tags : forall seen acc,
  NoDup (str_lower <$> tags) ->
  (forall x, x ∈ str_lower <$> tags -> x ∉ seen) ->
  unique_loop tags seen acc = acc ++ tags.
Proof.
  induction tags as [|tag rest IH]; intros seen acc Hnd Hout.
  - cbn [unique_loop]. rewrite app_nil_r. reflexivity.
  - cbn [unique_loop]. cbn [fmap list_fmap] in Hnd, Hout.
    apply NoDup_cons in Hnd as [Hhead Hnd].
    rewrite bool_decide_true
      by (apply Hout; apply elem_of_cons; left; reflexivity).
    rewrite IH; [rewrite <- app_assoc; reflexivity | exact Hnd |].
    intros x Hx. rewrite elem_of_union, elem_of_singleton.
    intros [->|Hin]; [exact (Hhead Hx)|].
    apply (Hout x); [apply elem_of_cons; right; exact Hx | exact Hin].
Qed.

End MetaFacts.

(** X21: the topic tags [extract_metadata] keeps.  Of the tags that agree
    up to letter case the loop keeps one: no two kept tags agree up to
    case, the kept tags are tags of the input in their order, every tag of
    the input agrees up to case with a kept one, and running the loop on
    its own result changes nothing. *)
Theorem unique_tags_one_per_case (tags : list string) :
  NoDup (Converter.str_lower <$> Converter.unique_tags tags)
  /\ sublist (Converter.unique_tags tags) tags
  /\ (forall t, t ∈ tags ->
        exists u, u ∈ Converter.unique_tags tags
                  /\ Converter.str_lower u = Converter.str_lower t)
  /\ Converter.unique_tags (Converter.unique_tags tags)
     = Converter.unique_tags tags.
Proof.
  unfold Converter.unique_tags.
  destruct (MetaFacts.unique_loop_spec tags ∅ [])
    as (kept & Hrun & Hsub & Hnd & Hall).
  - intros x. cbn [fmap list_fmap]. rewrite elem_of_empty.
    split; [tauto | intros H; inversion H].
  - constructor.
  - cbn [app] in Hrun, Hnd, Hall. rewrite Hrun.
    repeat split; [exact Hnd | exact Hsub | |].
    + intros t Ht. apply Hall in Ht.
      apply list_elem_of_fmap in Ht as (u & Hu & Hin). eauto.
    + rewrite (MetaFacts.unique_loop_distinct kept ∅ [] Hnd);
        [reflexivity|].
      intros x _. apply not_elem_of_empty.
Qed.

(** ** The tags of a content event *)

Module ContentEventFacts.
Import Py Spec Tags TagSpec.

Lemma map_names {A} (name : string) (f : A -> string) (xs : list A) :
  Forall (fun t => tag_name_in [name] t = true)
    (map (fun x => [name; f x]) xs).
Proof.
  induction xs as [|x rest IH]; cbn [map]; constructor; [|exact IH].
  cbn [tag_name_in existsb]. rewrite String.eqb_refl. reflexivity.
Qed.

Lemma names_weaken names names' tags :
  (forall name, existsb (String.eqb name) names = true ->
                existsb (String.eqb name) names' = true) ->
  Forall (fun t => tag_name_in names t = true) tags ->
  Forall (fun t => tag_name_in names' t = true) tags.
Proof.
  intros Hsub H. eapply Forall_impl; [exact H|].
  intros [|name values]; [discriminate|]. cbn [tag_name_in]. apply Hsub.
Qed.

(** What [create_content_event] assembles: the five tags of
    [create_section_tags], then image, w, m and author tags. *)
Lemma content_event_tags_shape
    (extract_images extract_wiki_links : string -> list string)
    (content title parent_title : string) (author : option string) :
  exists rest,
    content_event_tags extract_images extract_wiki_links content title
      parent_title author
    = Ok ([ ["d"; Slug.clean_tag parent_title +:+ "-"
                  +:+ Slug.clean_tag title];
            ["title"; title];
            ["m"; "text/asciidoc"];
            ["M"; "article/publication-content/replaceable"];
            ["l"; "en, ISO-639-1"] ] ++ rest)
    /\ Forall (fun t => tag_name_in ["image"; "w"; "m"; "author"] t = true)
         rest
    /\ List.filter (tag_name_in ["m"]) rest = [["m"; "text/asciidoc"]].
Proof.
  exists (map (fun image => ["image"; image]) (extract_images content)
          ++ map (fun wiki_term => ["w"; wiki_term])
               (extract_wiki_links content)
          ++ [["m"; "text/asciidoc"]]
          ++ (if truthy author then [["author"; default "" author]] else [])).
  pose proof (map_names "image" (fun x : string => x) (extract_images content))
    as Himg.
  pose proof (map_names "w" (fun x : string => x) (extract_wiki_links content))
    as Hw.
  split; [|split].
  - unfold content_event_tags, create_section_tags, create_content_tags.
    destruct (truthy author); cbn [mbind result_bind];
      rewrite <- ?app_assoc; reflexivity.
  - rewrite !Forall_app. repeat split.
    + apply (names_weaken ["image"]); [|exact Himg].
      intros name. cbn [existsb]. intros H. rewrite orb_false_r in H.
      rewrite H. reflexivity.
    + apply (names_weaken ["w"]); [|exact Hw].
      intros name. cbn [existsb]. intros H. rewrite orb_false_r in H.
      rewrite H. rewrite orb_true_r. reflexivity.
    + repeat constructor.
    + destruct (truthy author); repeat constructor.
  - rewrite !List.filter_app.
    rewrite (IndexEventFacts.filter_other ["image"] "m" _ Himg eq_refl).
    rewrite (IndexEventFacts.filter_other ["w"] "m" _ Hw eq_refl).
    destruct (truthy author); reflexivity.
Qed.

End ContentEventFacts.

(** X22: the tags [create_content_event] assembles.  Whatever images and
    wiki links the scanners find in the section, the assembly returns, the
    content validator accepts the tags, and the m tag is there twice with
    the same value: [create_section_tags] has set it and the assembly
    appends it again. *)
Theorem content_event_tags_validate
    (extract_images extract_wiki_links : string -> list string)
    (content title parent_title : string) (author : option string) :
  exists tags,
    Tags.content_event_tags extract_images extract_wiki_links content title
      parent_title author = Py.Ok tags
    /\ Tags.validate_content_tags tags = Py.Ok (true, [])
    /\ List.filter (Spec.tag_name_in ["m"]) tags
       = [["m"; "text/asciidoc"]; ["m"; "text/asciidoc"]].
Proof.
  destruct (ContentEventFacts.content_event_tags_shape extract_images
              extract_wiki_links content title parent_title author)
    as (rest & Hbuilt & Hnames & Hm).
  eexists. split; [exact Hbuilt|]. split.
  - set (fixed := [["d"; _]; _; _; _; _]).
    assert (Hne : Forall (fun t : tag => t <> []) (fixed ++ rest)).
    { apply Forall_app. split; [repeat constructor; discriminate|].
      exact (TagFacts.Forall_tag_name_in_nonempty _ _ Hnames). }
    destruct (TagFacts.tag_dict_from_lookup _ ∅ Hne) as (d & Hd & Hlook).
    unfold Tags.validate_content_tags, Tags.tag_dict. rewrite Hd.
    unfold mbind, Py.result_bind, Tags.check_required.
    rewrite !Hlook, !lookup_empty, !TagFacts.values_of_app.
    rewrite !(TagFacts.values_of_other _ _ rest _ Hnames) by reflexivity.
    reflexivity.
  - rewrite List.filter_app, Hm. reflexivity.
Qed.
